(** * graphqlgen: resolver-contract generators (TypeScript and Flow dialects)

    A shallow embedding of the Flow generator
    ([packages/graphqlgen/src/generators/flow/generator.ts]) and of the
    TypeScript generator, and the properties of the declarations they emit.

    Generated source text is a [string]; template literals are written out
    as concatenations, with their white space.  A JavaScript object used as
    a dictionary is an insertion-ordered association list of its own
    properties ([JS.Obj]), read through [JS.read], which also sees the
    members it inherits from [Object.prototype]; a computation that can
    throw a [TypeError] (a property read on [undefined], a call of what is
    not a function) returns [option], [None] standing for the exception. *)

From Stdlib Require Import String Ascii List Bool Arith Lia.
Import ListNotations.
Local Open Scope string_scope.

(* ================================================================= *)
(** * Host-language primitives *)

Module JS.

(** [os.EOL] on the platforms the generator is run on. *)
Definition EOL : string := String (ascii_of_nat 10) EmptyString.

(** [Array.prototype.join]. *)
Definition join (sep : string) (l : list string) : string :=
  String.concat sep l.

(** An object used as a dictionary: its own string keys in insertion
    order.  (Keys here are GraphQL names and import paths, never
    integer-like, so insertion order is the enumeration order of
    [Object.keys] and [for..in].) *)
Definition Obj (V : Type) : Type := list (string * V).

(** [Object.keys(o)]; also the keys that [for..in] visits, the members of
    [Object.prototype] not being enumerable. *)
Definition keys {V} (o : Obj V) : list string := map fst o.

(** The own property [k] of [o]: what [o[k]] is for a key among
    [Object.keys(o)]; [None] when [o] has no own property [k]. *)
Fixpoint get {V} (o : Obj V) (k : string) : option V :=
  match o with
  | [] => None
  | (k', v) :: o' => if String.eqb k' k then Some v else get o' k
  end.

(** The names that every object literal inherits from [Object.prototype]. *)
Definition prototypeKeys : list string :=
  [ "constructor"; "hasOwnProperty"; "isPrototypeOf"; "propertyIsEnumerable";
    "toLocaleString"; "toString"; "valueOf"; "__proto__";
    "__defineGetter__"; "__defineSetter__"; "__lookupGetter__";
    "__lookupSetter__" ].

(** What a property read gives: an own value, a member inherited from
    [Object.prototype] (a function, or for [__proto__] the prototype
    itself: truthy, and with none of the properties or methods of a [V]),
    or [undefined]. *)
Inductive Value (V : Type) : Type :=
| Own (v : V)
| Inherited
| Undefined.
Arguments Own {V} v.
Arguments Inherited {V}.
Arguments Undefined {V}.

(** [o[k]], for an object built from [{}]. *)
Definition read {V} (o : Obj V) (k : string) : Value V :=
  match get o k with
  | Some v => Own v
  | None =>
      if existsb (String.eqb k) prototypeKeys then Inherited else Undefined
  end.

(** Use of a value that was read as a [V]: a method call on it, or a
    property of a property of it.  On [undefined] the first property read
    throws; on an inherited member the property is [undefined] and the
    next step throws. *)
Definition asObject {V} (v : Value V) : option V :=
  match v with
  | Own x => Some x
  | Inherited | Undefined => None
  end.

(** [{ ...o, [k]: v }]: an existing key keeps its position. *)
Fixpoint set {V} (o : Obj V) (k : string) (v : V) : Obj V :=
  match o with
  | [] => [(k, v)]
  | (k', v') :: o' =>
      if String.eqb k' k then (k, v) :: o' else (k', v') :: set o' k v
  end.

(** [c.toUpperCase()] on one ASCII character. *)
Definition toUpperCase (c : ascii) : ascii :=
  let n := nat_of_ascii c in
  if ((97 <=? n)%nat && (n <=? 122)%nat)%bool then ascii_of_nat (n - 32) else c.

(** Modelled from the spec: [upperFirst] of the [utils] module is not
    among the sources.  By its name and by the spec's [Owner_InputName]
    naming convention (section 4.4) it capitalises the first character and
    leaves the rest of the name as it is. *)
Definition upperFirst (s : string) : string :=
  match s with
  | EmptyString => EmptyString
  | String c r => String (toUpperCase c) r
  end.

(** Modelled from the spec: [flatten] of the [utils] module is not among
    the sources; it is used as the step of a [reduce] that merges the
    implementer lists of several interfaces, i.e. concatenation of two
    arrays.  What it does with an argument that is not an array is not
    documented; the model takes it to throw, and no theorem below depends
    on that case. *)
Definition flatten {A} (a : list A) (b : Value (list A)) : option (list A) :=
  match b with
  | Own b => Some (a ++ b)%list
  | Inherited | Undefined => None
  end.

(** ** Exceptions *)

Definition bind {A B} (m : option A) (f : A -> option B) : option B :=
  match m with
  | Some a => f a
  | None => None
  end.

Fixpoint mapM {A B} (f : A -> option B) (l : list A) : option (list B) :=
  match l with
  | [] => Some []
  | a :: l' =>
      bind (f a) (fun b => bind (mapM f l') (fun bs => Some (b :: bs)))
  end.

Fixpoint filterM {A} (f : A -> option bool) (l : list A) : option (list A) :=
  match l with
  | [] => Some []
  | a :: l' =>
      bind (f a) (fun keep =>
      bind (filterM f l') (fun r => Some (if keep then a :: r else r)))
  end.

Fixpoint foldM {A S} (f : S -> A -> option S) (l : list A) (s : S)
  : option S :=
  match l with
  | [] => Some s
  | a :: l' => bind (f s a) (fun s' => foldM f l' s')
  end.

End JS.

Import JS.

Notation "x <- m ;; k" := (bind m (fun x => k))
  (at level 61, m at next level, right associativity).

(* ================================================================= *)
(** * Data model ([source-helper], [types]) *)

(** [GraphQLTypeDefinition] / [GraphQLType]: a type reference.  The kind
    flags are the ones the generators read; the wrapping flags are the
    spec's nullable and list flags (section 3), read by the type printer. *)
Record GraphQLTypeDefinition := {
  td_name : string;
  isScalar : bool;
  isEnum : bool;
  isUnion : bool;
  isInput : bool;
  isObject : bool;
  isInterface : bool;
  isRequired : bool;
  isArray : bool;
  isArrayRequired : bool
}.

Record GraphQLTypeArgument := {
  arg_name : string;
  arg_type : GraphQLTypeDefinition
}.

Record GraphQLTypeField := {
  field_name : string;
  field_type : GraphQLTypeDefinition;
  field_arguments : list GraphQLTypeArgument
}.

(** [interfaces] is optional in the source ([type.interfaces && ...]). *)
Record GraphQLTypeObject := {
  type_name : string;
  type_type : GraphQLTypeDefinition;
  type_fields : list GraphQLTypeField;
  type_interfaces : option (list string)
}.

(** An interface with the types that implement it ([int.types]). *)
Record GraphQLInterfaceObject := {
  int_name : string;
  int_type : GraphQLTypeDefinition;
  int_fields : list GraphQLTypeField;
  int_types : list GraphQLTypeDefinition
}.

Record GraphQLUnionObject := {
  union_name : string;
  union_type : GraphQLTypeDefinition;
  union_types : list GraphQLTypeDefinition
}.

(** What [printFieldLikeType] reads of a field or of an argument
    ([arg as GraphQLTypeField]): its name and its type. *)
Record FieldLike := {
  fl_name : string;
  fl_type : GraphQLTypeDefinition
}.

Definition fieldLike (f : GraphQLTypeField) : FieldLike :=
  {| fl_name := field_name f; fl_type := field_type f |}.

Definition argLike (a : GraphQLTypeArgument) : FieldLike :=
  {| fl_name := arg_name a; fl_type := arg_type a |}.

(** An interface handed to a function that takes a [GraphQLTypeObject]: it
    has a name, a type and fields, and no [interfaces] property. *)
Definition interfaceAsType (i : GraphQLInterfaceObject) : GraphQLTypeObject :=
  {| type_name := int_name i;
     type_type := int_type i;
     type_fields := int_fields i;
     type_interfaces := None |}.

(** The definition a model is bound to: [kind] is the tag the header
    tests against ['TypeAliasDefinition'], [isEnum] the flag of a type
    alias, and [properties] the names of the properties the model exposes
    (spec, section 4.3). *)
Record TypeDefinition := {
  def_name : string;
  def_kind : string;
  def_isEnum : bool;
  def_properties : list string
}.

(** A model-map entry: the bound definition and the path it is imported
    from (spec, section 3: target type name, import path, enum alias). *)
Record Model := {
  definition : TypeDefinition;
  importPath : string
}.

Definition ModelMap := Obj Model.

Record ContextDefinition := {
  contextPath : string;
  contextName : string
}.

Record GenerateArgs := {
  types : list GraphQLTypeObject;
  interfaces : list GraphQLInterfaceObject;
  unions : list GraphQLUnionObject;
  modelMap : ModelMap;
  context : option ContextDefinition;
  defaultResolversEnabled : bool
}.

Definition InputTypesMap := Obj GraphQLTypeObject.
Definition TypeToInputTypeAssociation := Obj (list string).
Definition InterfacesMap := Obj (list GraphQLTypeDefinition).
Definition UnionsMap := Obj (list GraphQLTypeDefinition).

Record PrintOptions := { isReturn : bool }.

(* ================================================================= *)
(** * Collaborators that are not part of the generators *)

(** The helpers that the generators import from [common] (and, for the
    Flow generator, [renderTypeResolveTypeResolver] of the TypeScript one)
    are outside the two generator files: they are taken as an interface,
    and every theorem below holds for all implementations of it. *)
Class Common := {
  getContextName : option ContextDefinition -> string;
  (** [getModelName(type, modelMap, emptyType?)] *)
  getModelName : GraphQLTypeDefinition -> ModelMap -> option string -> string;
  (** [printFieldLikeType(field, modelMap, interfacesMap, unionsMap, options?)] *)
  printFieldLikeType :
    FieldLike -> ModelMap -> InterfacesMap -> UnionsMap ->
    option PrintOptions -> string;
  renderEnums : GenerateArgs -> string;
  resolverReturnType : string -> string;
  renderTypeResolveTypeResolver : GraphQLUnionObject -> GenerateArgs -> string;
  createInterfacesMap : list GraphQLInterfaceObject -> InterfacesMap;
  createUnionsMap : list GraphQLUnionObject -> UnionsMap;
  groupModelsNameByImportPath : list Model -> Obj (list string);
  (** the text of one pass-through binding of a default-resolver bundle *)
  renderDefaultResolver : GraphQLTypeField -> Model -> string
}.

(** The external formatter: [prettier.format] either returns the formatted
    text or throws; [JSON.stringify] renders what was thrown. *)
Class Prettier := {
  PrettierError : Type;
  prettier_format : string -> Obj string -> string + PrettierError;
  JSON_stringify : PrettierError -> string
}.

(** The contract of [groupModelsNameByImportPath] (spec, section 4.1: a
    deduplicated, one-entry-per-path import list grouped by path): one
    group per import path, holding the names of the models of that path. *)
Definition groups_by_import_path (group : list Model -> Obj (list string))
  : Prop :=
  forall models,
    NoDup (keys (group models)) /\
    forall p n,
      (exists names, In (p, names) (group models) /\ In n names) <->
      (exists m, In m models /\ importPath m = p /\ def_name (definition m) = n).

(** ** Distinct input types (spec, section 4.4) *)

(** The first occurrence of every name, in the order of the list. *)
Fixpoint uniq (l : list string) : list string :=
  match l with
  | [] => []
  | x :: l' => x :: filter (fun y => negb (String.eqb y x)) (uniq l')
  end.

(** Modelled from the spec: [getDistinctInputTypes] of [common] is not
    among the sources.  Section 4.4: for an object type, the names of the
    input types associated with it, "deduplicated, with ordering equal to
    first-seen order across the object type's fields/arguments".  The
    association of a type that has none is [undefined] or, for a type
    named after a member of [Object.prototype], that member: neither is an
    array of names, and going through it throws. *)
Definition getDistinctInputTypes (type : GraphQLTypeObject)
    (typeToInputTypeAssociation : TypeToInputTypeAssociation)
    (inputTypesMap : InputTypesMap) : option (list string) :=
  names <- asObject (read typeToInputTypeAssociation (type_name type)) ;;
  Some (uniq names).

(** ** Default resolvers (spec, section 4.3) *)

(** Modelled from the spec: section 4.3, "emit a default (pass-through)
    resolver binding only if the field has zero arguments and its parent
    model plausibly exposes a same-named property". *)
Definition shouldRenderDefaultResolver (model : Model)
    (field : GraphQLTypeField) : bool :=
  (length (field_arguments field) =? 0)%nat &&
  existsb (String.eqb (field_name field)) (def_properties (definition model)).

(** Modelled from the spec: the fields of an object type that get a
    binding in its default-resolver bundle; a type without a bound model
    has none. *)
Definition defaultResolverFields (type : GraphQLTypeObject)
    (args : GenerateArgs) : list GraphQLTypeField :=
  match get (modelMap args) (type_name type) with
  | None => []
  | Some model => filter (shouldRenderDefaultResolver model) (type_fields type)
  end.

(** Modelled from the spec: [renderDefaultResolvers] of [common] is not
    among the sources.  It emits the bundle of section 4.3 as one exported
    constant of the given name (the object that an implementation spreads
    into its resolvers: [...MutationResolvers.defaultResolvers]), one
    binding per field of [defaultResolverFields].  Whether synthesis is
    enabled is decided by the caller (section 4.5, step 1). *)
Definition renderDefaultResolvers `{Common} (type : GraphQLTypeObject)
    (args : GenerateArgs) (variableName : string) : string :=
  match get (modelMap args) (type_name type) with
  | None => "export const " ++ variableName ++ " = {}"
  | Some model =>
      "export const " ++ variableName ++ " = {" ++ EOL ++
      join EOL (map (fun f => renderDefaultResolver f model)
                    (defaultResolverFields type args)) ++ EOL ++ "}"
  end.

(* ================================================================= *)
(** * The registries built by [generate]

    Both generators build the input-type registry and the association of
    object types with input types with the same code. *)

(** [args.types.filter(type => type.type.isInput).reduce(..., {})] *)
Definition inputTypesMapOf (args : GenerateArgs) : InputTypesMap :=
  fold_left (fun inputTypes type => set inputTypes (type_name type) type)
    (filter (fun type => isInput (type_type type)) (types args)) [].

(** [field.arguments.filter(arg => arg.type.isInput).map(arg => arg.type.name)] *)
Definition inputArgumentTypes (field : GraphQLTypeField) : list string :=
  map (fun arg => td_name (arg_type arg))
    (filter (fun arg => isInput (arg_type arg)) (field_arguments field)).

(** The filter of the association: an object type with at least one field
    that has at least one argument of an input type. *)
Definition hasInputArguments (type : GraphQLTypeObject) : bool :=
  isObject (type_type type) &&
  (0 <? length
     (filter
        (fun field =>
           (0 <? length (filter (fun arg => isInput (arg_type arg))
                                (field_arguments field)))%nat)
        (type_fields type)))%nat.

(** The value stored for a type: [[].concat(...type.fields.map(...))]. *)
Definition associatedInputTypes (type : GraphQLTypeObject) : list string :=
  concat (map inputArgumentTypes (type_fields type)).

Definition typeToInputTypeAssociationOf (args : GenerateArgs)
  : TypeToInputTypeAssociation :=
  fold_left
    (fun types type => set types (type_name type) (associatedInputTypes type))
    (filter hasInputArguments (types args)) [].

(** [args.interfaces.reduce((interfaces, int) =>
      ({ ...interfaces, [int.name]: int.types }), {})] *)
Definition interfacesMapOf (args : GenerateArgs) : InterfacesMap :=
  fold_left (fun interfaces int => set interfaces (int_name int) (int_types int))
    (interfaces args) [].

Definition unionsMapOf (args : GenerateArgs) : UnionsMap :=
  fold_left (fun interfaces int => set interfaces (union_name int) (union_types int))
    (unions args) [].

(** The [args] conditional of a resolver signature:
    [field.arguments.length > 0 ? <bag name> : '{}']. *)
Definition argsTypeOf (field : GraphQLTypeField) (bagName : string) : string :=
  if (0 <? length (field_arguments field))%nat then bagName else "{}".

(* ================================================================= *)
(** * The TypeScript generator *)

Module TypeScript.
Section Generator.
Context `{Common} `{Prettier}.

(** [format] returns its value together with what it wrote to the console. *)
Definition format (code : string) (options : Obj string)
  : string * list string :=
  match prettier_format code (set options "parser" "typescript") with
  | inl formatted => (formatted, [])
  | inr e =>
      (code,
       ["There is a syntax error in generated code, unformatted code printed, error: "
        ++ JSON_stringify e])
  end.

Definition isEnumAlias (model : Model) : bool :=
  String.eqb (def_kind (definition model)) "TypeAliasDefinition" &&
  def_isEnum (definition model).

(** [Object.keys(args.modelMap).filter(...).map(...)]: the model map is
    read at its own keys. *)
Definition modelsToImport (args : GenerateArgs) : option (list Model) :=
  names <- filterM (fun modelName =>
                      model <- get (modelMap args) modelName ;;
                      Some (negb (isEnumAlias model)))
                   (keys (modelMap args)) ;;
  mapM (fun modelName => get (modelMap args) modelName) names.

Definition renderContext (context : option ContextDefinition) : string :=
  match context with
  | Some c =>
      "import { " ++ getContextName context ++ " } from '" ++ contextPath c ++ "'"
  | None => "type " ++ getContextName context ++ " = any"
  end.

(** One import statement; [importPath] is one of
    [Object.keys(modelsByImportPaths)]. *)
Definition renderImport (modelsByImportPaths : Obj (list string))
    (importPath : string) : option string :=
  names <- get modelsByImportPaths importPath ;;
  Some ("import { " ++ join ", " names ++ " } from '" ++ importPath ++ "'").

Definition renderHeader (args : GenerateArgs) : option string :=
  models <- modelsToImport args ;;
  let modelsByImportPaths := groupModelsNameByImportPath models in
  imports <- mapM (renderImport modelsByImportPaths) (keys modelsByImportPaths) ;;
  let modelImports := join EOL imports in
  Some ("
// Code generated by github.com/prisma/graphqlgen, DO NOT EDIT.

import { GraphQLResolveInfo, GraphQLTypeResolver, GraphQLIsTypeOfFn } from 'graphql'
" ++ modelImports ++ "
" ++ renderContext (context args) ++ "
  ").

(** The name of the argument bag of a field, [Args${upperFirst(field.name)}],
    as it is declared and as the resolver signatures refer to it. *)
Definition inputArgName (field : GraphQLTypeField) : string :=
  "Args" ++ upperFirst (field_name field).

Definition renderInputArgInterface (field : GraphQLTypeField)
    (modelMap : ModelMap) (interfacesMap : InterfacesMap)
    (unionsMap : UnionsMap) : string :=
  if (length (field_arguments field) =? 0)%nat then ""
  else "
  export interface " ++ inputArgName field ++ " {
    " ++ join EOL
           (map (fun arg =>
                   arg_name arg ++ ": " ++
                   printFieldLikeType (argLike arg) modelMap interfacesMap
                     unionsMap None)
                (field_arguments field)) ++ "
  }
  ".

Definition renderInputArgInterfaces (type : GraphQLTypeObject)
    (modelMap : ModelMap) (interfacesMap : InterfacesMap)
    (unionsMap : UnionsMap) : string :=
  join EOL
    (map (fun field => renderInputArgInterface field modelMap interfacesMap unionsMap)
         (type_fields type)).

(** One declaration of [renderInputTypeInterfaces]. *)
Definition renderInputTypeInterface (modelMap : ModelMap)
    (interfacesMap : InterfacesMap) (unionsMap : UnionsMap)
    (inputTypesMap : InputTypesMap) (typeAssociation : string)
  : option string :=
  inputType <- asObject (read inputTypesMap typeAssociation) ;;
  Some ("export interface " ++ type_name inputType ++ " {
      " ++ join ","
             (map (fun field =>
                     field_name field ++ ": " ++
                     printFieldLikeType (fieldLike field) modelMap
                       interfacesMap unionsMap None)
                  (type_fields inputType)) ++ "
    }").

Definition renderInputTypeInterfaces (type : GraphQLTypeObject)
    (modelMap : ModelMap) (interfacesMap : InterfacesMap)
    (unionsMap : UnionsMap)
    (typeToInputTypeAssociation : TypeToInputTypeAssociation)
    (inputTypesMap : InputTypesMap) : option string :=
  match read typeToInputTypeAssociation (type_name type) with
  | Undefined => Some ""
  | Own _ | Inherited =>
      distinct <- getDistinctInputTypes type typeToInputTypeAssociation
                    inputTypesMap ;;
      decls <- mapM (renderInputTypeInterface modelMap interfacesMap unionsMap
                       inputTypesMap) distinct ;;
      Some (join EOL decls)
  end.

(** [possibleTypes] of [renderIsTypeOfFunctionInterface]: the implementers
    of the interfaces of the type, replaced by the members of every union
    that the type is a member of, in the order [for..in] visits them.
    What is read for an interface goes to [flatten] as it is; the unions
    are read at the keys [for..in] gives. *)
Definition possibleTypes (type : GraphQLTypeObject)
    (interfacesMap : InterfacesMap) (unionsMap : UnionsMap)
  : option (list GraphQLTypeDefinition) :=
  fromInterfaces <-
    match type_interfaces type with
    | Some interfaces =>
        foldM (fun obj interfaceName =>
                 flatten obj (read interfacesMap interfaceName))
              interfaces []
    | None => Some []
    end ;;
  foldM (fun possible unionName =>
           members <- get unionsMap unionName ;;
           Some (if existsb (fun unionType =>
                               String.eqb (td_name unionType) (type_name type))
                            members
                 then members else possible))
        (keys unionsMap) fromInterfaces.

Definition renderIsTypeOfFunctionInterface (type : GraphQLTypeObject)
    (modelMap : ModelMap) (interfacesMap : InterfacesMap)
    (unionsMap : UnionsMap) (context : option ContextDefinition)
  : option string :=
  possible <- possibleTypes type interfacesMap unionsMap ;;
  if (length possible =? 0)%nat then Some ""
  else
    Some ("    __isTypeOf?: GraphQLIsTypeOfFn<" ++
          join " | "
            (map (fun possibleType => getModelName possibleType modelMap None)
                 possible) ++
          ", " ++ getContextName context ++ ">;").

(** The parameter list shared by the resolver signatures. *)
Definition resolverDefinition (parent : string) (field : GraphQLTypeField)
    (context : option ContextDefinition) : string :=
  "
  (
    parent: " ++ parent ++ ",
    args: " ++ argsTypeOf field (inputArgName field) ++ ",
    ctx: " ++ getContextName context ++ ",
    info: GraphQLResolveInfo,
  )
  ".

Definition renderResolverFunctionInterface (field : GraphQLTypeField)
    (type : GraphQLTypeObject) (modelMap : ModelMap)
    (interfacesMap : InterfacesMap) (unionsMap : UnionsMap)
    (context : option ContextDefinition) : string :=
  let resolverName := upperFirst (field_name field) ++ "Resolver" in
  let resolverDefinition :=
    resolverDefinition (getModelName (type_type type) modelMap (Some "undefined"))
      field context in
  let returnType :=
    printFieldLikeType (fieldLike field) modelMap interfacesMap unionsMap None in
  if String.eqb (type_name type) "Subscription" then
    "
    export type " ++ resolverName ++ " = {
      subscribe: " ++ resolverDefinition ++ " => AsyncIterator<" ++ returnType ++
    "> | Promise<AsyncIterator<" ++ returnType ++ ">>
      resolve?: " ++ resolverDefinition ++ " => " ++ returnType ++
    " | Promise<" ++ returnType ++ ">
    }
    "
  else
    "
  export type " ++ resolverName ++ " = " ++ resolverDefinition ++ " => " ++
    returnType ++ " | Promise<" ++ returnType ++ ">
  ".

Definition renderResolverFunctionInterfaces (type : GraphQLTypeObject)
    (modelMap : ModelMap) (interfacesMap : InterfacesMap)
    (unionsMap : UnionsMap) (context : option ContextDefinition) : string :=
  join EOL
    (map (fun field =>
            renderResolverFunctionInterface field type modelMap interfacesMap
              unionsMap context)
         (type_fields type)).

(** The [parent] of [renderResolverTypeInterfaceFunction]. *)
Definition parentType (type : GraphQLTypeObject) (modelMap : ModelMap)
    (interfacesMap : InterfacesMap) : option string :=
  if isInterface (type_type type) then
    implementingTypes <- asObject (read interfacesMap (type_name type)) ;;
    Some (join " | "
            (map (fun implType => getModelName implType modelMap (Some "undefined"))
                 implementingTypes))
  else Some (getModelName (type_type type) modelMap (Some "undefined")).

Definition renderResolverTypeInterfaceFunction (field : GraphQLTypeField)
    (type : GraphQLTypeObject) (modelMap : ModelMap)
    (interfacesMap : InterfacesMap) (unionsMap : UnionsMap)
    (context : option ContextDefinition) : option string :=
  parent <- parentType type modelMap interfacesMap ;;
  let resolverDefinition := resolverDefinition parent field context in
  let returnType :=
    printFieldLikeType (fieldLike field) modelMap interfacesMap unionsMap None in
  if String.eqb (type_name type) "Subscription" then
    Some ("
    " ++ field_name field ++ ": {
      subscribe: " ++ resolverDefinition ++ " => AsyncIterator<" ++ returnType ++
    "> | Promise<AsyncIterator<" ++ returnType ++ ">>
      resolve?: " ++ resolverDefinition ++ " => " ++ returnType ++
    " | Promise<" ++ returnType ++ ">
    }
    ")
  else
    Some ("
    " ++ field_name field ++ ": " ++ resolverDefinition ++ " => " ++
    returnType ++ " | Promise<" ++ returnType ++ ">
  ").

Definition renderResolverTypeInterface (type : GraphQLTypeObject)
    (modelMap : ModelMap) (interfacesMap : InterfacesMap)
    (unionsMap : UnionsMap) (context : option ContextDefinition)
    (interfaceName : string) : option string :=
  let extend :=
    match type_interfaces type with
    | Some ((_ :: _) as interfaces) =>
        "extends " ++
        join ","
          (map (fun typeInterface => typeInterface ++ "Resolvers.InterfaceType")
               interfaces)
    | _ => ""
    end in
  functions <- mapM (fun field =>
                       renderResolverTypeInterfaceFunction field type modelMap
                         interfacesMap unionsMap context)
                    (type_fields type) ;;
  isTypeOf <- renderIsTypeOfFunctionInterface type modelMap interfacesMap
                unionsMap context ;;
  Some ("
  export interface " ++ interfaceName ++ " " ++ extend ++ " {
    " ++ join EOL functions ++ "
      " ++ isTypeOf ++ "
  }
  ").

Definition renderNamespace (graphQLTypeObject : GraphQLTypeObject)
    (interfacesMap : InterfacesMap) (unionsMap : UnionsMap)
    (typeToInputTypeAssociation : TypeToInputTypeAssociation)
    (inputTypesMap : InputTypesMap) (args : GenerateArgs) : option string :=
  inputTypeInterfaces <-
    renderInputTypeInterfaces graphQLTypeObject (modelMap args) interfacesMap
      unionsMap typeToInputTypeAssociation inputTypesMap ;;
  resolverTypeInterface <-
    renderResolverTypeInterface graphQLTypeObject (modelMap args) interfacesMap
      unionsMap (context args) "Type" ;;
  Some ("    export namespace " ++ type_name graphQLTypeObject ++ "Resolvers {

    " ++ renderDefaultResolvers graphQLTypeObject args "defaultResolvers" ++ "

    " ++ inputTypeInterfaces ++ "

    " ++ renderInputArgInterfaces graphQLTypeObject (modelMap args) interfacesMap
           unionsMap ++ "

    " ++ renderResolverFunctionInterfaces graphQLTypeObject (modelMap args)
           interfacesMap unionsMap (context args) ++ "

    " ++ resolverTypeInterface ++ "

    " ++ "" ++ "
  }
  ").

(** The type argument of [GraphQLTypeResolver]: the models of the listed
    types, joined as a union type. *)
Definition resolveTypeUnion (memberTypes : list GraphQLTypeDefinition)
    (modelMap : ModelMap) : string :=
  join " | "
    (map (fun interfaceType => getModelName interfaceType modelMap None)
         memberTypes).

Definition renderInterfaceNamespace (graphQLTypeObject : GraphQLInterfaceObject)
    (interfacesMap : InterfacesMap) (unionsMap : UnionsMap)
    (args : GenerateArgs) : option string :=
  resolverTypeInterface <-
    renderResolverTypeInterface (interfaceAsType graphQLTypeObject)
      (modelMap args) interfacesMap unionsMap (context args) "InterfaceType" ;;
  Some ("    export namespace " ++ int_name graphQLTypeObject ++ "Resolvers {
      " ++ renderInputArgInterfaces (interfaceAsType graphQLTypeObject)
             (modelMap args) interfacesMap unionsMap ++ "

      " ++ resolverTypeInterface ++ "

      export interface Type {
        __resolveType: GraphQLTypeResolver<" ++
        resolveTypeUnion (int_types graphQLTypeObject) (modelMap args) ++
        ", " ++ getContextName (context args) ++ ">;
      }
    }
  ").

Definition renderUnionNamespace (graphQLTypeObject : GraphQLUnionObject)
    (args : GenerateArgs) : string :=
  "    export namespace " ++ union_name graphQLTypeObject ++ "Resolvers {
      export interface Type {
        __resolveType?: GraphQLTypeResolver<" ++
        resolveTypeUnion (union_types graphQLTypeObject) (modelMap args) ++
        ", " ++ getContextName (context args) ++ ">;
      }
    }
  ".

Definition renderObjectNamespaces (args : GenerateArgs)
    (interfacesMap : InterfacesMap) (unionsMap : UnionsMap)
    (typeToInputTypeAssociation : TypeToInputTypeAssociation)
    (inputTypesMap : InputTypesMap) : option string :=
  namespaces <-
    mapM (fun type =>
            renderNamespace type interfacesMap unionsMap
              typeToInputTypeAssociation inputTypesMap args)
         (filter (fun type => isObject (type_type type)) (types args)) ;;
  Some (join EOL namespaces).

Definition renderInterfaceNamespaces (args : GenerateArgs)
    (interfacesMap : InterfacesMap) (unionsMap : UnionsMap) : option string :=
  namespaces <-
    mapM (fun type => renderInterfaceNamespace type interfacesMap unionsMap args)
         (interfaces args) ;;
  Some (join EOL namespaces).

Definition renderUnionNamespaces (args : GenerateArgs) : string :=
  join EOL (map (fun type => renderUnionNamespace type args) (unions args)).

Definition renderNamespaces (args : GenerateArgs)
    (interfacesMap : InterfacesMap) (unionsMap : UnionsMap)
    (typeToInputTypeAssociation : TypeToInputTypeAssociation)
    (inputTypesMap : InputTypesMap) : option string :=
  objectNamespaces <-
    renderObjectNamespaces args interfacesMap unionsMap
      typeToInputTypeAssociation inputTypesMap ;;
  interfaceNamespaces <- renderInterfaceNamespaces args interfacesMap unionsMap ;;
  Some ("    " ++ objectNamespaces ++ "

    " ++ interfaceNamespaces ++ "

    " ++ renderUnionNamespaces args ++ "
  ").

(** The entries of the aggregate resolver map, before they are joined. *)
Definition resolversEntries (args : GenerateArgs) : list string :=
  List.app
    (map (fun type => type_name type ++ ": " ++ type_name type ++ "Resolvers.Type")
         (filter (fun obj => isObject (type_type obj)) (types args)))
    (List.app
       (map (fun type => int_name type ++ "?: " ++ int_name type ++ "Resolvers.Type")
            (interfaces args))
       (map (fun type =>
               union_name type ++ "?: " ++ union_name type ++ "Resolvers.Type")
            (unions args))).

Definition renderResolvers (args : GenerateArgs) : string :=
  "export interface Resolvers {
  " ++ join EOL (resolversEntries args) ++ "
}
  ".

Definition generate (args : GenerateArgs) : option string :=
  let inputTypesMap := inputTypesMapOf args in
  let typeToInputTypeAssociation := typeToInputTypeAssociationOf args in
  let interfacesMap := interfacesMapOf args in
  let unionsMap := unionsMapOf args in
  header <- renderHeader args ;;
  namespaces <-
    renderNamespaces args interfacesMap unionsMap typeToInputTypeAssociation
      inputTypesMap ;;
  Some ("  " ++ header ++ "
  
  " ++ renderEnums args ++ "

  " ++ namespaces ++ "

  " ++ renderResolvers args ++ "

  ").

End Generator.
End TypeScript.

(* ================================================================= *)
(** * The Flow generator *)

(** [s.replace(pattern, replacement)] with a string pattern: the first
    occurrence only.  (The replacements used here are built from GraphQL
    names and contain no [$] pattern.) *)
Fixpoint replace (pattern replacement s : string) : string :=
  if String.prefix pattern s then
    replacement ++
    String.substring (String.length pattern)
      (String.length s - String.length pattern) s
  else
    match s with
    | EmptyString => EmptyString
    | String c s' => String c (replace pattern replacement s')
    end.

Module Flow.
Section Generator.
Context `{Common} `{Prettier}.

Definition format (code : string) (options : Obj string)
  : string * list string :=
  match prettier_format code (set options "parser" "flow") with
  | inl formatted => (formatted, [])
  | inr e =>
      (code,
       ["There is a syntax error in generated code, unformatted code printed, error: "
        ++ JSON_stringify e])
  end.

Definition getInputArgName (type : GraphQLTypeObject)
    (field : GraphQLTypeField) : string :=
  upperFirst (type_name type) ++ "_Args_" ++ upperFirst (field_name field).

Definition getArgTypePrefix (type : GraphQLTypeObject)
    (fieldArg : GraphQLTypeArgument) : string :=
  if isScalar (arg_type fieldArg) || isObject (arg_type fieldArg)
     || isEnum (arg_type fieldArg)
  then ""
  else upperFirst (type_name type) ++ "_".

Definition renderContext (context : option ContextDefinition) : string :=
  match context with
  | Some c =>
      "import type  { " ++ getContextName context ++ " } from '" ++
      contextPath c ++ "'"
  | None => "type " ++ getContextName context ++ " = any"
  end.

(** One import statement; [importPath] is one of
    [Object.keys(modelsByImportPaths)]. *)
Definition renderImport (modelsByImportPaths : Obj (list string))
    (importPath : string) : option string :=
  names <- get modelsByImportPaths importPath ;;
  Some ("import type { " ++ join "," names ++ " } from '" ++ importPath ++ "'").

(** [Object.keys(args.modelMap).map(k => args.modelMap[k])] reads the
    model map at its own keys. *)
Definition renderHeader (args : GenerateArgs) : option string :=
  modelsToImport <- mapM (fun k => get (modelMap args) k) (keys (modelMap args)) ;;
  let modelsByImportPaths := groupModelsNameByImportPath modelsToImport in
  imports <- mapM (renderImport modelsByImportPaths) (keys modelsByImportPaths) ;;
  let modelImports := join EOL imports in
  let graphQLImports := ["GraphQLResolveInfo"] in
  Some ("/* @flow */
// Code generated by github.com/prisma/graphqlgen, DO NOT EDIT.

import type { " ++ join ", " graphQLImports ++ " } from 'graphql'
" ++ modelImports ++ "
" ++ renderContext (context args) ++ "
  ").

(** The name under which an input type is declared for an owning type:
    [${upperFirst(type.name)}_${upperFirst(inputTypesMap[typeAssociation].name)}]. *)
Definition inputTypeInterfaceName (type inputType : GraphQLTypeObject) : string :=
  upperFirst (type_name type) ++ "_" ++ upperFirst (type_name inputType).

(** One declaration of [renderInputTypeInterfaces]. *)
Definition renderInputTypeInterface (type : GraphQLTypeObject)
    (modelMap : ModelMap) (interfacesMap : InterfacesMap)
    (unionsMap : UnionsMap) (inputTypesMap : InputTypesMap)
    (typeAssociation : string) : option string :=
  inputType <- asObject (read inputTypesMap typeAssociation) ;;
  Some ("export interface " ++ inputTypeInterfaceName type inputType ++ " {
      " ++ join ","
             (map (fun field =>
                     printFieldLikeType (fieldLike field) modelMap
                       interfacesMap unionsMap None)
                  (type_fields inputType)) ++ "
    }").

Definition renderInputTypeInterfaces (type : GraphQLTypeObject)
    (modelMap : ModelMap) (interfacesMap : InterfacesMap)
    (unionsMap : UnionsMap)
    (typeToInputTypeAssociation : TypeToInputTypeAssociation)
    (inputTypesMap : InputTypesMap) : option string :=
  match read typeToInputTypeAssociation (type_name type) with
  | Undefined => Some ""
  | Own _ | Inherited =>
      distinct <- getDistinctInputTypes type typeToInputTypeAssociation
                    inputTypesMap ;;
      decls <- mapM (renderInputTypeInterface type modelMap interfacesMap
                       unionsMap inputTypesMap) distinct ;;
      Some (join EOL decls)
  end.

Definition renderInputArgInterface (type : GraphQLTypeObject)
    (field : GraphQLTypeField) (modelMap : ModelMap)
    (interfacesMap : InterfacesMap) (unionsMap : UnionsMap) : string :=
  if (length (field_arguments field) =? 0)%nat then ""
  else "
  export interface " ++ getInputArgName type field ++ " {
    " ++ join ("," ++ EOL)
           (map (fun arg =>
                   replace ": " (": " ++ getArgTypePrefix type arg)
                     (printFieldLikeType (argLike arg) modelMap interfacesMap
                        unionsMap None))
                (field_arguments field)) ++ "
  }
  ".

Definition renderInputArgInterfaces (type : GraphQLTypeObject)
    (modelMap : ModelMap) (interfacesMap : InterfacesMap)
    (unionsMap : UnionsMap) : string :=
  join EOL
    (map (fun field =>
            renderInputArgInterface type field modelMap interfacesMap unionsMap)
         (type_fields type)).

Definition renderResolverFunctionInterface (field : GraphQLTypeField)
    (type : GraphQLTypeObject) (modelMap : ModelMap)
    (interfacesMap : InterfacesMap) (unionsMap : UnionsMap)
    (context : option ContextDefinition) : string :=
  let resolverName :=
    upperFirst (type_name type) ++ "_" ++ upperFirst (field_name field) ++
    "_Resolver" in
  let resolverDefinition := "
  (
    parent: " ++ getModelName (type_type type) modelMap None ++ ",
    args: " ++ argsTypeOf field (getInputArgName type field) ++ ",
    ctx: " ++ getContextName context ++ ",
    info: GraphQLResolveInfo,
  )
  " in
  let returnType :=
    printFieldLikeType (fieldLike field) modelMap interfacesMap unionsMap
      (Some {| isReturn := true |}) in
  if String.eqb (type_name type) "Subscription" then
    "
    export type " ++ resolverName ++ " = {|
      subscribe: " ++ resolverDefinition ++ " => AsyncIterator<" ++ returnType ++
    "> | Promise<AsyncIterator<" ++ returnType ++ ">>,
      resolve?: " ++ resolverDefinition ++ " => " ++ resolverReturnType returnType ++ "
    |}
    "
  else
    "
  export type " ++ resolverName ++ " = " ++ resolverDefinition ++ " => " ++
    resolverReturnType returnType ++ "
  ".

Definition renderResolverFunctionInterfaces (type : GraphQLTypeObject)
    (modelMap : ModelMap) (interfacesMap : InterfacesMap)
    (unionsMap : UnionsMap) (context : option ContextDefinition) : string :=
  join EOL
    (map (fun field =>
            renderResolverFunctionInterface field type modelMap interfacesMap
              unionsMap context)
         (type_fields type)).

Definition renderResolverTypeInterfaceFunction (field : GraphQLTypeField)
    (type : GraphQLTypeObject) (modelMap : ModelMap)
    (interfacesMap : InterfacesMap) (unionsMap : UnionsMap)
    (context : option ContextDefinition) : string :=
  let resolverDefinition := "
  (
    parent: " ++ getModelName (type_type type) modelMap None ++ ",
    args: " ++ argsTypeOf field (getInputArgName type field) ++ ",
    ctx: " ++ getContextName context ++ ",
    info: GraphQLResolveInfo,
  )" in
  let returnType :=
    printFieldLikeType (fieldLike field) modelMap interfacesMap unionsMap
      (Some {| isReturn := true |}) in
  if String.eqb (type_name type) "Subscription" then
    "
    " ++ field_name field ++ ": {|
      subscribe: " ++ resolverDefinition ++ " => AsyncIterator<" ++ returnType ++
    "> | Promise<AsyncIterator<" ++ returnType ++ ">>,
      resolve?: " ++ resolverDefinition ++ " => " ++ resolverReturnType returnType ++ "
    |}
    "
  else
    "
  " ++ field_name field ++ ": " ++ resolverDefinition ++ " => " ++
    resolverReturnType returnType ++ ",
  ".

Definition renderResolverTypeInterface (type : GraphQLTypeObject)
    (modelMap : ModelMap) (interfacesMap : InterfacesMap)
    (unionsMap : UnionsMap) (context : option ContextDefinition) : string :=
  "
  export interface " ++ upperFirst (type_name type) ++ "_Resolvers {
    " ++ join EOL
           (map (fun field =>
                   renderResolverTypeInterfaceFunction field type modelMap
                     interfacesMap unionsMap context)
                (type_fields type)) ++ "
  }
  ".

Definition renderNamespace (type : GraphQLTypeObject)
    (interfacesMap : InterfacesMap) (unionsMap : UnionsMap)
    (typeToInputTypeAssociation : TypeToInputTypeAssociation)
    (inputTypesMap : InputTypesMap) (args : GenerateArgs) : option string :=
  let typeName := upperFirst (type_name type) in
  inputTypeInterfaces <-
    renderInputTypeInterfaces type (modelMap args) interfacesMap unionsMap
      typeToInputTypeAssociation inputTypesMap ;;
  Some ("    // Types for " ++ typeName ++ "
    " ++ (if defaultResolversEnabled args
          then renderDefaultResolvers type args (typeName ++ "_defaultResolvers")
          else "") ++ "

    " ++ inputTypeInterfaces ++ "

    " ++ renderInputArgInterfaces type (modelMap args) interfacesMap unionsMap ++ "

    " ++ renderResolverFunctionInterfaces type (modelMap args) interfacesMap
           unionsMap (context args) ++ "

    " ++ renderResolverTypeInterface type (modelMap args) interfacesMap
           unionsMap (context args) ++ "

    " ++ "" ++ "
  ").

Definition renderUnionNamespace (graphQLTypeObject : GraphQLUnionObject)
    (args : GenerateArgs) : string :=
  "    export interface " ++ union_name graphQLTypeObject ++ "_Resolvers {
      __resolveType?: " ++ renderTypeResolveTypeResolver graphQLTypeObject args ++ "
    }
  ".

Definition renderUnionNamespaces (args : GenerateArgs) : string :=
  join EOL (map (fun type => renderUnionNamespace type args) (unions args)).

Definition renderNamespaces (args : GenerateArgs)
    (interfacesMap : InterfacesMap) (unionsMap : UnionsMap)
    (typeToInputTypeAssociation : TypeToInputTypeAssociation)
    (inputTypesMap : InputTypesMap) : option string :=
  namespaces <-
    mapM (fun type =>
            renderNamespace type interfacesMap unionsMap
              typeToInputTypeAssociation inputTypesMap args)
         (filter (fun type => isObject (type_type type)) (types args)) ;;
  let objectNamespaces := join EOL namespaces in
  Some ("    " ++ objectNamespaces ++ "

    " ++ renderUnionNamespaces args ++ "
  ").

(** The entries of the aggregate resolver map, before they are joined. *)
Definition resolversEntries (args : GenerateArgs) : list string :=
  List.app
    (map (fun type =>
            type_name type ++ ": " ++ upperFirst (type_name type) ++ "_Resolvers")
         (filter (fun type => isObject (type_type type)) (types args)))
    (List.app
       (map (fun type =>
               int_name type ++ "?: " ++ upperFirst (int_name type) ++ "_Resolvers")
            (interfaces args))
       (map (fun type =>
               union_name type ++ "?: " ++ upperFirst (union_name type) ++
               "_Resolvers")
            (unions args))).

Definition renderResolvers (args : GenerateArgs) : string :=
  "
export interface Resolvers {
  " ++ join ("," ++ EOL) (resolversEntries args) ++ "
}
  ".

Definition generate (args : GenerateArgs) : option string :=
  let inputTypesMap := inputTypesMapOf args in
  let typeToInputTypeAssociation := typeToInputTypeAssociationOf args in
  let interfacesMap := createInterfacesMap (interfaces args) in
  let unionsMap := createUnionsMap (unions args) in
  header <- renderHeader args ;;
  namespaces <-
    renderNamespaces args interfacesMap unionsMap typeToInputTypeAssociation
      inputTypesMap ;;
  Some ("  " ++ header ++ "

  " ++ renderEnums args ++ "

  " ++ namespaces ++ "

  " ++ renderResolvers args ++ "

  ").

End Generator.
End Flow.

(* ================================================================= *)
(** * A concrete set of collaborators

    One implementation of the interface [Common] and of the formatter, on
    which the generators can be run on concrete schemas. *)

Module Sample.

(** Grouping of model names by import path, in order of first occurrence,
    each name once per path. *)
Definition groupStep (acc : Obj (list string)) (model : Model)
  : Obj (list string) :=
  let fileModels :=
    match get acc (importPath model) with
    | Some names => names
    | None => []
    end in
  set acc (importPath model)
    (if existsb (String.eqb (def_name (definition model))) fileModels
     then fileModels
     else (fileModels ++ [def_name (definition model)])%list).

Definition groupModels (models : list Model) : Obj (list string) :=
  fold_left groupStep models [].

(** Modelled from the spec: [getModelName] of [common] is not among the
    sources.  Section 4.1, [resolve(typeRef, modelMap, fallbackWhenUnbound)]:
    the bound target name where the model map has an entry, the fallback
    it is given where it has none; the default of the fallback, for a call
    that passes none, is the empty-object type. *)
Definition modelName (type : GraphQLTypeDefinition) (modelMap : ModelMap)
    (emptyType : option string) : string :=
  if isEnum type then td_name type
  else
    match get modelMap (td_name type) with
    | Some model => def_name (definition model)
    | None =>
        match emptyType with
        | Some e => e
        | None => "{}"
        end
    end.

Definition printType (f : FieldLike) : string :=
  let base := td_name (fl_type f) in
  let item := if isArray (fl_type f) then base ++ "[]" else base in
  if isRequired (fl_type f) then item else item ++ " | null".

#[export] Instance common : Common := {|
  getContextName := fun context =>
    match context with
    | Some c => contextName c
    | None => "Context"
    end;
  getModelName := modelName;
  printFieldLikeType := fun f _ _ _ _ => printType f;
  renderEnums := fun _ => "";
  resolverReturnType := fun r => r ++ " | Promise<" ++ r ++ ">";
  renderTypeResolveTypeResolver := fun u args =>
    "(value: " ++
    join " | " (map (fun t => modelName t (modelMap args) None) (union_types u)) ++
    ") => string";
  createInterfacesMap := fun interfaces =>
    fold_left (fun m i => set m (int_name i) (int_types i)) interfaces [];
  createUnionsMap := fun unions =>
    fold_left (fun m u => set m (union_name u) (union_types u)) unions [];
  groupModelsNameByImportPath := groupModels;
  renderDefaultResolver := fun f model =>
    field_name f ++ ": (parent: " ++ def_name (definition model) ++
    ") => parent." ++ field_name f ++ ","
|}.

(** A formatter that rejects the text [{] and leaves every other text as
    it is. *)
#[export] Instance prettier : Prettier := {|
  PrettierError := string;
  prettier_format := fun code _ =>
    if String.eqb code "{" then inr "SyntaxError" else inl code;
  JSON_stringify := fun e => "{}"
|}.

(** Schema fragments for the examples. *)
Definition named (name : string) : GraphQLTypeDefinition :=
  {| td_name := name; isScalar := false; isEnum := false; isUnion := false;
     isInput := false; isObject := false; isInterface := false;
     isRequired := false; isArray := false; isArrayRequired := false |}.

Definition scalarType (name : string) : GraphQLTypeDefinition :=
  {| td_name := name; isScalar := true; isEnum := false; isUnion := false;
     isInput := false; isObject := false; isInterface := false;
     isRequired := false; isArray := false; isArrayRequired := false |}.

Definition objectType (name : string) : GraphQLTypeDefinition :=
  {| td_name := name; isScalar := false; isEnum := false; isUnion := false;
     isInput := false; isObject := true; isInterface := false;
     isRequired := false; isArray := false; isArrayRequired := false |}.

Definition inputType (name : string) : GraphQLTypeDefinition :=
  {| td_name := name; isScalar := false; isEnum := false; isUnion := false;
     isInput := true; isObject := false; isInterface := false;
     isRequired := false; isArray := false; isArrayRequired := false |}.

Definition interfaceType (name : string) : GraphQLTypeDefinition :=
  {| td_name := name; isScalar := false; isEnum := false; isUnion := false;
     isInput := false; isObject := false; isInterface := true;
     isRequired := false; isArray := false; isArrayRequired := false |}.

Definition field (name : string) (type : GraphQLTypeDefinition)
    (arguments : list GraphQLTypeArgument) : GraphQLTypeField :=
  {| field_name := name; field_type := type; field_arguments := arguments |}.

Definition argument (name : string) (type : GraphQLTypeDefinition)
  : GraphQLTypeArgument :=
  {| arg_name := name; arg_type := type |}.

Definition object (name : string) (fields : list GraphQLTypeField)
  : GraphQLTypeObject :=
  {| type_name := name; type_type := objectType name; type_fields := fields;
     type_interfaces := None |}.

Definition input (name : string) (fields : list GraphQLTypeField)
  : GraphQLTypeObject :=
  {| type_name := name; type_type := inputType name; type_fields := fields;
     type_interfaces := None |}.

End Sample.

(* ================================================================= *)
(** * Vocabulary of the properties *)

(** [contains sub s]: the text [sub] occurs in [s]. *)
Definition contains (sub s : string) : Prop :=
  exists pre post, s = pre ++ sub ++ post.

(** A search for the text [sub] in [s], position by position. *)
Fixpoint includesText (sub s : string) : bool :=
  if String.prefix sub s then true
  else match s with
       | EmptyString => false
       | String _ s' => includesText sub s'
       end.

(** An input type is reachable from an object type when it is the type
    of an argument of one of its fields. *)
Definition reachableInputType (type : GraphQLTypeObject) (n : string) : Prop :=
  exists field arg,
    In field (type_fields type) /\ In arg (field_arguments field) /\
    isInput (arg_type arg) = true /\ td_name (arg_type arg) = n.


(** One interface declaration of the generated text: its name and its
    members, separated by commas. *)
Definition interfaceDeclaration (name : string) (members : list string)
  : string :=
  "export interface " ++ name ++ " {
      " ++ join "," members ++ "
    }".

(** The declaration of an input type in the block of an object type: in
    the TypeScript dialect under the name of the input type, each member
    a field name and its printed type. *)
Definition tsInputTypeDeclaration `{Common} (mm : ModelMap)
    (im : InterfacesMap) (um : UnionsMap) (inputType : GraphQLTypeObject)
  : string :=
  interfaceDeclaration (type_name inputType)
    (map (fun field =>
            field_name field ++ ": " ++
            printFieldLikeType (fieldLike field) mm im um None)
         (type_fields inputType)).

(** In the Flow dialect under the capitalised names of the owner and of
    the input type, each member what the type printer gives for the
    field. *)
Definition flowInputTypeDeclaration `{Common} (owner : GraphQLTypeObject)
    (mm : ModelMap) (im : InterfacesMap) (um : UnionsMap)
    (inputType : GraphQLTypeObject) : string :=
  interfaceDeclaration
    (upperFirst (type_name owner) ++ "_" ++ upperFirst (type_name inputType))
    (map (fun field => printFieldLikeType (fieldLike field) mm im um None)
         (type_fields inputType)).

(* ================================================================= *)
(** * Example schemas *)

Module Examples.
Import Sample.

(** [type Query { users(where: UserFilter, order: Order, also: UserFilter),
                  posts(order: Order, where: PostFilter, first: Int),
                  version }] *)
Definition users : GraphQLTypeField :=
  field "users" (objectType "User")
    [ argument "where" (inputType "UserFilter");
      argument "order" (inputType "Order");
      argument "also" (inputType "UserFilter") ].

Definition posts : GraphQLTypeField :=
  field "posts" (objectType "Post")
    [ argument "order" (inputType "Order");
      argument "where" (inputType "PostFilter");
      argument "first" (scalarType "Int") ].

Definition version : GraphQLTypeField := field "version" (scalarType "String") [].

Definition query : GraphQLTypeObject := object "Query" [ users; posts; version ].

(** [type Mutation { createUser(data: UserFilter), deleteUser(id: ID) }] *)
Definition createUser : GraphQLTypeField :=
  field "createUser" (objectType "User")
    [ argument "data" (inputType "UserFilter") ].

Definition deleteUser : GraphQLTypeField :=
  field "deleteUser" (objectType "User") [ argument "id" (scalarType "ID") ].

Definition mutation : GraphQLTypeObject :=
  object "Mutation" [ createUser; deleteUser ].

(** [type User { id: ID, name: String }] *)
Definition user : GraphQLTypeObject :=
  object "User" [ field "id" (scalarType "ID") [];
                  field "name" (scalarType "String") [] ].

Definition schemaTypes : list GraphQLTypeObject :=
  [ query; mutation; user;
    object "Post" [ field "id" (scalarType "ID") [] ];
    input "UserFilter" [ field "name" (scalarType "String") [] ];
    input "Order" [ field "by" (scalarType "String") [] ];
    input "PostFilter" [ field "title" (scalarType "String") [] ] ].

Definition userModel : Model :=
  {| definition := {| def_name := "UserModel"; def_kind := "InterfaceDefinition";
                      def_isEnum := false; def_properties := ["id"; "name"] |};
     importPath := "./models" |}.

Definition postModel : Model :=
  {| definition := {| def_name := "PostModel"; def_kind := "InterfaceDefinition";
                      def_isEnum := false; def_properties := ["id"] |};
     importPath := "./models" |}.

Definition roleModel : Model :=
  {| definition := {| def_name := "Role"; def_kind := "TypeAliasDefinition";
                      def_isEnum := true; def_properties := [] |};
     importPath := "./enums" |}.

Definition models : ModelMap :=
  [ ("User", userModel); ("Post", postModel); ("Role", roleModel) ].

Definition schema (enabled : bool) : GenerateArgs :=
  {| types := schemaTypes; interfaces := []; unions := [];
     modelMap := models; context := None;
     defaultResolversEnabled := enabled |}.

End Examples.

Module Collision.
Import Sample.

(** Two object types whose names differ in the case of the first letter,
    both taking the input type [Filter] as an argument. *)
Definition lowerUser : GraphQLTypeObject :=
  object "user"
    [ field "find" (objectType "user") [ argument "where" (inputType "Filter") ] ].

Definition upperUser : GraphQLTypeObject :=
  object "User"
    [ field "search" (objectType "User") [ argument "by" (inputType "Filter") ] ].

Definition schema : GenerateArgs :=
  {| types := [ lowerUser; upperUser;
                input "Filter" [ field "name" (scalarType "String") [] ] ];
     interfaces := []; unions := []; modelMap := []; context := None;
     defaultResolversEnabled := false |}.

End Collision.

(* ================================================================= *)
(** * Resolver shapes *)

(** The two-function shape of a subscription field in the TypeScript
    dialect: a required [subscribe] function that produces an async
    iterator (or a promise of one) and an optional [resolve] function. *)
Definition tsSubscriptionResolver (signature returnType : string) : string :=
  "{
      subscribe: " ++ signature ++ " => AsyncIterator<" ++ returnType ++
  "> | Promise<AsyncIterator<" ++ returnType ++ ">>
      resolve?: " ++ signature ++ " => " ++ returnType ++ " | Promise<" ++
  returnType ++ ">
    }".

(** The single-function shape in the TypeScript dialect. *)
Definition tsFunctionResolver (signature returnType : string) : string :=
  signature ++ " => " ++ returnType ++ " | Promise<" ++ returnType ++ ">".

(** The two shapes in the Flow dialect; [resolved] is the return type of
    a request/response function. *)
Definition flowSubscriptionResolver (signature returnType resolved : string)
  : string :=
  "{|
      subscribe: " ++ signature ++ " => AsyncIterator<" ++ returnType ++
  "> | Promise<AsyncIterator<" ++ returnType ++ ">>,
      resolve?: " ++ signature ++ " => " ++ resolved ++ "
    |}".

Definition flowFunctionResolver (signature resolved : string) : string :=
  signature ++ " => " ++ resolved.

(** The parameter lists of the Flow dialect (they differ in the white
    space after the closing parenthesis). *)
Definition flowSignature `{Common} (type : GraphQLTypeObject)
    (field : GraphQLTypeField) (modelMap : ModelMap)
    (context : option ContextDefinition) (trailing : string) : string :=
  "
  (
    parent: " ++ getModelName (type_type type) modelMap None ++ ",
    args: " ++ argsTypeOf field (Flow.getInputArgName type field) ++ ",
    ctx: " ++ getContextName context ++ ",
    info: GraphQLResolveInfo,
  )" ++ trailing.

(* ================================================================= *)
(** * Names *)

(** [occurs c s]: the character [c] occurs in [s]. *)
Fixpoint occurs (c : ascii) (s : string) : bool :=
  match s with
  | EmptyString => false
  | String x s' => Ascii.eqb x c || occurs c s'
  end.

Module CaseVariants.
Import Sample.

(** [type Query { user(id: ID): User, User(id: ID): User }]: two fields
    of one type whose names differ in the case of the first letter. *)
Definition lowerField : GraphQLTypeField :=
  field "user" (objectType "User") [ argument "id" (scalarType "ID") ].

Definition upperField : GraphQLTypeField :=
  field "User" (objectType "User") [ argument "id" (scalarType "ID") ].

Definition query : GraphQLTypeObject := object "Query" [ lowerField; upperField ].

End CaseVariants.

Module BagNames.
Import Sample.

(** [type Query_Args_A { b(id: ID): User }] and
    [type Query { a_Args_B(id: ID): User }]: the names of the types differ
    after capitalisation, and so do the names of the fields. *)
Definition leftField : GraphQLTypeField :=
  field "b" (objectType "User") [ argument "id" (scalarType "ID") ].

Definition leftOwner : GraphQLTypeObject := object "Query_Args_A" [ leftField ].

Definition rightField : GraphQLTypeField :=
  field "a_Args_B" (objectType "User") [ argument "id" (scalarType "ID") ].

Definition rightOwner : GraphQLTypeObject := object "Query" [ rightField ].

(** [type Query { user(where: Args_User, also: ArgsUser): User }], with
    the input types [Args_User] and [ArgsUser]. *)
Definition user : GraphQLTypeField :=
  field "user" (objectType "User")
    [ argument "where" (inputType "Args_User");
      argument "also" (inputType "ArgsUser") ].

Definition query : GraphQLTypeObject := object "Query" [ user ].

Definition schema : GenerateArgs :=
  {| types := [ query;
                input "Args_User" [ field "name" (scalarType "String") [] ];
                input "ArgsUser" [ field "name" (scalarType "String") [] ] ];
     interfaces := []; unions := []; modelMap := []; context := None;
     defaultResolversEnabled := false |}.

End BagNames.

(* ================================================================= *)
(** * The aggregate resolver map *)

(** An entry of the aggregate declaration: a type name, whether the
    entry may be left out, and the resolver-shape declaration it maps to. *)
Record ResolverMapEntry := {
  entry_name : string;
  entry_optional : bool;
  entry_shape : string
}.

Definition printEntry (e : ResolverMapEntry) : string :=
  entry_name e ++ (if entry_optional e then "?" else "") ++ ": " ++ entry_shape e.

(** One required entry per object type, then one optional entry per
    interface, then one optional entry per union; [shapeOf] names the
    resolver-shape declaration of a type in the dialect. *)
Definition resolverMap (shapeOf : string -> string) (args : GenerateArgs)
  : list ResolverMapEntry :=
  List.app
    (map (fun t => {| entry_name := type_name t; entry_optional := false;
                      entry_shape := shapeOf (type_name t) |})
         (filter (fun t => isObject (type_type t)) (types args)))
    (List.app
       (map (fun i => {| entry_name := int_name i; entry_optional := true;
                         entry_shape := shapeOf (int_name i) |})
            (interfaces args))
       (map (fun u => {| entry_name := union_name u; entry_optional := true;
                         entry_shape := shapeOf (union_name u) |})
            (unions args))).

Definition tsShapeOf (name : string) : string := name ++ "Resolvers.Type".
Definition flowShapeOf (name : string) : string := upperFirst name ++ "_Resolvers".

(* ================================================================= *)
(** * Interfaces and unions *)

(** [members] lists the type, by name. *)
Definition memberOf (type : GraphQLTypeObject)
    (members : list GraphQLTypeDefinition) : bool :=
  existsb (fun t => String.eqb (td_name t) (type_name type)) members.

Definition implementsSomeInterface (type : GraphQLTypeObject) : Prop :=
  exists i rest, type_interfaces type = Some (i :: rest).

Definition memberOfSomeUnion (type : GraphQLTypeObject) (unionsMap : UnionsMap)
  : Prop :=
  exists u members, In (u, members) unionsMap /\ memberOf type members = true.

(** The step of the loop over the unions: the members of a union that
    lists the type replace what was gathered so far. *)
Definition overrideWith (type : GraphQLTypeObject)
    (possible members : list GraphQLTypeDefinition) : list GraphQLTypeDefinition :=
  if memberOf type members then members else possible.

(** The last union, in the order of iteration, that lists the type. *)
Definition lastUnionOf (type : GraphQLTypeObject) (unionsMap : UnionsMap)
    (members : list GraphQLTypeDefinition) : Prop :=
  exists before u after,
    unionsMap = (before ++ (u, members) :: after)%list /\
    memberOf type members = true /\
    forall u' members', In (u', members') after -> memberOf type members' = false.

(** The optional discriminator binding over a list of possible types. *)
Definition isTypeOfBinding `{Common} (possible : list GraphQLTypeDefinition)
    (modelMap : ModelMap) (context : option ContextDefinition) : string :=
  "    __isTypeOf?: GraphQLIsTypeOfFn<" ++
  join " | " (map (fun t => getModelName t modelMap None) possible) ++
  ", " ++ getContextName context ++ ">;".

(** The models of a list of types, joined as a union type; [emptyType]
    is what [getModelName] is told to use for a type without a model. *)
Definition unionOfModels `{Common} (members : list GraphQLTypeDefinition)
    (modelMap : ModelMap) (emptyType : option string) : string :=
  join " | " (map (fun t => getModelName t modelMap emptyType) members).

Module Shapes.
Import Sample.

(** [interface Node], implemented by [User] and [Post]; [union
    SearchResult = Post | Comment]; [union Feed = User | Post]. *)
Definition node : GraphQLInterfaceObject :=
  {| int_name := "Node"; int_type := interfaceType "Node";
     int_fields := [ field "id" (scalarType "ID") [] ];
     int_types := [ objectType "User"; objectType "Post" ] |}.

Definition searchResult : GraphQLUnionObject :=
  {| union_name := "SearchResult"; union_type := named "SearchResult";
     union_types := [ objectType "Post"; objectType "Comment" ] |}.

Definition feed : GraphQLUnionObject :=
  {| union_name := "Feed"; union_type := named "Feed";
     union_types := [ objectType "User"; objectType "Post" ] |}.

Definition user : GraphQLTypeObject :=
  {| type_name := "User"; type_type := objectType "User";
     type_fields := [ field "id" (scalarType "ID") [] ];
     type_interfaces := Some [ "Node" ] |}.

Definition post : GraphQLTypeObject :=
  {| type_name := "Post"; type_type := objectType "Post";
     type_fields := [ field "id" (scalarType "ID") [] ];
     type_interfaces := Some [ "Node" ] |}.

Definition comment : GraphQLTypeObject :=
  {| type_name := "Comment"; type_type := objectType "Comment";
     type_fields := [ field "text" (scalarType "String") [] ];
     type_interfaces := Some [] |}.

Definition schema : GenerateArgs :=
  {| types := [ user; post; comment ];
     interfaces := [ node ]; unions := [ searchResult; feed ];
     modelMap := Examples.models; context := None;
     defaultResolversEnabled := true |}.

End Shapes.

Module Unbound.
Import Sample.

(** [interface Node], implemented by [User], which is bound to a model,
    and by [Draft], which is bound to none. *)
Definition node : GraphQLInterfaceObject :=
  {| int_name := "Node"; int_type := interfaceType "Node";
     int_fields := [ field "id" (scalarType "ID") [] ];
     int_types := [ objectType "User"; objectType "Draft" ] |}.

Definition schema : GenerateArgs :=
  {| types := []; interfaces := [ node ]; unions := [];
     modelMap := Examples.models; context := None;
     defaultResolversEnabled := false |}.

End Unbound.

(* ================================================================= *)
(** * The formatter and the header *)

(** The diagnostic that [format] writes when the formatter throws. *)
Definition formatDiagnostic `{Prettier} (e : PrettierError) : string :=
  "There is a syntax error in generated code, unformatted code printed, error: "
  ++ JSON_stringify e.

(** The import statement of one group of models of the TypeScript header. *)
Definition tsImport (group : string * list string) : string :=
  "import { " ++ join ", " (snd group) ++ " } from '" ++ fst group ++ "'".

(** [args] with the flag of default-resolver synthesis set to [enabled]. *)
Definition withDefaultResolvers (args : GenerateArgs) (enabled : bool)
  : GenerateArgs :=
  {| types := types args; interfaces := interfaces args; unions := unions args;
     modelMap := modelMap args; context := context args;
     defaultResolversEnabled := enabled |}.

(* ================================================================= *)
(** * Duplicated names *)

Module Duplicates.
Import Sample.

(** A schema that defines the input type [Filter] twice, with different
    fields. *)
Definition firstFilter : GraphQLTypeObject :=
  input "Filter" [ field "name" (scalarType "String") [] ].

Definition secondFilter : GraphQLTypeObject :=
  input "Filter" [ field "title" (scalarType "String") [] ].

Definition schema : GenerateArgs :=
  {| types := [ firstFilter; Examples.user; secondFilter ];
     interfaces := []; unions := []; modelMap := []; context := None;
     defaultResolversEnabled := false |}.

End Duplicates.

Module Implementers.
Import Sample.

(** [interface Node] and [interface Entity], both implemented by [User];
    [type User implements Node & Entity], a member of no union. *)
Definition node : GraphQLInterfaceObject :=
  {| int_name := "Node"; int_type := interfaceType "Node";
     int_fields := [ field "id" (scalarType "ID") [] ];
     int_types := [ objectType "User"; objectType "Post" ] |}.

Definition entity : GraphQLInterfaceObject :=
  {| int_name := "Entity"; int_type := interfaceType "Entity";
     int_fields := [ field "id" (scalarType "ID") [] ];
     int_types := [ objectType "User" ] |}.

Definition user : GraphQLTypeObject :=
  {| type_name := "User"; type_type := objectType "User";
     type_fields := [ field "id" (scalarType "ID") [] ];
     type_interfaces := Some [ "Node"; "Entity" ] |}.

Definition schema : GenerateArgs :=
  {| types := [ user ]; interfaces := [ node; entity ]; unions := [];
     modelMap := Examples.models; context := None;
     defaultResolversEnabled := false |}.

End Implementers.

(** The import statement of one group of models of the Flow header. *)
Definition flowImport (group : string * list string) : string :=
  "import type { " ++ join "," (snd group) ++ " } from '" ++ fst group ++ "'".

(* ================================================================= *)
(** * The benchmark collector (integration benchmarks) *)

(** [Options] and [CodeGenConfigOptions]. *)
Record Options := {
  language : string;
  rootPath : string
}.

(** [ConfigTypes.GraphQLGenDefinition], as the collector fills it;
    [config_models] is the [files] of its [models]. *)
Record GraphQLGenDefinition := {
  config_language : string;
  config_schema : string;
  config_output : string;
  config_models : list string
}.

(** The file system and the helpers of [utils], [parse] and [validation]
    that the collector calls.  [Parse.parseSchema], [Parse.parseModels]
    and [Validation.validateConfig] read files and can throw ([None]); they
    share the singleton data of the [Parse] module ([ParseState]), which
    [validateConfig] is called to initialise. *)
Class BenchmarkHost := {
  Schema : Type;
  ParsedModels : Type;
  ParseState : Type;
  dirname : string;
  Glob_sync : string -> list string;
  Path_join : string -> string -> string;
  Path_basename : string -> string;
  Util_isFile : string -> bool;
  Util_getExt : string -> string;
  Util_languageExtensions : list string;
  Util_getLangFromExt : string -> string;
  Parse_parseSchema : string -> ParseState -> option (Schema * ParseState);
  Validation_validateConfig :
    GraphQLGenDefinition -> Schema -> ParseState -> option (bool * ParseState);
  (** [parseModels(models, schema, outputDir, language)] *)
  Parse_parseModels :
    list string -> Schema -> string -> string -> ParseState ->
    option (ParsedModels * ParseState)
}.

Module Benchmarks.
Section Collector.
Context `{BenchmarkHost}.

(** A double quote. *)
Definition quote : string := String (ascii_of_nat 34) EmptyString.

Record GenerateCodeArgs := {
  code_language : string;
  code_schema : Schema;
  code_config : GraphQLGenDefinition;
  code_modelMap : ParsedModels
}.

(** A benchmark: its name and the configuration that its function hands to
    [generateCode]. *)
Record Bench := {
  bench_name : string;
  bench_config : GenerateCodeArgs
}.

(** What a run of the collector ends with: the value it returns, the
    code it exits the process with, or an exception of a helper. *)
Inductive Outcome (A : Type) : Type :=
| Returned (value : A)
| Exited (code : nat)
| Thrown.
Arguments Returned {A} value.
Arguments Exited {A} code.
Arguments Thrown {A}.

(** [validateFixtures]: the messages of the errors, or [None] for [null]. *)
Definition validateFixtures (scenarioFolder : string) : option (list string) :=
  let name := Path_basename scenarioFolder in
  let files := map Path_basename (Glob_sync (Path_join scenarioFolder "./*")) in
  let errors : list string := [] in
  let errors :=
    if negb (existsb (String.eqb "schema.graphql") files)
    then List.app errors
           ["benchmark " ++ quote ++ name ++ quote ++ " missing file schema.graphql"]
    else errors in
  let errors :=
    if negb (existsb (String.eqb "models.ts") files)
    then List.app errors
           ["benchmark " ++ quote ++ name ++ quote ++ " missing file models.ts"]
    else errors in
  if (0 <? length errors)%nat then Some errors else None.

Definition createCodeGenConfig (config : Options) (state : ParseState)
  : option (GenerateCodeArgs * ParseState) :=
  let sdlFilePath := Path_join (rootPath config) "schema.graphql" in
  match Parse_parseSchema sdlFilePath state with
  | None => None
  | Some (schema, state) =>
      let models := [ Path_join (rootPath config) "./models.ts" ] in
      let graphqlGenConfig :=
        {| config_language := language config;
           config_schema := sdlFilePath;
           config_output := Path_join (rootPath config) "./";
           config_models := models |} in
      match Validation_validateConfig graphqlGenConfig schema state with
      | None => None
      | Some (_, state) =>
          match Parse_parseModels models schema
                  (Path_join (rootPath config) "./")
                  (config_language graphqlGenConfig) state with
          | None => None
          | Some (modelMap, state) =>
              Some ({| code_language := config_language graphqlGenConfig;
                       code_schema := schema;
                       code_config := graphqlGenConfig;
                       code_modelMap := modelMap |}, state)
          end
      end
  end.

Definition createBenchmark (config : Options) (state : ParseState)
  : option (Bench * ParseState) :=
  match createCodeGenConfig
          {| language := language config; rootPath := rootPath config |}
          state with
  | None => None
  | Some (codeGenConfig, state) =>
      Some ({| bench_name :=
                 "generateCode (" ++ Path_basename (rootPath config) ++
                 " schema, " ++ language config ++ ")";
               bench_config := codeGenConfig |}, state)
  end.

(** The inner loop of [collect], over the model files of one scenario. *)
Fixpoint collectModels (path : string) (modelPaths : list string)
    (benchmarks : list Bench) (state : ParseState)
  : option (list Bench * ParseState) :=
  match modelPaths with
  | [] => Some (benchmarks, state)
  | modelPath :: rest =>
      let ext := Util_getExt modelPath in
      if negb (existsb (String.eqb ext) Util_languageExtensions)
      then collectModels path rest benchmarks state
      else
        match createBenchmark {| language := Util_getLangFromExt ext;
                                 rootPath := path |} state with
        | None => None
        | Some (benchmark, state) =>
            collectModels path rest (List.app benchmarks [benchmark]) state
        end
  end.

(** The outer loop of [collect]: the outcome, and what was written to the
    console.  The loop over the errors of a scenario writes the first
    message and exits the process. *)
Fixpoint collectPaths (paths : list string) (benchmarks : list Bench)
    (state : ParseState) : Outcome (list Bench) * list string :=
  match paths with
  | [] => (Returned benchmarks, [])
  | path :: rest =>
      if Util_isFile path then collectPaths rest benchmarks state
      else
        match validateFixtures path with
        | Some (error :: _) => (Exited 1, [error])
        | _ =>
            let modelPaths := Glob_sync (Path_join path "./models.*") in
            match collectModels path modelPaths benchmarks state with
            | None => (Thrown, [])
            | Some (benchmarks, state) => collectPaths rest benchmarks state
            end
        end
  end.

(** [collect], run with the data of the [Parse] module in [state]. *)
Definition collect (state : ParseState) : Outcome (list Bench) * list string :=
  let paths := Glob_sync (Path_join dirname "./*") in
  collectPaths paths [] state.

(** The base names of the files of a scenario folder. *)
Definition scenarioFiles (scenarioFolder : string) : list string :=
  map Path_basename (Glob_sync (Path_join scenarioFolder "./*")).

(** The runs of one scenario: its path with the language of every model
    file that has the extension of a supported language, in the order of
    the files. *)
Definition runsOf (path : string) : list Options :=
  map (fun modelPath =>
         {| language := Util_getLangFromExt (Util_getExt modelPath);
            rootPath := path |})
      (filter (fun modelPath =>
                 existsb (String.eqb (Util_getExt modelPath))
                   Util_languageExtensions)
              (Glob_sync (Path_join path "./models.*"))).

(** The runs of a list of paths: none for a file. *)
Definition runsOfPaths (paths : list string) : list Options :=
  flat_map (fun p => if Util_isFile p then [] else runsOf p) paths.

(** The benchmark of a run: named after the scenario and the language,
    and configured for the schema and the models of the scenario. *)
Definition benchmarkOf (run : Options) (b : Bench) : Prop :=
  bench_name b =
    "generateCode (" ++ Path_basename (rootPath run) ++ " schema, " ++
    language run ++ ")" /\
  code_language (bench_config b) = language run /\
  code_config (bench_config b) =
    {| config_language := language run;
       config_schema := Path_join (rootPath run) "schema.graphql";
       config_output := Path_join (rootPath run) "./";
       config_models := [ Path_join (rootPath run) "./models.ts" ] |}.

(** The helpers return on a run, whatever the data of the [Parse] module. *)
Definition configurable (run : Options) : Prop :=
  forall state, createCodeGenConfig run state <> None.

(** A path that the collector passes: a file, or a scenario whose
    fixtures validate. *)
Definition passes (path : string) : Prop :=
  Util_isFile path = true \/ validateFixtures path = None.

(** The message about a file that a scenario misses. *)
Definition missingFile (scenarioFolder file : string) : string :=
  "benchmark " ++ quote ++ Path_basename scenarioFolder ++ quote ++
  " missing file " ++ file.

End Collector.

Arguments Returned {A} value.
Arguments Exited {A} code.
Arguments Thrown {A}.

End Benchmarks.

Module SampleBenchmarks.

(** A benchmark directory whose entries are [top]: among them a file
    [index.ts], a complete scenario [blog] with models for two languages
    and a stray file, and a scenario [empty] without files.  The files of
    [blog] parse when [parses] is set; the data of the [Parse] module
    counts the calls of [validateConfig]. *)
Definition hostOf (top : list string) (parses : bool) : BenchmarkHost := {|
  Schema := string;
  ParsedModels := list string;
  ParseState := nat;
  dirname := "/bench";
  Glob_sync := fun pattern =>
    if String.eqb pattern "/bench/./*"
    then top
    else if String.eqb pattern "/bench/blog/./*"
    then [ "/bench/blog/schema.graphql"; "/bench/blog/models.ts";
           "/bench/blog/models.flow.js"; "/bench/blog/models.txt" ]
    else if String.eqb pattern "/bench/blog/./models.*"
    then [ "/bench/blog/models.ts"; "/bench/blog/models.txt";
           "/bench/blog/models.flow.js" ]
    else [];
  Path_join := fun a b => a ++ "/" ++ b;
  Path_basename := fun path =>
    if String.eqb path "/bench/blog" then "blog"
    else if String.eqb path "/bench/empty" then "empty"
    else if String.eqb path "/bench/blog/schema.graphql" then "schema.graphql"
    else if String.eqb path "/bench/blog/models.ts" then "models.ts"
    else if String.eqb path "/bench/blog/models.flow.js" then "models.flow.js"
    else if String.eqb path "/bench/blog/models.txt" then "models.txt"
    else path;
  Util_isFile := fun path => String.eqb path "/bench/index.ts";
  Util_getExt := fun path =>
    if String.eqb path "/bench/blog/models.ts" then "ts"
    else if String.eqb path "/bench/blog/models.flow.js" then "flow.js"
    else "txt";
  Util_languageExtensions := [ "ts"; "flow.js" ];
  Util_getLangFromExt := fun ext =>
    if String.eqb ext "ts" then "typescript" else "flow";
  Parse_parseSchema := fun path state =>
    if parses && String.eqb path "/bench/blog/schema.graphql"
    then Some (path, state) else None;
  Validation_validateConfig := fun _ _ state => Some (true, S state);
  Parse_parseModels := fun files _ _ _ state =>
    match state with
    | O => None
    | S _ => Some (files, state)
    end
|}.

Definition hostWith (top : list string) : BenchmarkHost := hostOf top true.

(** The directory with a schema of [blog] that does not parse. *)
Definition brokenHost : BenchmarkHost :=
  hostOf [ "/bench/index.ts"; "/bench/blog"; "/bench/empty" ] false.

Definition host : BenchmarkHost :=
  hostWith [ "/bench/index.ts"; "/bench/blog"; "/bench/empty" ].

(** The same directory without the scenario [empty]. *)
Definition completeHost : BenchmarkHost :=
  hostWith [ "/bench/index.ts"; "/bench/blog" ].

End SampleBenchmarks.

(* ================================================================= *)
(** * Facts about strings *)

Section StringFacts.

Lemma append_assoc (a b c : string) : (a ++ b) ++ c = a ++ (b ++ c).
Proof. induction a as [| x a IH]; simpl; [reflexivity | now rewrite IH]. Qed.

Lemma append_nil_r (a : string) : a ++ "" = a.
Proof. induction a as [| x a IH]; simpl; [reflexivity | now rewrite IH]. Qed.

Lemma length_append (a b : string) :
  String.length (a ++ b) = String.length a + String.length b.
Proof. induction a as [| x a IH]; simpl; [reflexivity | now rewrite IH]. Qed.

Lemma append_inv_head (a b c : string) : a ++ b = a ++ c -> b = c.
Proof.
  induction a as [| x a IH]; simpl; intros E; [assumption |].
  injection E as E. auto.
Qed.

(** Two decompositions with prefixes of the same length agree. *)
Lemma append_same_length (a b c d : string) :
  String.length a = String.length c -> a ++ b = c ++ d -> a = c /\ b = d.
Proof.
  revert c. induction a as [| x a IH]; intros [| y c] L E; simpl in *;
    try discriminate.
  - split; [reflexivity | assumption].
  - injection L as L. injection E as -> E.
    destruct (IH c L E) as [-> ->]. split; reflexivity.
Qed.

Lemma append_inv_tail (a b c : string) : a ++ c = b ++ c -> a = b.
Proof.
  intros E.
  assert (L : String.length a = String.length b).
  { apply (f_equal String.length) in E. rewrite !length_append in E. lia. }
  exact (proj1 (append_same_length a c b c L E)).
Qed.

Lemma append_not_empty (a b : string) : a <> "" -> a ++ b <> "".
Proof. destruct a; simpl; congruence. Qed.

End StringFacts.

(** Both sides of an equation between texts, brought to one shape:
    appends nested to the right, literals pushed character by character. *)
Ltac string_norm :=
  repeat (progress (rewrite ?append_assoc; simpl)).

Ltac string_eq := string_norm; reflexivity.

Section Containment.

Lemma contains_refl (s : string) : contains s s.
Proof. exists "", "". simpl. now rewrite append_nil_r. Qed.

Lemma contains_append_r (sub a b : string) : contains sub b -> contains sub (a ++ b).
Proof.
  intros (pre & post & ->). exists (a ++ pre), post.
  now rewrite append_assoc.
Qed.

Lemma contains_append_l (sub a b : string) : contains sub a -> contains sub (a ++ b).
Proof.
  intros (pre & post & ->). exists pre, (post ++ b).
  now rewrite !append_assoc.
Qed.

Lemma contains_trans (a b c : string) :
  contains a b -> contains b c -> contains a c.
Proof.
  intros (p1 & q1 & ->) (p2 & q2 & ->).
  exists (p2 ++ p1), (q1 ++ q2). now rewrite !append_assoc.
Qed.

Lemma contains_join (sep d : string) (l : list string) :
  In d l -> contains d (join sep l).
Proof.
  induction l as [| x l IH]; intros HIn; [destruct HIn |].
  unfold join in *. simpl. destruct l as [| y l].
  - destruct HIn as [-> | []]. apply contains_refl.
  - destruct HIn as [-> | HIn].
    + apply contains_append_l, contains_refl.
    + apply contains_append_r, contains_append_r, IH, HIn.
Qed.

Lemma substring_all (s : string) : String.substring 0 (String.length s) s = s.
Proof. induction s as [| c s IH]; simpl; [reflexivity | now rewrite IH]. Qed.

(** A text that starts with the pattern is the pattern followed by what
    [replace] keeps. *)
Lemma prefix_split (p s : string) :
  String.prefix p s = true ->
  s = p ++ String.substring (String.length p)
             (String.length s - String.length p) s.
Proof.
  revert s. induction p as [| a p IH]; intros s Hp; simpl.
  - rewrite Nat.sub_0_r. symmetry. apply substring_all.
  - destruct s as [| b s]; simpl in *; [discriminate |].
    destruct (ascii_dec a b) as [-> | _]; [| discriminate].
    f_equal. now apply IH.
Qed.

(** The search for a text finds only what is there. *)
Lemma includesText_contains (sub s : string) :
  includesText sub s = true -> contains sub s.
Proof.
  induction s as [| c s IH]; cbn [includesText].
  - destruct (String.prefix sub "") eqn:Hp; [| discriminate].
    intros _. exists "", (String.substring (String.length sub)
                            (String.length "" - String.length sub) "").
    exact (prefix_split sub "" Hp).
  - destruct (String.prefix sub (String c s)) eqn:Hp.
    + intros _. exists "", (String.substring (String.length sub)
                              (String.length (String c s) - String.length sub)
                              (String c s)).
      exact (prefix_split sub (String c s) Hp).
    + intros Hs. destruct (IH Hs) as (pre & post & ->).
      now exists (String c pre), post.
Qed.

End Containment.

(* ================================================================= *)
(** * Facts about objects and exceptions *)

Section ObjectFacts.
Context {V : Type}.
Implicit Types (o : Obj V) (k : string) (v : V).

Lemma get_In o k v : get o k = Some v -> In (k, v) o.
Proof.
  induction o as [| [k' v'] o IH]; simpl; [discriminate |].
  destruct (String.eqb_spec k' k) as [-> | _]; intros E.
  - injection E as ->. now left.
  - right. auto.
Qed.

Lemma get_None o k : get o k = None <-> ~ In k (keys o).
Proof.
  induction o as [| [k' v'] o IH]; simpl.
  - split; [intros _ [] | reflexivity].
  - destruct (String.eqb_spec k' k) as [-> | N].
    + split; [discriminate | intros C; exfalso; apply C; now left].
    + rewrite IH. split; [intros C [E | I]; [congruence | auto] | auto].
Qed.

(** A read of an own property gives the property, whatever the prototype
    holds under that name. *)
Lemma read_own o k v : get o k = Some v -> read o k = Own v.
Proof. unfold read. now intros ->. Qed.

Lemma read_absent o k :
  get o k = None ->
  read o k = if existsb (String.eqb k) prototypeKeys then Inherited else Undefined.
Proof. unfold read. now intros ->. Qed.

Lemma asObject_read o k : asObject (read o k) = get o k.
Proof.
  unfold read. destruct (get o k); [reflexivity |].
  now destruct (existsb (String.eqb k) prototypeKeys).
Qed.

Lemma In_prototypeKeys (k : string) :
  existsb (String.eqb k) prototypeKeys = true <-> In k prototypeKeys.
Proof.
  rewrite existsb_exists. split.
  - intros (x & Hx & E). apply String.eqb_eq in E. now subst.
  - intros Hk. exists k. split; [assumption | apply String.eqb_refl].
Qed.

Lemma In_prototypeKeys_false (k : string) :
  ~ In k prototypeKeys -> existsb (String.eqb k) prototypeKeys = false.
Proof.
  intros N. destruct (existsb (String.eqb k) prototypeKeys) eqn:E;
    [| reflexivity].
  apply In_prototypeKeys in E. contradiction.
Qed.

(** A read is [undefined] exactly for a name that is neither an own key
    nor a member of [Object.prototype]. *)
Lemma read_Undefined o k :
  read o k = Undefined <-> ~ In k (keys o) /\ ~ In k prototypeKeys.
Proof.
  unfold read. rewrite <- get_None, <- In_prototypeKeys.
  destruct (get o k); [split; [discriminate | intros [C _]; discriminate] |].
  destruct (existsb (String.eqb k) prototypeKeys);
    split; try discriminate; intuition congruence.
Qed.

Lemma In_get o k v : NoDup (keys o) -> In (k, v) o -> get o k = Some v.
Proof.
  induction o as [| [k' v'] o IH]; simpl; intros ND HIn; [destruct HIn |].
  inversion ND as [| ? ? NI ND']; subst.
  destruct HIn as [E | HIn].
  - injection E as -> ->. now rewrite String.eqb_refl.
  - destruct (String.eqb_spec k' k) as [-> | _]; [| auto].
    exfalso. apply NI. change k with (fst (k, v)). now apply in_map.
Qed.

Lemma get_set_same o k v : get (set o k v) k = Some v.
Proof.
  induction o as [| [k' v'] o IH]; simpl.
  - now rewrite String.eqb_refl.
  - destruct (String.eqb_spec k' k) as [-> | N]; simpl.
    + now rewrite String.eqb_refl.
    + destruct (String.eqb_spec k' k); [congruence | assumption].
Qed.

Lemma get_set_other o k v k' : k' <> k -> get (set o k v) k' = get o k'.
Proof.
  intros N. induction o as [| [k0 v0] o IH]; simpl.
  - destruct (String.eqb_spec k k'); [congruence | reflexivity].
  - destruct (String.eqb_spec k0 k) as [-> | N0]; simpl.
    + destruct (String.eqb_spec k k'); [congruence | reflexivity].
    + now rewrite IH.
Qed.

Lemma In_keys_set o k v k' : In k' (keys (set o k v)) <-> k' = k \/ In k' (keys o).
Proof.
  induction o as [| [k0 v0] o IH]; simpl.
  - intuition.
  - destruct (String.eqb_spec k0 k) as [-> | N0]; simpl.
    + intuition.
    + rewrite IH. intuition.
Qed.

Lemma NoDup_keys_set o k v : NoDup (keys o) -> NoDup (keys (set o k v)).
Proof.
  induction o as [| [k0 v0] o IH]; simpl; intros ND.
  - constructor; [intros [] | constructor].
  - inversion ND as [| ? ? NI ND']; subst.
    destruct (String.eqb_spec k0 k) as [-> | N0]; simpl.
    + now constructor.
    + constructor; [| auto].
      rewrite In_keys_set. intros [E | I]; [congruence | auto].
Qed.

(** Reading the own keys of an object never fails. *)
Lemma mapM_get_keys o :
  NoDup (keys o) -> mapM (fun k => get o k) (keys o) = Some (map snd o).
Proof.
  intros ND.
  assert (G : forall l, incl l o ->
              mapM (fun k => get o k) (keys l) = Some (map snd l)).
  { induction l as [| [k v] l IH]; intros Hincl; simpl; [reflexivity |].
    rewrite (In_get o k v ND) by (apply Hincl; now left). simpl.
    rewrite IH by (intros x Hx; apply Hincl; now right). reflexivity. }
  apply G, incl_refl.
Qed.

End ObjectFacts.

Section MapM.
Context {A B : Type}.

Lemma mapM_Some (f : A -> option B) (g : A -> B) (l : list A) :
  (forall a, In a l -> f a = Some (g a)) -> mapM f l = Some (map g l).
Proof.
  induction l as [| a l IH]; intros Hf; simpl; [reflexivity |].
  rewrite (Hf a) by now left. simpl.
  rewrite IH by (intros; apply Hf; now right). reflexivity.
Qed.

Lemma mapM_Forall2 (f : A -> option B) (l : list A) (r : list B) :
  mapM f l = Some r <-> Forall2 (fun a b => f a = Some b) l r.
Proof.
  revert r. induction l as [| a l IH]; intros r; simpl.
  - split; [intros E; injection E as <-; constructor |
            intros F; inversion F; reflexivity].
  - split.
    + destruct (f a) as [b |] eqn:Ea; simpl; [| discriminate].
      destruct (mapM f l) as [bs |] eqn:El; simpl; [| discriminate].
      intros E. injection E as <-. constructor; [assumption | now apply IH].
    + intros F. inversion F as [| ? b ? bs Ea Fl]; subst.
      rewrite Ea. simpl. apply IH in Fl. rewrite Fl. reflexivity.
Qed.

Lemma mapM_total (f : A -> option B) (l : list A) :
  (forall a, In a l -> exists b, f a = Some b) -> exists r, mapM f l = Some r.
Proof.
  induction l as [| a l IH]; intros Hf; simpl; [now exists [] |].
  destruct (Hf a) as [b Eb]; [now left |]. rewrite Eb. simpl.
  destruct IH as [r Er]; [intros; apply Hf; now right |].
  rewrite Er. simpl. now exists (b :: r).
Qed.

End MapM.

(** Closed goals about concrete lists of names. *)
Ltac distinct_names :=
  repeat (constructor; [simpl; intuition discriminate |]); constructor.

Lemma contains_String (sub s : string) (c : ascii) :
  contains sub s -> contains sub (String c s).
Proof.
  intros (pre & post & ->). now exists (String c pre), post.
Qed.

(** Find a part of a text that is a concatenation. *)
Ltac find_part H :=
  repeat first
    [ exact H
    | apply contains_append_l; exact H
    | apply contains_String
    | apply contains_append_r ].

Lemma Forall2_In_l {A B} (P : A -> B -> Prop) (l : list A) (r : list B) (a : A) :
  Forall2 P l r -> In a l -> exists b, In b r /\ P a b.
Proof.
  induction 1 as [| x y l r Pxy _ IH]; intros HIn; [destruct HIn |].
  destruct HIn as [-> | HIn].
  - exists y. split; [now left | assumption].
  - destruct (IH HIn) as (b & Hb & Pb). exists b. split; [now right | assumption].
Qed.

Lemma Forall2_map_r {A B} (P : A -> B -> Prop) (g : A -> B) (l : list A) :
  (forall a, In a l -> P a (g a)) -> Forall2 P l (map g l).
Proof.
  induction l as [| a l IH]; intros HP; simpl; constructor.
  - apply HP. now left.
  - apply IH. intros; apply HP. now right.
Qed.

(* ================================================================= *)
(** * Facts about the registries *)

Section Uniq.

Lemma In_filter_neq (x y : string) (l : list string) :
  In y (filter (fun z => negb (String.eqb z x)) l) <-> y <> x /\ In y l.
Proof.
  rewrite filter_In. destruct (String.eqb_spec y x); simpl; intuition congruence.
Qed.

Lemma In_uniq (x : string) (l : list string) : In x (uniq l) <-> In x l.
Proof.
  induction l as [| a l IH]; simpl; [reflexivity |].
  rewrite In_filter_neq, IH.
  destruct (String.eqb_spec a x); intuition congruence.
Qed.





End Uniq.

Section Registries.
Context {X V : Type} (key : X -> string) (val : X -> V).

Let build (l : list X) (init : Obj V) : Obj V :=
  fold_left (fun acc x => set acc (key x) (val x)) l init.

Lemma build_get_other (l : list X) (init : Obj V) (k : string) :
  ~ In k (map key l) -> get (build l init) k = get init k.
Proof.
  revert init. induction l as [| a l IH]; intros init NI; simpl in *;
    [reflexivity |].
  unfold build in *. simpl. rewrite IH by tauto.
  apply get_set_other. intros E. apply NI. now left.
Qed.

Lemma build_get (l : list X) (init : Obj V) (x : X) :
  NoDup (map key l) -> In x l -> get (build l init) (key x) = Some (val x).
Proof.
  revert init. induction l as [| a l IH]; intros init ND HIn; [destruct HIn |].
  simpl in ND. inversion ND as [| ? ? NI ND']; subst.
  unfold build in *. simpl. destruct HIn as [-> | HIn].
  - fold (build l (set init (key x) (val x))).
    rewrite build_get_other by assumption. apply get_set_same.
  - now apply IH.
Qed.

Lemma build_range (l : list X) (init : Obj V) (k : string) (v : V) :
  get (build l init) k = Some v ->
  (exists x, In x l /\ key x = k /\ val x = v) \/ get init k = Some v.
Proof.
  revert init. induction l as [| a l IH]; intros init E; [now right |].
  unfold build in *. simpl in E. apply IH in E as [(x & Hx & Ek & Ev) | E].
  - left. exists x. split; [now right | tauto].
  - destruct (String.eqb_spec k (key a)) as [-> | N].
    + rewrite get_set_same in E. injection E as <-.
      left. exists a. split; [now left | tauto].
    + rewrite get_set_other in E by assumption. now right.
Qed.

Lemma build_NoDup (l : list X) (init : Obj V) :
  NoDup (keys init) -> NoDup (keys (build l init)).
Proof.
  revert init. induction l as [| a l IH]; intros init ND; [assumption |].
  unfold build in *. simpl. apply IH. now apply NoDup_keys_set.
Qed.

End Registries.

Section Association.

(** Leaving types out of a schema keeps its type names unique. *)
Lemma unique_names_filter (keep : GraphQLTypeObject -> bool)
    (ts : list GraphQLTypeObject) :
  NoDup (map type_name ts) -> NoDup (map type_name (filter keep ts)).
Proof.
  induction ts as [| t ts IH]; simpl; intros ND; [constructor |].
  inversion ND as [| ? ? NI ND']; subst.
  destruct (keep t); simpl; [| auto]. constructor; [| auto].
  intros HIn. apply NI. apply in_map_iff in HIn as (x & Ex & Hx).
  apply filter_In in Hx as [Hx _]. apply in_map_iff. now exists x.
Qed.

Lemma NoDup_map_eq {A B} (f : A -> B) (l : list A) (x y : A) :
  NoDup (map f l) -> In x l -> In y l -> f x = f y -> x = y.
Proof.
  induction l as [| a l IH]; simpl; intros ND Hx Hy E; [destruct Hx |].
  inversion ND as [| ? ? NI ND']; subst.
  destruct Hx as [-> | Hx], Hy as [-> | Hy]; auto.
  - exfalso. apply NI. rewrite E. now apply in_map.
  - exfalso. apply NI. rewrite <- E. now apply in_map.
Qed.

Lemma In_associatedInputTypes (type : GraphQLTypeObject) (n : string) :
  In n (associatedInputTypes type) <-> reachableInputType type n.
Proof.
  unfold associatedInputTypes, reachableInputType, inputArgumentTypes.
  rewrite in_concat. split.
  - intros (l & Hl & Hn). apply in_map_iff in Hl as (f & <- & Hf).
    apply in_map_iff in Hn as (a & <- & Ha). apply filter_In in Ha as [Ha Hi].
    now exists f, a.
  - intros (f & a & Hf & Ha & Hi & <-).
    eexists. split; [apply in_map_iff; exists f; split; [reflexivity | exact Hf] |].
    apply in_map_iff. exists a. split; [reflexivity |].
    apply filter_In. now split.
Qed.

(** A type that the association leaves out reaches no input type. *)
Lemma no_input_arguments (type : GraphQLTypeObject) :
  isObject (type_type type) = true -> hasInputArguments type = false ->
  associatedInputTypes type = [].
Proof.
  unfold hasInputArguments. intros -> Hno. simpl in Hno.
  apply Nat.ltb_ge in Hno. apply Nat.le_0_r, length_zero_iff_nil in Hno.
  destruct (associatedInputTypes type) as [| n l] eqn:E; [reflexivity |].
  assert (Hn : In n (associatedInputTypes type)) by (rewrite E; now left).
  apply In_associatedInputTypes in Hn as (f & a & Hf & Ha & Hi & _).
  assert (Hin : In f (filter
            (fun field =>
               (0 <? length (filter (fun arg => isInput (arg_type arg))
                                    (field_arguments field)))%nat)
            (type_fields type))).
  { apply filter_In. split; [assumption |]. apply Nat.ltb_lt.
    assert (Ha' : In a (filter (fun arg => isInput (arg_type arg))
                               (field_arguments f)))
      by (apply filter_In; now split).
    destruct (filter _ (field_arguments f)); [destruct Ha' | simpl; lia]. }
  rewrite Hno in Hin. destruct Hin.
Qed.

(** With unique type names, the association of a type is its own list of
    input-argument types, whatever else the schema holds. *)
Lemma association_lookup (args : GenerateArgs) (type : GraphQLTypeObject) :
  NoDup (map type_name (types args)) -> In type (types args) ->
  get (typeToInputTypeAssociationOf args) (type_name type) =
  if hasInputArguments type then Some (associatedInputTypes type) else None.
Proof.
  intros ND HIn. unfold typeToInputTypeAssociationOf.
  destruct (hasInputArguments type) eqn:Hh.
  - apply (build_get type_name associatedInputTypes).
    + now apply unique_names_filter.
    + apply filter_In. now split.
  - rewrite (build_get_other type_name associatedInputTypes); [reflexivity |].
    intros HIn'. apply in_map_iff in HIn' as (x & Ex & Hx).
    apply filter_In in Hx as [Hx Hhx].
    rewrite (NoDup_map_eq type_name _ x type ND Hx HIn Ex) in Hhx. congruence.
Qed.


(** What the guard of [renderInputTypeInterfaces] reads for a type of the
    schema: its list of input-argument types when it has one, and
    otherwise [undefined], unless the type is named after a member of
    [Object.prototype]. *)
Lemma association_read (args : GenerateArgs) (type : GraphQLTypeObject) :
  NoDup (map type_name (types args)) -> In type (types args) ->
  read (typeToInputTypeAssociationOf args) (type_name type) =
  if hasInputArguments type then Own (associatedInputTypes type)
  else if existsb (String.eqb (type_name type)) prototypeKeys
       then Inherited else Undefined.
Proof.
  intros ND HIn. unfold read. rewrite (association_lookup args type ND HIn).
  now destruct (hasInputArguments type).
Qed.

(** The registry files an input type under its own name. *)
Lemma registry_name (args : GenerateArgs) (n : string) (it : GraphQLTypeObject) :
  get (inputTypesMapOf args) n = Some it -> type_name it = n.
Proof.
  unfold inputTypesMapOf. intros E.
  apply (build_range type_name (fun t => t)) in E
    as [(x & _ & Ek & Ev) | E]; [congruence | discriminate].
Qed.



(** The filter of the association keeps the object types that reach an
    input type. *)
Lemma has_input_arguments (type : GraphQLTypeObject) :
  hasInputArguments type = true <->
  isObject (type_type type) = true /\ exists n, reachableInputType type n.
Proof.
  split.
  - intros Hh. assert (Ho : isObject (type_type type) = true).
    { unfold hasInputArguments in Hh. now apply andb_true_iff in Hh as [Ho _]. }
    split; [assumption |].
    destruct (associatedInputTypes type) as [| n l] eqn:E.
    + unfold hasInputArguments in Hh. rewrite Ho in Hh. simpl in Hh.
      apply Nat.ltb_lt in Hh.
      destruct (filter _ (type_fields type)) as [| f fs] eqn:Ef;
        [simpl in Hh; lia |].
      assert (Hf : In f (f :: fs)) by now left.
      rewrite <- Ef in Hf. apply filter_In in Hf as [Hf Hargs].
      apply Nat.ltb_lt in Hargs.
      destruct (filter (fun arg => isInput (arg_type arg)) (field_arguments f))
        as [| a rest] eqn:Ea; [simpl in Hargs; lia |].
      assert (Ha : In a (a :: rest)) by now left.
      rewrite <- Ea in Ha. apply filter_In in Ha as [Ha Hia].
      exists (td_name (arg_type a)). now exists f, a.
    + exists n. apply In_associatedInputTypes. rewrite E. now left.
  - intros [Ho (n & Hn)].
    destruct (hasInputArguments type) eqn:Hh; [reflexivity |].
    apply In_associatedInputTypes in Hn.
    rewrite (no_input_arguments type Ho Hh) in Hn. destruct Hn.
Qed.


(** An entry of the association belongs to a type that the filter of the
    association keeps, and holds its list of input-argument types. *)
Lemma association_entry (args : GenerateArgs) (k : string) (names : list string) :
  get (typeToInputTypeAssociationOf args) k = Some names ->
  exists type,
    In type (types args) /\ type_name type = k /\
    hasInputArguments type = true /\ names = associatedInputTypes type.
Proof.
  unfold typeToInputTypeAssociationOf. intros G.
  apply (build_range type_name associatedInputTypes) in G
    as [(type & Ht & Ek & Ev) | G]; [| discriminate].
  apply filter_In in Ht as [Ht Hh]. exists type. auto.
Qed.

(** A type that the filter keeps has an entry. *)
Lemma association_key (args : GenerateArgs) (type : GraphQLTypeObject) :
  In type (types args) -> hasInputArguments type = true ->
  In (type_name type) (keys (typeToInputTypeAssociationOf args)).
Proof.
  intros Ht Hh. unfold typeToInputTypeAssociationOf.
  assert (G : forall l init,
            In type l ->
            In (type_name type)
              (keys (fold_left
                       (fun types type =>
                          set types (type_name type) (associatedInputTypes type))
                       l init))).
  { assert (K : forall l init k,
              In k (keys init) ->
              In k (keys (fold_left
                            (fun types type =>
                               set types (type_name type)
                                 (associatedInputTypes type))
                            l init))).
    { induction l as [| a l IH]; intros init k Hk; simpl; [assumption |].
      apply IH. apply In_keys_set. now right. }
    induction l as [| a l IH]; intros init HIn; [destruct HIn |]. simpl.
    destruct HIn as [-> | HIn]; [| now apply IH].
    apply K. apply In_keys_set. now left. }
  apply G. apply filter_In. now split.
Qed.

End Association.

(* ================================================================= *)
(** * Input-type declarations of an object type *)

Section InputTypeDeclarations.
Context `{Common}.

(** Rendering a list of registered names gives the declaration of the
    registered input type of each, in the order of the names. *)
Lemma render_registered
    (render : string -> option string) (decl : GraphQLTypeObject -> string)
    (registry : InputTypesMap) (names : list string) :
  (forall n it, get registry n = Some it -> render n = Some (decl it)) ->
  (forall n, In n names -> In n (keys registry)) ->
  exists inputs,
    Forall2 (fun n it => get registry n = Some it) names inputs /\
    mapM render names = Some (map decl inputs).
Proof.
  intros Hrender. induction names as [| n names IH]; intros Hreg.
  - exists []. split; [constructor | reflexivity].
  - destruct IH as (inputs & F & E); [intros; apply Hreg; now right |].
    destruct (get registry n) as [it |] eqn:G.
    + exists (it :: inputs). split; [now constructor |].
      simpl. rewrite (Hrender n it G), E. reflexivity.
    + apply get_None in G. exfalso. apply G, Hreg. now left.
Qed.

Lemma ts_declaration (mm : ModelMap) (im : InterfacesMap) (um : UnionsMap)
    (registry : InputTypesMap) (n : string) (it : GraphQLTypeObject) :
  get registry n = Some it ->
  TypeScript.renderInputTypeInterface mm im um registry n =
  Some (tsInputTypeDeclaration mm im um it).
Proof.
  intros G. unfold TypeScript.renderInputTypeInterface.
  rewrite asObject_read, G. reflexivity.
Qed.

Lemma flow_declaration (type : GraphQLTypeObject) (mm : ModelMap)
    (im : InterfacesMap) (um : UnionsMap) (registry : InputTypesMap)
    (n : string) (it : GraphQLTypeObject) :
  get registry n = Some it ->
  Flow.renderInputTypeInterface type mm im um registry n =
  Some (flowInputTypeDeclaration type mm im um it).
Proof.
  intros G. unfold Flow.renderInputTypeInterface.
  rewrite asObject_read, G. reflexivity.
Qed.

(** What both dialects do with the distinct input types of a type that
    has input arguments, or whose name [Object.prototype] does not hold. *)
Lemma render_input_type_interfaces
    (renderAll : option string) (render : string -> option string)
    (args : GenerateArgs) (type : GraphQLTypeObject) :
  renderAll =
    match read (typeToInputTypeAssociationOf args) (type_name type) with
    | Undefined => Some ""
    | Own _ | Inherited =>
        distinct <- getDistinctInputTypes type (typeToInputTypeAssociationOf args)
                      (inputTypesMapOf args) ;;
        decls <- mapM render distinct ;;
        Some (join EOL decls)
    end ->
  NoDup (map type_name (types args)) ->
  In type (types args) ->
  isObject (type_type type) = true ->
  hasInputArguments type = true \/ ~ In (type_name type) prototypeKeys ->
  forall decls,
    mapM render (uniq (associatedInputTypes type)) = Some decls ->
    renderAll = Some (join EOL decls).
Proof.
  intros -> ND HIn Hobj Hname decls E.
  unfold getDistinctInputTypes.
  rewrite (association_read args type ND HIn).
  destruct (hasInputArguments type) eqn:Hh; cbn [asObject bind].
  - rewrite E. reflexivity.
  - destruct Hname as [C | Hname]; [discriminate |].
    apply In_prototypeKeys_false in Hname. rewrite Hname.
    rewrite (no_input_arguments type Hobj Hh) in E. simpl in E.
    injection E as <-. reflexivity.
Qed.

(** The TypeScript block of an object type: the declarations of its
    distinct input types, one for each, under the name of the input
    type. *)
Lemma ts_input_type_block (args : GenerateArgs) (type : GraphQLTypeObject)
    (mm : ModelMap) (im : InterfacesMap) (um : UnionsMap) :
  NoDup (map type_name (types args)) ->
  In type (types args) ->
  isObject (type_type type) = true ->
  (forall n, reachableInputType type n -> In n (keys (inputTypesMapOf args))) ->
  hasInputArguments type = true \/ ~ In (type_name type) prototypeKeys ->
  exists inputs,
    Forall2 (fun n it => get (inputTypesMapOf args) n = Some it)
      (uniq (associatedInputTypes type)) inputs /\
    TypeScript.renderInputTypeInterfaces type mm im um
      (typeToInputTypeAssociationOf args) (inputTypesMapOf args)
      = Some (join EOL (map (tsInputTypeDeclaration mm im um) inputs)).
Proof.
  intros ND HIn Hobj Hreg Hname.
  destruct (render_registered
              (TypeScript.renderInputTypeInterface mm im um (inputTypesMapOf args))
              (tsInputTypeDeclaration mm im um)
              (inputTypesMapOf args) (uniq (associatedInputTypes type))
              (ts_declaration mm im um (inputTypesMapOf args)))
    as (inputs & F & E).
  { intros n Hn. apply Hreg, In_associatedInputTypes, In_uniq, Hn. }
  exists inputs. split; [exact F |].
  now apply (render_input_type_interfaces _
               (TypeScript.renderInputTypeInterface mm im um (inputTypesMapOf args))
               args type eq_refl ND HIn Hobj Hname).
Qed.

(** The Flow block of an object type: the declarations of its distinct
    input types, one for each, under the name of the owner and of the
    input type. *)
Lemma flow_input_type_block (args : GenerateArgs) (type : GraphQLTypeObject)
    (mm : ModelMap) (im : InterfacesMap) (um : UnionsMap) :
  NoDup (map type_name (types args)) ->
  In type (types args) ->
  isObject (type_type type) = true ->
  (forall n, reachableInputType type n -> In n (keys (inputTypesMapOf args))) ->
  hasInputArguments type = true \/ ~ In (type_name type) prototypeKeys ->
  exists inputs,
    Forall2 (fun n it => get (inputTypesMapOf args) n = Some it)
      (uniq (associatedInputTypes type)) inputs /\
    Flow.renderInputTypeInterfaces type mm im um
      (typeToInputTypeAssociationOf args) (inputTypesMapOf args)
      = Some (join EOL (map (flowInputTypeDeclaration type mm im um) inputs)).
Proof.
  intros ND HIn Hobj Hreg Hname.
  destruct (render_registered
              (Flow.renderInputTypeInterface type mm im um (inputTypesMapOf args))
              (flowInputTypeDeclaration type mm im um)
              (inputTypesMapOf args) (uniq (associatedInputTypes type))
              (flow_declaration type mm im um (inputTypesMapOf args)))
    as (inputs & F & E).
  { intros n Hn. apply Hreg, In_associatedInputTypes, In_uniq, Hn. }
  exists inputs. split; [exact F |].
  now apply (render_input_type_interfaces _
               (Flow.renderInputTypeInterface type mm im um (inputTypesMapOf args))
               args type eq_refl ND HIn Hobj Hname).
Qed.

Lemma In_distinct (type : GraphQLTypeObject) (n : string) :
  In n (uniq (associatedInputTypes type)) <-> reachableInputType type n.
Proof. rewrite In_uniq. apply In_associatedInputTypes. Qed.




End InputTypeDeclarations.

Example distinct_input_types_of_query :
  getDistinctInputTypes Examples.query
    (typeToInputTypeAssociationOf (Examples.schema true))
    (inputTypesMapOf (Examples.schema true))
  = Some ["UserFilter"; "Order"; "PostFilter"].
Proof. reflexivity. Qed.

Example input_type_block_of_query :
  TypeScript.renderInputTypeInterfaces (H := Sample.common) Examples.query
    [] [] [] (typeToInputTypeAssociationOf (Examples.schema true))
    (inputTypesMapOf (Examples.schema true))
  = Some (join EOL
            (map (tsInputTypeDeclaration (H := Sample.common) [] [] [])
                 [ Sample.input "UserFilter"
                     [ Sample.field "name" (Sample.scalarType "String") [] ];
                   Sample.input "Order"
                     [ Sample.field "by" (Sample.scalarType "String") [] ];
                   Sample.input "PostFilter"
                     [ Sample.field "title" (Sample.scalarType "String") [] ] ])).
Proof. reflexivity. Qed.


(* ================================================================= *)
(** * The discriminator binding of an object type *)

Section ForIn.
Context {V S : Type}.

(** A [for..in] loop that reads the property of every key it visits is a
    fold over the entries of the object. *)
Lemma foldM_keys (o : Obj V) (step : S -> V -> S) (init : S) :
  NoDup (keys o) ->
  foldM (fun acc k => v <- get o k ;; Some (step acc v)) (keys o) init =
  Some (fold_left (fun acc kv => step acc (snd kv)) o init).
Proof.
  intros ND.
  assert (G : forall l s, incl l o ->
              foldM (fun acc k => v <- get o k ;; Some (step acc v)) (keys l) s =
              Some (fold_left (fun acc kv => step acc (snd kv)) l s)).
  { induction l as [| [k v] l IH]; intros s Hincl; simpl; [reflexivity |].
    rewrite (In_get o k v ND) by (apply Hincl; now left). simpl.
    apply IH. intros x Hx. apply Hincl. now right. }
  apply G, incl_refl.
Qed.

End ForIn.

Section Discriminator.
Context `{Common}.

Lemma override_none (type : GraphQLTypeObject) (um : UnionsMap)
    (init : list GraphQLTypeDefinition) :
  (forall u members, In (u, members) um -> memberOf type members = false) ->
  fold_left (fun acc kv => overrideWith type acc (snd kv)) um init = init.
Proof.
  revert init. induction um as [| [u members] um IH]; intros init Hno; simpl;
    [reflexivity |].
  unfold overrideWith at 2. rewrite (Hno u members) by now left.
  apply IH. intros u' m' Hin. apply (Hno u' m'). now right.
Qed.

Lemma override_last (type : GraphQLTypeObject) (um : UnionsMap)
    (init members : list GraphQLTypeDefinition) :
  lastUnionOf type um members ->
  fold_left (fun acc kv => overrideWith type acc (snd kv)) um init = members.
Proof.
  intros (before & u & after & -> & Hm & Hafter).
  rewrite fold_left_app. simpl. unfold overrideWith at 2. rewrite Hm.
  now apply override_none.
Qed.

(** A type is in some union exactly when there is a last union listing it. *)
Lemma last_union_exists (type : GraphQLTypeObject) (um : UnionsMap) :
  memberOfSomeUnion type um -> exists members, lastUnionOf type um members.
Proof.
  induction um as [| [u members] um IH]; intros (u0 & m0 & Hin & Hm);
    [destruct Hin |].
  destruct (existsb (fun kv => memberOf type (snd kv)) um) eqn:Elater.
  - apply existsb_exists in Elater as ([u1 m1] & Hin1 & Hm1). simpl in Hm1.
    destruct IH as (m & before & u2 & after & -> & Hm2 & Hafter).
    { now exists u1, m1. }
    exists m, ((u, members) :: before), u2, after. now split.
  - assert (Hno : forall u' m', In (u', m') um -> memberOf type m' = false).
    { intros u' m' Hin'. destruct (memberOf type m') eqn:E; [| reflexivity].
      assert (X : existsb (fun kv => memberOf type (snd kv)) um = true)
        by (apply existsb_exists; now exists (u', m')).
      congruence. }
    destruct Hin as [E | Hin].
    + injection E as Eu Em. subst u0 m0. exists members, [], u, um. now split.
    + rewrite (Hno u0 m0 Hin) in Hm. discriminate.
Qed.

(** The implementers gathered from the interfaces of a type. *)
Lemma from_interfaces (type : GraphQLTypeObject) (im : InterfacesMap)
    (interfaces : list string) (init : list GraphQLTypeDefinition) :
  (forall i, In i interfaces ->
             exists impls, get im i = Some impls /\ memberOf type impls = true) ->
  exists gathered,
    foldM (fun obj interfaceName =>
             flatten obj (read im interfaceName))
          interfaces init = Some gathered /\
    (gathered = [] -> init = [] /\ interfaces = []).
Proof.
  revert init. induction interfaces as [| i l IH]; intros init Hreg; simpl.
  - exists init. now split.
  - destruct (Hreg i) as (impls & Ei & Hm); [now left |].
    rewrite (read_own _ _ _ Ei). simpl.
    destruct (IH (init ++ impls)%list) as (gathered & E & Hnil).
    { intros j Hj. apply Hreg. now right. }
    exists gathered. split; [assumption |].
    intros G. destruct (Hnil G) as [Hf _].
    apply app_eq_nil in Hf as [_ ->]. discriminate.
Qed.

Lemma member_not_nil (type : GraphQLTypeObject)
    (members : list GraphQLTypeDefinition) :
  memberOf type members = true -> members <> [].
Proof. intros Hm ->. discriminate. Qed.

(** What [possibleTypes] computes. *)
Lemma possible_types (type : GraphQLTypeObject) (im : InterfacesMap)
    (um : UnionsMap) :
  NoDup (keys um) ->
  (forall interfaces i,
     type_interfaces type = Some interfaces -> In i interfaces ->
     exists impls, get im i = Some impls /\ memberOf type impls = true) ->
  exists possible,
    TypeScript.possibleTypes type im um = Some possible /\
    (possible <> [] <->
     implementsSomeInterface type \/ memberOfSomeUnion type um) /\
    (forall members, lastUnionOf type um members -> possible = members).
Proof.
  intros ND Hreg. unfold TypeScript.possibleTypes.
  assert (Hfrom : exists gathered,
            match type_interfaces type with
            | Some interfaces =>
                foldM (fun obj interfaceName =>
                         flatten obj (read im interfaceName))
                      interfaces []
            | None => Some []
            end = Some gathered /\
            (gathered <> [] <-> implementsSomeInterface type)).
  { unfold implementsSomeInterface.
    destruct (type_interfaces type) as [interfaces |] eqn:Ei.
    - destruct (from_interfaces type im interfaces []
                  (fun i => Hreg interfaces i eq_refl))
        as (gathered & E & Hnil).
      exists gathered. split; [assumption |]. split.
      + intros Hne. destruct interfaces as [| i rest]; [| now exists i, rest].
        simpl in E. injection E as <-. contradiction.
      + intros (i & rest & E') G. injection E' as ->.
        destruct (Hnil G) as [_ ?]. discriminate.
    - exists []. split; [reflexivity |]. split; [congruence |].
      intros (i & rest & E'). discriminate. }
  destruct Hfrom as (gathered & -> & Hgathered). cbn [bind].
  change (fun possible unionName =>
            members <- get um unionName ;;
            Some (if existsb (fun unionType =>
                                String.eqb (td_name unionType) (type_name type))
                             members
                  then members else possible))
    with (fun possible unionName =>
            members <- get um unionName ;;
            Some (overrideWith type possible members)).
  rewrite (foldM_keys um (overrideWith type) gathered ND).
  eexists. split; [reflexivity |]. split.
  - split.
    + intros Hne.
      destruct (existsb (fun kv => memberOf type (snd kv)) um) eqn:Eu.
      * right. apply existsb_exists in Eu as ([u m] & Hin & Hm).
        now exists u, m.
      * left. apply Hgathered. rewrite override_none in Hne; [assumption |].
        intros u m Hin. destruct (memberOf type m) eqn:E; [| reflexivity].
        assert (X : existsb (fun kv => memberOf type (snd kv)) um = true)
          by (apply existsb_exists; now exists (u, m)).
        congruence.
    + intros [Hi | Hu].
      * destruct (existsb (fun kv => memberOf type (snd kv)) um) eqn:Eu.
        -- apply existsb_exists in Eu as ([u m] & Hin & Hm). simpl in Hm.
           destruct (last_union_exists type um) as (members & Hlast);
             [now exists u, m |].
           rewrite (override_last type um gathered members Hlast).
           destruct Hlast as (_ & _ & _ & _ & Hm' & _).
           exact (member_not_nil type members Hm').
        -- rewrite override_none; [now apply Hgathered |].
           intros u m Hin. destruct (memberOf type m) eqn:E; [| reflexivity].
           assert (X : existsb (fun kv => memberOf type (snd kv)) um = true)
             by (apply existsb_exists; now exists (u, m)).
           congruence.
      * destruct (last_union_exists type um Hu) as (members & Hlast).
        rewrite (override_last type um gathered members Hlast).
        destruct Hlast as (_ & _ & _ & _ & Hm' & _).
        exact (member_not_nil type members Hm').
  - intros members Hlast. now apply override_last.
Qed.

Lemma unionsMapOf_NoDup (args : GenerateArgs) : NoDup (keys (unionsMapOf args)).
Proof.
  unfold unionsMapOf. apply (build_NoDup union_name union_types). constructor.
Qed.

Lemma interfacesMapOf_NoDup (args : GenerateArgs) :
  NoDup (keys (interfacesMapOf args)).
Proof.
  unfold interfacesMapOf. apply (build_NoDup int_name int_types). constructor.
Qed.

End Discriminator.

Section DiscriminatorBinding.
Context `{Common}.

Lemma render_isTypeOf (type : GraphQLTypeObject) (mm : ModelMap)
    (im : InterfacesMap) (um : UnionsMap) (context : option ContextDefinition)
    (possible : list GraphQLTypeDefinition) :
  TypeScript.possibleTypes type im um = Some possible ->
  TypeScript.renderIsTypeOfFunctionInterface type mm im um context =
  Some match possible with
       | [] => ""
       | _ :: _ => isTypeOfBinding possible mm context
       end.
Proof.
  intros E. unfold TypeScript.renderIsTypeOfFunctionInterface. rewrite E.
  cbn [bind]. destruct possible; reflexivity.
Qed.

(** C10.  In the TypeScript dialect, for an object type whose interfaces
    are registered with the type among their implementers, the resolver
    shape holds the optional [__isTypeOf] binding exactly when the type
    implements an interface or is a member of a union; and when it is a
    member of a union the binding ranges over the members of the last
    union, in the order of iteration, that lists it, whatever its
    interfaces gave. *)
Theorem C10_isTypeOf_binding
    (type : GraphQLTypeObject) (mm : ModelMap) (im : InterfacesMap)
    (um : UnionsMap) (context : option ContextDefinition) :
  NoDup (keys um) ->
  (forall interfaces i,
     type_interfaces type = Some interfaces -> In i interfaces ->
     exists impls, get im i = Some impls /\ memberOf type impls = true) ->
  exists possible,
    TypeScript.possibleTypes type im um = Some possible /\
    TypeScript.renderIsTypeOfFunctionInterface type mm im um context =
      Some match possible with
           | [] => ""
           | _ :: _ => isTypeOfBinding possible mm context
           end /\
    (possible <> [] <->
     implementsSomeInterface type \/ memberOfSomeUnion type um) /\
    (forall members, lastUnionOf type um members -> possible = members) /\
    (forall functions,
       mapM (fun field =>
               TypeScript.renderResolverTypeInterfaceFunction field type mm im
                 um context)
            (type_fields type) = Some functions ->
       exists extend,
         TypeScript.renderResolverTypeInterface type mm im um context "Type" =
         Some ("
  export interface " ++ "Type" ++ " " ++ extend ++ " {
    " ++ join EOL functions ++ "
      " ++ match possible with
           | [] => ""
           | _ :: _ => isTypeOfBinding possible mm context
           end ++ "
  }
  ")).
Proof.
  intros ND Hreg.
  destruct (possible_types type im um ND Hreg) as (possible & E & Hiff & Hlast).
  exists possible.
  pose proof (render_isTypeOf type mm im um context possible E) as R.
  repeat split; try assumption; try apply Hiff.
  intros functions F. unfold TypeScript.renderResolverTypeInterface.
  rewrite F, R. cbn [bind]. eexists. reflexivity.
Qed.

End DiscriminatorBinding.

Example possible_types_of_post :
  TypeScript.possibleTypes Shapes.post (interfacesMapOf Shapes.schema)
    (unionsMapOf Shapes.schema)
  = Some (union_types Shapes.feed).
Proof. reflexivity. Qed.

Example possible_types_of_comment :
  TypeScript.possibleTypes Shapes.comment (interfacesMapOf Shapes.schema)
    (unionsMapOf Shapes.schema)
  = Some (union_types Shapes.searchResult).
Proof. reflexivity. Qed.

Lemma C10_isTypeOf_binding_witness :
  TypeScript.renderIsTypeOfFunctionInterface (H := Sample.common) Shapes.post
    Examples.models (interfacesMapOf Shapes.schema) (unionsMapOf Shapes.schema)
    None
  = Some "    __isTypeOf?: GraphQLIsTypeOfFn<UserModel | PostModel, Context>;".
Proof.
  destruct (C10_isTypeOf_binding (H := Sample.common) Shapes.post
              Examples.models (interfacesMapOf Shapes.schema)
              (unionsMapOf Shapes.schema) None)
    as (possible & _ & R & _ & Hlast & _).
  - vm_compute. distinct_names.
  - intros interfaces i E Hin. injection E as <-.
    destruct Hin as [<- | []]. eexists. split; reflexivity.
  - rewrite (Hlast (union_types Shapes.feed)) in R; [exact R |].
    exists [("SearchResult", union_types Shapes.searchResult)], "Feed", [].
    split; [reflexivity |]. split; [reflexivity |]. intros u' m' [].
Defined.

(* ================================================================= *)
(** * Input types shared by several object types *)

Section SharedInputTypes.
Context `{Common}.

Lemma namespace_distinct (a b : string) :
  a <> b -> a ++ "Resolvers" <> b ++ "Resolvers".
Proof. intros N E. apply N. exact (append_inv_tail _ _ _ E). Qed.

(** The registered input type of a reachable name is among the declared
    ones of the block. *)
Lemma declared_input (args : GenerateArgs) (type : GraphQLTypeObject)
    (n : string) (it : GraphQLTypeObject) (inputs : list GraphQLTypeObject) :
  Forall2 (fun m x => get (inputTypesMapOf args) m = Some x)
    (uniq (associatedInputTypes type)) inputs ->
  reachableInputType type n ->
  get (inputTypesMapOf args) n = Some it ->
  In it inputs.
Proof.
  intros F Hn G. apply In_distinct in Hn.
  destruct (Forall2_In_l _ _ _ _ F Hn) as (x & Hx & G'). congruence.
Qed.

(** The Flow block and namespace of an object type that reaches the
    input type [n] hold the declaration of [n] under the name of the
    owner. *)
Lemma flow_owner_declaration (args : GenerateArgs) (type : GraphQLTypeObject)
    (n : string) (it : GraphQLTypeObject) (im : InterfacesMap) (um : UnionsMap) :
  NoDup (map type_name (types args)) ->
  In type (types args) ->
  isObject (type_type type) = true ->
  (forall m, reachableInputType type m -> In m (keys (inputTypesMapOf args))) ->
  reachableInputType type n ->
  get (inputTypesMapOf args) n = Some it ->
  exists out,
    Flow.renderNamespace type im um (typeToInputTypeAssociationOf args)
      (inputTypesMapOf args) args = Some out /\
    contains (flowInputTypeDeclaration type (modelMap args) im um it) out.
Proof.
  intros ND HIn Hobj Hreg Hn G.
  assert (Hh : hasInputArguments type = true)
    by (apply has_input_arguments; split; [assumption | now exists n]).
  destruct (flow_input_type_block args type (modelMap args) im um
              ND HIn Hobj Hreg (or_introl Hh)) as (inputs & F & E).
  pose proof (declared_input args type n it inputs F Hn G) as Hit.
  pose proof (contains_join EOL _ _
                (in_map (flowInputTypeDeclaration type (modelMap args) im um)
                   _ _ Hit)) as Hc.
  unfold Flow.renderNamespace. rewrite E. cbn [bind].
  eexists. split; [reflexivity |].
  find_part Hc.
Qed.

(** The TypeScript block of an object type that reaches the input type
    [n] holds the declaration of [n]. *)
Lemma ts_owner_block (args : GenerateArgs) (type : GraphQLTypeObject)
    (n : string) (it : GraphQLTypeObject) (im : InterfacesMap) (um : UnionsMap) :
  NoDup (map type_name (types args)) ->
  In type (types args) ->
  isObject (type_type type) = true ->
  (forall m, reachableInputType type m -> In m (keys (inputTypesMapOf args))) ->
  reachableInputType type n ->
  get (inputTypesMapOf args) n = Some it ->
  exists block,
    TypeScript.renderInputTypeInterfaces type (modelMap args) im um
      (typeToInputTypeAssociationOf args) (inputTypesMapOf args) = Some block /\
    contains (tsInputTypeDeclaration (modelMap args) im um it) block.
Proof.
  intros ND HIn Hobj Hreg Hn G.
  assert (Hh : hasInputArguments type = true)
    by (apply has_input_arguments; split; [assumption | now exists n]).
  destruct (ts_input_type_block args type (modelMap args) im um
              ND HIn Hobj Hreg (or_introl Hh)) as (inputs & F & E).
  pose proof (declared_input args type n it inputs F Hn G) as Hit.
  eexists. split; [exact E |].
  apply contains_join. now apply in_map.
Qed.

(** The namespace of the owner holds the block, once the resolver shape
    of the type renders. *)
Lemma ts_owner_namespace (args : GenerateArgs) (type : GraphQLTypeObject)
    (im : InterfacesMap) (um : UnionsMap) (block shape decl : string) :
  TypeScript.renderInputTypeInterfaces type (modelMap args) im um
    (typeToInputTypeAssociationOf args) (inputTypesMapOf args) = Some block ->
  contains decl block ->
  TypeScript.renderResolverTypeInterface type (modelMap args) im um
    (context args) "Type" = Some shape ->
  exists rest,
    TypeScript.renderNamespace type im um (typeToInputTypeAssociationOf args)
      (inputTypesMapOf args) args
      = Some (("    export namespace " ++ type_name type ++ "Resolvers {") ++ rest) /\
    contains decl rest.
Proof.
  intros E Hc Hshape.
  unfold TypeScript.renderNamespace. rewrite E, Hshape. cbn [bind].
  eexists. split.
  - apply (f_equal Some). rewrite !append_assoc. reflexivity.
  - find_part Hc.
Qed.

(** C2 (amended).  Two distinct object types of a schema with unique type
    names that both take the input type [n] as a field argument each hold
    the declaration of [n] in their own block, in both dialects, and
    rendering the blocks does not fail on the shared input type.  In the
    TypeScript dialect the declaration is inside the namespace of its
    owner, and the namespaces of the two types differ.  In the Flow
    dialect the two declarations are named [Owner_Name], and their names
    are the same exactly when the names of the owners agree after
    capitalisation of the first letter. *)
Theorem C2_owner_scoped_declarations
    (args : GenerateArgs) (A B : GraphQLTypeObject) (n : string)
    (im : InterfacesMap) (um : UnionsMap) :
  NoDup (map type_name (types args)) ->
  In A (types args) -> In B (types args) -> A <> B ->
  isObject (type_type A) = true -> isObject (type_type B) = true ->
  (forall m, reachableInputType A m \/ reachableInputType B m ->
             In m (keys (inputTypesMapOf args))) ->
  reachableInputType A n -> reachableInputType B n ->
  exists it,
    get (inputTypesMapOf args) n = Some it /\ type_name it = n /\
    (exists outA outB,
       Flow.renderNamespace A im um (typeToInputTypeAssociationOf args)
         (inputTypesMapOf args) args = Some outA /\
       Flow.renderNamespace B im um (typeToInputTypeAssociationOf args)
         (inputTypesMapOf args) args = Some outB /\
       contains (flowInputTypeDeclaration A (modelMap args) im um it) outA /\
       contains (flowInputTypeDeclaration B (modelMap args) im um it) outB) /\
    (upperFirst (type_name A) ++ "_" ++ upperFirst (type_name it) =
     upperFirst (type_name B) ++ "_" ++ upperFirst (type_name it) <->
     upperFirst (type_name A) = upperFirst (type_name B)) /\
    (exists blockA blockB,
       TypeScript.renderInputTypeInterfaces A (modelMap args) im um
         (typeToInputTypeAssociationOf args) (inputTypesMapOf args)
         = Some blockA /\
       TypeScript.renderInputTypeInterfaces B (modelMap args) im um
         (typeToInputTypeAssociationOf args) (inputTypesMapOf args)
         = Some blockB /\
       contains (tsInputTypeDeclaration (modelMap args) im um it) blockA /\
       contains (tsInputTypeDeclaration (modelMap args) im um it) blockB) /\
    type_name A ++ "Resolvers" <> type_name B ++ "Resolvers" /\
    (forall T shape,
       T = A \/ T = B ->
       TypeScript.renderResolverTypeInterface T (modelMap args) im um
         (context args) "Type" = Some shape ->
       exists rest,
         TypeScript.renderNamespace T im um (typeToInputTypeAssociationOf args)
           (inputTypesMapOf args) args
           = Some (("    export namespace " ++ type_name T ++ "Resolvers {")
                   ++ rest) /\
         contains (tsInputTypeDeclaration (modelMap args) im um it) rest).
Proof.
  intros ND HA HB Hdiff OA OB Hreg HnA HnB.
  assert (HregA : forall m, reachableInputType A m ->
                            In m (keys (inputTypesMapOf args))) by auto.
  assert (HregB : forall m, reachableInputType B m ->
                            In m (keys (inputTypesMapOf args))) by auto.
  destruct (get (inputTypesMapOf args) n) as [it |] eqn:G;
    [| apply get_None in G; exfalso; apply G, HregA, HnA].
  exists it. split; [reflexivity |].
  split; [exact (registry_name args n it G) |].
  destruct (flow_owner_declaration args A n it im um ND HA OA HregA HnA G)
    as (outA & EA & CA).
  destruct (flow_owner_declaration args B n it im um ND HB OB HregB HnB G)
    as (outB & EB & CB).
  destruct (ts_owner_block args A n it im um ND HA OA HregA HnA G)
    as (blockA & TA & DA).
  destruct (ts_owner_block args B n it im um ND HB OB HregB HnB G)
    as (blockB & TB & DB).
  split; [now exists outA, outB |].
  split.
  { split; [apply append_inv_tail | now intros ->]. }
  split; [now exists blockA, blockB |].
  split.
  { apply namespace_distinct. intros E. apply Hdiff.
    exact (NoDup_map_eq type_name _ A B ND HA HB E). }
  intros T shape [-> | ->] Hshape.
  - exact (ts_owner_namespace args A im um blockA shape _ TA DA Hshape).
  - exact (ts_owner_namespace args B im um blockB shape _ TB DB Hshape).
Qed.

End SharedInputTypes.

Example flow_names_of_case_variants :
  Flow.inputTypeInterfaceName Collision.lowerUser (Sample.input "Filter" []) =
  "User_Filter" /\
  Flow.inputTypeInterfaceName Collision.upperUser (Sample.input "Filter" []) =
  "User_Filter".
Proof. split; reflexivity. Qed.

(** C2, as stated, fails in the Flow dialect: the object types [user] and
    [User] are distinct and both take [Filter] as an argument, and the
    blocks of both declare the same name [User_Filter], with the same
    text. *)
Lemma C2_flow_owner_names_collide :
  type_name Collision.lowerUser <> type_name Collision.upperUser /\
  reachableInputType Collision.lowerUser "Filter" /\
  reachableInputType Collision.upperUser "Filter" /\
  exists body,
    Flow.renderInputTypeInterfaces (H := Sample.common) Collision.lowerUser
      [] [] [] (typeToInputTypeAssociationOf Collision.schema)
      (inputTypesMapOf Collision.schema)
      = Some ("export interface User_Filter {" ++ body) /\
    Flow.renderInputTypeInterfaces (H := Sample.common) Collision.upperUser
      [] [] [] (typeToInputTypeAssociationOf Collision.schema)
      (inputTypesMapOf Collision.schema)
      = Some ("export interface User_Filter {" ++ body).
Proof.
  split; [discriminate |].
  split; [apply In_associatedInputTypes; simpl; now left |].
  split; [apply In_associatedInputTypes; simpl; now left |].
  eexists. split; reflexivity.
Qed.

Lemma C2_owner_scoped_declarations_witness :
  exists it outA outB,
    get (inputTypesMapOf Collision.schema) "Filter" = Some it /\
    Flow.renderNamespace (H := Sample.common) Collision.lowerUser [] []
      (typeToInputTypeAssociationOf Collision.schema)
      (inputTypesMapOf Collision.schema) Collision.schema = Some outA /\
    Flow.renderNamespace (H := Sample.common) Collision.upperUser [] []
      (typeToInputTypeAssociationOf Collision.schema)
      (inputTypesMapOf Collision.schema) Collision.schema = Some outB /\
    contains
      (flowInputTypeDeclaration (H := Sample.common) Collision.lowerUser
         [] [] [] it) outA /\
    contains
      (flowInputTypeDeclaration (H := Sample.common) Collision.upperUser
         [] [] [] it) outB /\
    "userResolvers" <> "UserResolvers".
Proof.
  destruct (C2_owner_scoped_declarations (H := Sample.common)
              Collision.schema Collision.lowerUser Collision.upperUser
              "Filter" [] [])
    as (it & G & _ & (outA & outB & EA & EB & CA & CB) & _ & _ & Hns & _).
  - vm_compute. distinct_names.
  - simpl. now left.
  - simpl. tauto.
  - discriminate.
  - reflexivity.
  - reflexivity.
  - intros m [Hm | Hm]; apply In_associatedInputTypes in Hm;
      vm_compute in Hm; vm_compute; intuition.
  - apply In_associatedInputTypes. simpl. now left.
  - apply In_associatedInputTypes. simpl. now left.
  - exists it, outA, outB. repeat split; assumption.
Defined.

(* ================================================================= *)
(** * Resolver shapes of subscription and other fields *)

Section ResolverShapes.
Context `{Common}.

Lemma ts_subscription_alias (field : GraphQLTypeField) (type : GraphQLTypeObject)
    (mm : ModelMap) (im : InterfacesMap) (um : UnionsMap)
    (context : option ContextDefinition) :
  type_name type = "Subscription" ->
  TypeScript.renderResolverFunctionInterface field type mm im um context =
  "
    export type " ++ upperFirst (field_name field) ++ "Resolver = " ++
  tsSubscriptionResolver
    (TypeScript.resolverDefinition
       (getModelName (type_type type) mm (Some "undefined")) field context)
    (printFieldLikeType (fieldLike field) mm im um None) ++ "
    ".
Proof.
  intros E. unfold TypeScript.renderResolverFunctionInterface, tsSubscriptionResolver.
  rewrite E. cbn [String.eqb Ascii.eqb Bool.eqb]. string_eq.
Qed.

Lemma ts_function_alias (field : GraphQLTypeField) (type : GraphQLTypeObject)
    (mm : ModelMap) (im : InterfacesMap) (um : UnionsMap)
    (context : option ContextDefinition) :
  type_name type <> "Subscription" ->
  TypeScript.renderResolverFunctionInterface field type mm im um context =
  "
  export type " ++ upperFirst (field_name field) ++ "Resolver = " ++
  tsFunctionResolver
    (TypeScript.resolverDefinition
       (getModelName (type_type type) mm (Some "undefined")) field context)
    (printFieldLikeType (fieldLike field) mm im um None) ++ "
  ".
Proof.
  intros N. apply String.eqb_neq in N.
  unfold TypeScript.renderResolverFunctionInterface, tsFunctionResolver.
  rewrite N. string_eq.
Qed.

Lemma flow_subscription_alias (field : GraphQLTypeField)
    (type : GraphQLTypeObject) (mm : ModelMap) (im : InterfacesMap)
    (um : UnionsMap) (context : option ContextDefinition) :
  type_name type = "Subscription" ->
  Flow.renderResolverFunctionInterface field type mm im um context =
  "
    export type " ++ upperFirst (type_name type) ++ "_" ++
  upperFirst (field_name field) ++ "_Resolver = " ++
  flowSubscriptionResolver
    (flowSignature type field mm context "
  ")
    (printFieldLikeType (fieldLike field) mm im um (Some {| isReturn := true |}))
    (resolverReturnType
       (printFieldLikeType (fieldLike field) mm im um
          (Some {| isReturn := true |}))) ++ "
    ".
Proof.
  intros E.
  unfold Flow.renderResolverFunctionInterface, flowSubscriptionResolver,
    flowSignature.
  rewrite !E. cbn [String.eqb Ascii.eqb Bool.eqb]. string_eq.
Qed.

Lemma flow_function_alias (field : GraphQLTypeField)
    (type : GraphQLTypeObject) (mm : ModelMap) (im : InterfacesMap)
    (um : UnionsMap) (context : option ContextDefinition) :
  type_name type <> "Subscription" ->
  Flow.renderResolverFunctionInterface field type mm im um context =
  "
  export type " ++ upperFirst (type_name type) ++ "_" ++
  upperFirst (field_name field) ++ "_Resolver = " ++
  flowFunctionResolver
    (flowSignature type field mm context "
  ")
    (resolverReturnType
       (printFieldLikeType (fieldLike field) mm im um
          (Some {| isReturn := true |}))) ++ "
  ".
Proof.
  intros N. apply String.eqb_neq in N.
  unfold Flow.renderResolverFunctionInterface, flowFunctionResolver,
    flowSignature.
  rewrite N. string_eq.
Qed.

Lemma ts_member (field : GraphQLTypeField) (type : GraphQLTypeObject)
    (mm : ModelMap) (im : InterfacesMap) (um : UnionsMap)
    (context : option ContextDefinition) :
  TypeScript.renderResolverTypeInterfaceFunction field type mm im um context =
  (parent <- TypeScript.parentType type mm im ;;
   Some (if String.eqb (type_name type) "Subscription"
         then "
    " ++ field_name field ++ ": " ++
              tsSubscriptionResolver
                (TypeScript.resolverDefinition parent field context)
                (printFieldLikeType (fieldLike field) mm im um None) ++ "
    "
         else "
    " ++ field_name field ++ ": " ++
              tsFunctionResolver
                (TypeScript.resolverDefinition parent field context)
                (printFieldLikeType (fieldLike field) mm im um None) ++ "
  ")).
Proof.
  unfold TypeScript.renderResolverTypeInterfaceFunction, tsSubscriptionResolver,
    tsFunctionResolver.
  destruct (TypeScript.parentType type mm im) as [parent |]; [| reflexivity].
  cbn [bind]. destruct (String.eqb (type_name type) "Subscription");
    apply (f_equal Some); string_eq.
Qed.

Lemma flow_member (field : GraphQLTypeField) (type : GraphQLTypeObject)
    (mm : ModelMap) (im : InterfacesMap) (um : UnionsMap)
    (context : option ContextDefinition) :
  Flow.renderResolverTypeInterfaceFunction field type mm im um context =
  if String.eqb (type_name type) "Subscription"
  then "
    " ++ field_name field ++ ": " ++
       flowSubscriptionResolver (flowSignature type field mm context "")
         (printFieldLikeType (fieldLike field) mm im um
            (Some {| isReturn := true |}))
         (resolverReturnType
            (printFieldLikeType (fieldLike field) mm im um
               (Some {| isReturn := true |}))) ++ "
    "
  else "
  " ++ field_name field ++ ": " ++
       flowFunctionResolver (flowSignature type field mm context "")
         (resolverReturnType
            (printFieldLikeType (fieldLike field) mm im um
               (Some {| isReturn := true |}))) ++ ",
  ".
Proof.
  unfold Flow.renderResolverTypeInterfaceFunction, flowSubscriptionResolver,
    flowFunctionResolver, flowSignature.
  destruct (String.eqb (type_name type) "Subscription");
    rewrite ?append_nil_r; string_eq.
Qed.

(** C3.  In both dialects the resolver declaration of a field has the
    two-function shape (required [subscribe], optional [resolve]) when the
    field belongs to the type named [Subscription], and the single-function
    shape for a field of any other type; so has the member that declares
    the resolver in the resolver shape of the type. *)
Theorem C3_subscription_fields_two_functions
    (field : GraphQLTypeField) (type : GraphQLTypeObject)
    (mm : ModelMap) (im : InterfacesMap) (um : UnionsMap)
    (context : option ContextDefinition) :
  let tsSignature :=
    TypeScript.resolverDefinition
      (getModelName (type_type type) mm (Some "undefined")) field context in
  let tsReturn := printFieldLikeType (fieldLike field) mm im um None in
  let flowReturn :=
    printFieldLikeType (fieldLike field) mm im um (Some {| isReturn := true |}) in
  (type_name type = "Subscription" /\
   TypeScript.renderResolverFunctionInterface field type mm im um context =
   "
    export type " ++ upperFirst (field_name field) ++ "Resolver = " ++
   tsSubscriptionResolver tsSignature tsReturn ++ "
    " /\
   Flow.renderResolverFunctionInterface field type mm im um context =
   "
    export type " ++ upperFirst (type_name type) ++ "_" ++
   upperFirst (field_name field) ++ "_Resolver = " ++
   flowSubscriptionResolver (flowSignature type field mm context "
  ") flowReturn (resolverReturnType flowReturn) ++ "
    " /\
   TypeScript.renderResolverTypeInterfaceFunction field type mm im um context =
   (parent <- TypeScript.parentType type mm im ;;
    Some ("
    " ++ field_name field ++ ": " ++
          tsSubscriptionResolver
            (TypeScript.resolverDefinition parent field context) tsReturn ++ "
    ")) /\
   Flow.renderResolverTypeInterfaceFunction field type mm im um context =
   "
    " ++ field_name field ++ ": " ++
   flowSubscriptionResolver (flowSignature type field mm context "")
     flowReturn (resolverReturnType flowReturn) ++ "
    ")
  \/
  (type_name type <> "Subscription" /\
   TypeScript.renderResolverFunctionInterface field type mm im um context =
   "
  export type " ++ upperFirst (field_name field) ++ "Resolver = " ++
   tsFunctionResolver tsSignature tsReturn ++ "
  " /\
   Flow.renderResolverFunctionInterface field type mm im um context =
   "
  export type " ++ upperFirst (type_name type) ++ "_" ++
   upperFirst (field_name field) ++ "_Resolver = " ++
   flowFunctionResolver (flowSignature type field mm context "
  ") (resolverReturnType flowReturn) ++ "
  " /\
   TypeScript.renderResolverTypeInterfaceFunction field type mm im um context =
   (parent <- TypeScript.parentType type mm im ;;
    Some ("
    " ++ field_name field ++ ": " ++
          tsFunctionResolver
            (TypeScript.resolverDefinition parent field context) tsReturn ++ "
  ")) /\
   Flow.renderResolverTypeInterfaceFunction field type mm im um context =
   "
  " ++ field_name field ++ ": " ++
   flowFunctionResolver (flowSignature type field mm context "")
     (resolverReturnType flowReturn) ++ ",
  ").
Proof.
  cbv zeta.
  pose proof (ts_member field type mm im um context) as Mts.
  pose proof (flow_member field type mm im um context) as Mflow.
  destruct (String.string_dec (type_name type) "Subscription") as [E | N].
  - left. split; [assumption |].
    rewrite E in Mts, Mflow. cbn [String.eqb Ascii.eqb Bool.eqb] in Mts, Mflow.
    split; [now apply ts_subscription_alias |].
    split; [now apply flow_subscription_alias |].
    split; assumption.
  - right. split; [assumption |].
    pose proof N as N'. apply String.eqb_neq in N'. rewrite N' in Mts, Mflow.
    split; [now apply ts_function_alias |].
    split; [now apply flow_function_alias |].
    split; assumption.
Qed.

End ResolverShapes.

Example subscription_field_alias :
  TypeScript.renderResolverFunctionInterface (H := Sample.common)
    (Sample.field "ticks" (Sample.scalarType "Int") [])
    (Sample.object "Subscription" []) [] [] [] None
  = "
    export type TicksResolver = {
      subscribe: 
  (
    parent: undefined,
    args: {},
    ctx: Context,
    info: GraphQLResolveInfo,
  )
   => AsyncIterator<Int | null> | Promise<AsyncIterator<Int | null>>
      resolve?: 
  (
    parent: undefined,
    args: {},
    ctx: Context,
    info: GraphQLResolveInfo,
  )
   => Int | null | Promise<Int | null>
    }
    ".
Proof. reflexivity. Qed.

Example query_field_alias :
  TypeScript.renderResolverFunctionInterface (H := Sample.common)
    Examples.version Examples.query [] [] [] None
  = "
  export type VersionResolver = 
  (
    parent: undefined,
    args: {},
    ctx: Context,
    info: GraphQLResolveInfo,
  )
   => String | null | Promise<String | null>
  ".
Proof. reflexivity. Qed.

(* ================================================================= *)
(** * Argument bags *)

Section ArgumentBags.
Context `{Common}.

Lemma toUpperCase_underscore (c : ascii) :
  Ascii.eqb (toUpperCase c) "_" = Ascii.eqb c "_".
Proof.
  destruct c as [[] [] [] [] [] [] [] []]; reflexivity.
Qed.

Lemma occurs_upperFirst (s : string) :
  occurs "_" (upperFirst s) = occurs "_" s.
Proof.
  destruct s as [| c s]; simpl; [reflexivity |].
  now rewrite toUpperCase_underscore.
Qed.

(** Two texts cut at their first underscore agree part by part. *)
Lemma split_at_underscore (a b c d : string) :
  occurs "_" a = false -> occurs "_" c = false ->
  a ++ String "_" b = c ++ String "_" d -> a = c /\ b = d.
Proof.
  revert c. induction a as [| x a IH]; intros [| y c] Ha Hc E; simpl in *.
  - injection E as ->. split; reflexivity.
  - injection E as <- _. rewrite Ascii.eqb_refl in Hc. discriminate.
  - injection E as -> _. rewrite Ascii.eqb_refl in Ha. discriminate.
  - injection E as -> E.
    apply orb_false_iff in Ha as [_ Ha]. apply orb_false_iff in Hc as [_ Hc].
    destruct (IH c Ha Hc E) as [-> ->]. split; reflexivity.
Qed.

Lemma occurs_append (a b : string) :
  occurs "_" (a ++ String "_" b) = true.
Proof.
  induction a as [| x a IH]; simpl; [reflexivity |].
  rewrite IH. apply orb_true_r.
Qed.

(** Two texts cut at their last underscore agree part by part. *)
Lemma split_at_last_underscore (a b c d : string) :
  occurs "_" b = false -> occurs "_" d = false ->
  a ++ String "_" b = c ++ String "_" d -> a = c /\ b = d.
Proof.
  revert c. induction a as [| x a IH]; intros [| y c] Hb Hd E; simpl in *.
  - injection E as ->. split; reflexivity.
  - injection E as _ ->. rewrite occurs_append in Hb. discriminate.
  - injection E as _ <-. rewrite occurs_append in Hd. discriminate.
  - injection E as -> E.
    destruct (IH c Hb Hd E) as [-> ->]. split; reflexivity.
Qed.

Lemma ts_bag_emitted (field : GraphQLTypeField) (mm : ModelMap)
    (im : InterfacesMap) (um : UnionsMap) :
  (TypeScript.renderInputArgInterface field mm im um = "" <->
   field_arguments field = []) /\
  (field_arguments field <> [] ->
   exists body,
     TypeScript.renderInputArgInterface field mm im um =
     ("
  export interface " ++ TypeScript.inputArgName field ++ " {") ++ body).
Proof.
  unfold TypeScript.renderInputArgInterface.
  destruct (field_arguments field) as [| a l]; simpl.
  - split; [tauto | congruence].
  - split; [split; discriminate |]. intros _. eexists. string_eq.
Qed.

Lemma flow_bag_emitted (type : GraphQLTypeObject) (field : GraphQLTypeField)
    (mm : ModelMap) (im : InterfacesMap) (um : UnionsMap) :
  (Flow.renderInputArgInterface type field mm im um = "" <->
   field_arguments field = []) /\
  (field_arguments field <> [] ->
   exists body,
     Flow.renderInputArgInterface type field mm im um =
     ("
  export interface " ++ Flow.getInputArgName type field ++ " {") ++ body).
Proof.
  unfold Flow.renderInputArgInterface.
  destruct (field_arguments field) as [| a l]; simpl.
  - split; [tauto | congruence].
  - split; [split; discriminate |]. intros _. eexists. string_eq.
Qed.

Lemma argsTypeOf_cases (field : GraphQLTypeField) (bag : string) :
  argsTypeOf field bag =
  match field_arguments field with
  | [] => "{}"
  | _ :: _ => bag
  end.
Proof. unfold argsTypeOf. now destruct (field_arguments field). Qed.

Lemma ts_bag_name_inj (f1 f2 : GraphQLTypeField) :
  TypeScript.inputArgName f1 = TypeScript.inputArgName f2 <->
  upperFirst (field_name f1) = upperFirst (field_name f2).
Proof.
  unfold TypeScript.inputArgName. split; [| now intros ->].
  apply append_inv_head.
Qed.

Lemma flow_bag_name_same_owner (T1 T2 : GraphQLTypeObject)
    (f1 f2 : GraphQLTypeField) :
  upperFirst (type_name T1) = upperFirst (type_name T2) ->
  (Flow.getInputArgName T1 f1 = Flow.getInputArgName T2 f2 <->
   upperFirst (field_name f1) = upperFirst (field_name f2)).
Proof.
  unfold Flow.getInputArgName. intros ->. split; [| now intros ->].
  intros E. apply append_inv_head in E. now apply (append_inv_head "_Args_").
Qed.

Lemma flow_bag_name_inj (T1 T2 : GraphQLTypeObject) (f1 f2 : GraphQLTypeField) :
  occurs "_" (type_name T1) = false -> occurs "_" (type_name T2) = false ->
  (Flow.getInputArgName T1 f1 = Flow.getInputArgName T2 f2 <->
   upperFirst (type_name T1) = upperFirst (type_name T2) /\
   upperFirst (field_name f1) = upperFirst (field_name f2)).
Proof.
  intros U1 U2. unfold Flow.getInputArgName. split; [| now intros [-> ->]].
  intros E. rewrite <- occurs_upperFirst in U1, U2.
  apply (split_at_underscore _ _ _ _ U1 U2) in E as [E1 E2].
  split; [assumption |]. now apply (append_inv_head "Args_").
Qed.

Lemma flow_bag_name_inj_fields (T1 T2 : GraphQLTypeObject)
    (f1 f2 : GraphQLTypeField) :
  occurs "_" (field_name f1) = false -> occurs "_" (field_name f2) = false ->
  (Flow.getInputArgName T1 f1 = Flow.getInputArgName T2 f2 <->
   upperFirst (type_name T1) = upperFirst (type_name T2) /\
   upperFirst (field_name f1) = upperFirst (field_name f2)).
Proof.
  intros U1 U2. unfold Flow.getInputArgName. split; [| now intros [-> ->]].
  intros E. rewrite <- occurs_upperFirst in U1, U2.
  change (upperFirst (type_name T1) ++ "_Args_" ++ upperFirst (field_name f1))
    with (upperFirst (type_name T1) ++ "_Args" ++
          String "_" (upperFirst (field_name f1))) in E.
  change (upperFirst (type_name T2) ++ "_Args_" ++ upperFirst (field_name f2))
    with (upperFirst (type_name T2) ++ "_Args" ++
          String "_" (upperFirst (field_name f2))) in E.
  rewrite <- !append_assoc in E.
  apply (split_at_last_underscore _ _ _ _ U1 U2) in E as [E1 E2].
  split; [| assumption]. exact (append_inv_tail _ _ _ E1).
Qed.

Lemma ts_resolver_args (field : GraphQLTypeField) (type : GraphQLTypeObject)
    (mm : ModelMap) (im : InterfacesMap) (um : UnionsMap)
    (context : option ContextDefinition) :
  contains ("args: " ++ argsTypeOf field (TypeScript.inputArgName field) ++ ",")
    (TypeScript.renderResolverFunctionInterface field type mm im um context).
Proof.
  assert (Hc : forall parent,
            contains
              ("args: " ++ argsTypeOf field (TypeScript.inputArgName field) ++ ",")
              (TypeScript.resolverDefinition parent field context)).
  { intros parent. unfold TypeScript.resolverDefinition.
    exists ("
  (
    parent: " ++ parent ++ ",
    "), ("
    ctx: " ++ getContextName context ++ ",
    info: GraphQLResolveInfo,
  )
  "). string_eq. }
  unfold TypeScript.renderResolverFunctionInterface. cbv zeta.
  destruct (String.eqb (type_name type) "Subscription");
    find_part (Hc (getModelName (type_type type) mm (Some "undefined"))).
Qed.

Lemma flow_resolver_args (field : GraphQLTypeField) (type : GraphQLTypeObject)
    (mm : ModelMap) (im : InterfacesMap) (um : UnionsMap)
    (context : option ContextDefinition) :
  contains ("args: " ++ argsTypeOf field (Flow.getInputArgName type field) ++ ",")
    (Flow.renderResolverFunctionInterface field type mm im um context).
Proof.
  assert (Hc : contains
            ("args: " ++ argsTypeOf field (Flow.getInputArgName type field) ++ ",")
            (flowSignature type field mm context "
  ")).
  { unfold flowSignature.
    exists ("
  (
    parent: " ++ getModelName (type_type type) mm None ++ ",
    "), ("
    ctx: " ++ getContextName context ++ ",
    info: GraphQLResolveInfo,
  )
  "). string_eq. }
  unfold Flow.renderResolverFunctionInterface. cbv zeta.
  destruct (String.eqb (type_name type) "Subscription"); find_part Hc.
Qed.

(** C4 (amended).  In both dialects the argument bag of a field is
    declared exactly when the field has at least one argument, and the
    resolver of a field without arguments takes the empty-object type.
    The name of the bag is a function of the capitalised names: in the
    TypeScript dialect two bags of one namespace have the same name exactly
    when the capitalised field names agree; in the Flow dialect two bags
    of one owner likewise, and two bags whose owners' names, or whose
    fields' names, hold no underscore have the same name exactly when the
    capitalised type names and the capitalised field names agree. *)
Theorem C4_argument_bags
    (T1 T2 : GraphQLTypeObject) (f1 f2 : GraphQLTypeField)
    (mm : ModelMap) (im : InterfacesMap) (um : UnionsMap) :
  ((TypeScript.renderInputArgInterface f1 mm im um = "" <->
    field_arguments f1 = []) /\
   (field_arguments f1 <> [] ->
    exists body,
      TypeScript.renderInputArgInterface f1 mm im um =
      ("
  export interface " ++ TypeScript.inputArgName f1 ++ " {") ++ body)) /\
  ((Flow.renderInputArgInterface T1 f1 mm im um = "" <->
    field_arguments f1 = []) /\
   (field_arguments f1 <> [] ->
    exists body,
      Flow.renderInputArgInterface T1 f1 mm im um =
      ("
  export interface " ++ Flow.getInputArgName T1 f1 ++ " {") ++ body)) /\
  (forall context,
     contains
       ("args: " ++ match field_arguments f1 with
                    | [] => "{}"
                    | _ :: _ => TypeScript.inputArgName f1
                    end ++ ",")
       (TypeScript.renderResolverFunctionInterface f1 T1 mm im um context) /\
     contains
       ("args: " ++ match field_arguments f1 with
                    | [] => "{}"
                    | _ :: _ => Flow.getInputArgName T1 f1
                    end ++ ",")
       (Flow.renderResolverFunctionInterface f1 T1 mm im um context)) /\
  (TypeScript.inputArgName f1 = TypeScript.inputArgName f2 <->
   upperFirst (field_name f1) = upperFirst (field_name f2)) /\
  (upperFirst (type_name T1) = upperFirst (type_name T2) ->
   (Flow.getInputArgName T1 f1 = Flow.getInputArgName T2 f2 <->
    upperFirst (field_name f1) = upperFirst (field_name f2))) /\
  ((occurs "_" (type_name T1) = false /\ occurs "_" (type_name T2) = false) \/
   (occurs "_" (field_name f1) = false /\ occurs "_" (field_name f2) = false) ->
   (Flow.getInputArgName T1 f1 = Flow.getInputArgName T2 f2 <->
    upperFirst (type_name T1) = upperFirst (type_name T2) /\
    upperFirst (field_name f1) = upperFirst (field_name f2))).
Proof.
  split; [apply ts_bag_emitted |].
  split; [apply flow_bag_emitted |].
  split.
  { intros context. rewrite <- !argsTypeOf_cases.
    split; [apply ts_resolver_args | apply flow_resolver_args]. }
  split; [apply ts_bag_name_inj |].
  split; [apply flow_bag_name_same_owner |].
  intros [[U1 U2] | [U1 U2]];
    [now apply flow_bag_name_inj | now apply flow_bag_name_inj_fields].
Qed.

End ArgumentBags.

Example replace_first_occurrence :
  replace ": " ": Query_" "where: Filter: x" = "where: Query_Filter: x".
Proof. reflexivity. Qed.

Example flow_bag_of_users :
  Flow.renderInputArgInterface (H := Sample.common) Examples.mutation
    Examples.deleteUser [] [] []
  = "
  export interface Mutation_Args_DeleteUser {
    ID | null
  }
  ".
Proof. reflexivity. Qed.

(** C4, as stated, fails in both dialects.  The fields [user] and [User]
    of one type are distinct, both have an argument, and their argument
    bags are declared under one name.  In the Flow dialect the bag of the
    field [b] of the type [Query_Args_A] and the bag of the field
    [a_Args_B] of the type [Query] have one name, though the names of the
    types and of the fields differ after capitalisation.  And the name of
    a bag is not unique in the output: in the block of
    [Query { user(where: Args_User, also: ArgsUser) }] the Flow dialect
    declares [Query_Args_User] for the bag and for the input type
    [Args_User], and the TypeScript dialect declares [ArgsUser] for the
    bag and for the input type [ArgsUser]. *)
Lemma C4_bag_names_collide :
  (NoDup (map field_name (type_fields CaseVariants.query)) /\
   In CaseVariants.lowerField (type_fields CaseVariants.query) /\
   In CaseVariants.upperField (type_fields CaseVariants.query) /\
   field_arguments CaseVariants.lowerField <> [] /\
   field_arguments CaseVariants.upperField <> [] /\
   Flow.getInputArgName CaseVariants.query CaseVariants.lowerField
     = "Query_Args_User" /\
   Flow.getInputArgName CaseVariants.query CaseVariants.upperField
     = "Query_Args_User" /\
   TypeScript.inputArgName CaseVariants.lowerField = "ArgsUser" /\
   TypeScript.inputArgName CaseVariants.upperField = "ArgsUser" /\
   Flow.renderInputArgInterface (H := Sample.common) CaseVariants.query
     CaseVariants.lowerField [] [] [] =
   Flow.renderInputArgInterface (H := Sample.common) CaseVariants.query
     CaseVariants.upperField [] [] [] /\
   TypeScript.renderInputArgInterface (H := Sample.common)
     CaseVariants.lowerField [] [] [] =
   TypeScript.renderInputArgInterface (H := Sample.common)
     CaseVariants.upperField [] [] []) /\
  (upperFirst (type_name BagNames.leftOwner) <>
   upperFirst (type_name BagNames.rightOwner) /\
   upperFirst (field_name BagNames.leftField) <>
   upperFirst (field_name BagNames.rightField) /\
   field_arguments BagNames.leftField <> [] /\
   field_arguments BagNames.rightField <> [] /\
   Flow.getInputArgName BagNames.leftOwner BagNames.leftField
     = "Query_Args_A_Args_B" /\
   Flow.getInputArgName BagNames.rightOwner BagNames.rightField
     = "Query_Args_A_Args_B") /\
  (NoDup (map type_name (types BagNames.schema)) /\
   Flow.getInputArgName BagNames.query BagNames.user = "Query_Args_User" /\
   contains "export interface Query_Args_User {"
     (Flow.renderInputArgInterface (H := Sample.common) BagNames.query
        BagNames.user [] [] []) /\
   (exists block,
      Flow.renderInputTypeInterfaces (H := Sample.common) BagNames.query
        [] [] [] (typeToInputTypeAssociationOf BagNames.schema)
        (inputTypesMapOf BagNames.schema) = Some block /\
      contains "export interface Query_Args_User {" block) /\
   TypeScript.inputArgName BagNames.user = "ArgsUser" /\
   contains "export interface ArgsUser {"
     (TypeScript.renderInputArgInterface (H := Sample.common) BagNames.user
        [] [] []) /\
   (exists block,
      TypeScript.renderInputTypeInterfaces (H := Sample.common) BagNames.query
        [] [] [] (typeToInputTypeAssociationOf BagNames.schema)
        (inputTypesMapOf BagNames.schema) = Some block /\
      contains "export interface ArgsUser {" block)).
Proof.
  split; [| split].
  - split; [simpl; distinct_names |].
    split; [simpl; tauto |]. split; [simpl; tauto |].
    repeat split; (discriminate || reflexivity).
  - repeat split; (discriminate || reflexivity).
  - split; [simpl; distinct_names |].
    split; [reflexivity |].
    split; [apply includesText_contains; vm_compute; reflexivity |].
    split.
    { eexists. split; [reflexivity |].
      apply includesText_contains. vm_compute. reflexivity. }
    split; [reflexivity |].
    split; [apply includesText_contains; vm_compute; reflexivity |].
    eexists. split; [reflexivity |].
    apply includesText_contains. vm_compute. reflexivity.
Qed.

Lemma C4_argument_bags_witness :
  Flow.getInputArgName Examples.query Examples.users <>
  Flow.getInputArgName Examples.mutation Examples.createUser /\
  exists body,
    Flow.renderInputArgInterface (H := Sample.common) Examples.query
      Examples.users [] [] [] =
    ("
  export interface " ++ "Query_Args_Users" ++ " {") ++ body.
Proof.
  pose proof (C4_argument_bags (H := Sample.common) Examples.query
                Examples.mutation Examples.users Examples.createUser [] [] [])
    as (_ & (_ & Hflow) & _ & _ & _ & Hinj).
  split.
  - intros E. apply Hinj in E as [E _]; [discriminate |].
    left. split; reflexivity.
  - apply Hflow. discriminate.
Defined.

(* ================================================================= *)
(** * The aggregate resolver map *)

Section AggregateResolverMap.

Lemma ts_entries (args : GenerateArgs) :
  TypeScript.resolversEntries args = map printEntry (resolverMap tsShapeOf args).
Proof.
  unfold TypeScript.resolversEntries, resolverMap.
  rewrite !map_app, !map_map. reflexivity.
Qed.

Lemma flow_entries (args : GenerateArgs) :
  Flow.resolversEntries args = map printEntry (resolverMap flowShapeOf args).
Proof.
  unfold Flow.resolversEntries, resolverMap.
  rewrite !map_app, !map_map. reflexivity.
Qed.

Lemma resolverMap_length (shapeOf : string -> string) (args : GenerateArgs) :
  length (resolverMap shapeOf args) =
  length (filter (fun t => isObject (type_type t)) (types args)) +
  length (interfaces args) + length (unions args).
Proof.
  unfold resolverMap. rewrite !length_app, !length_map. lia.
Qed.

(** C5.  In both dialects the aggregate declaration lists exactly the
    entries of [resolverMap]: one required entry per object type, mapping
    its name to its resolver-shape declaration, then one optional entry per
    interface and one per union. *)
Theorem C5_aggregate_resolver_map (args : GenerateArgs) :
  TypeScript.renderResolvers args =
  "export interface Resolvers {
  " ++ join EOL (map printEntry (resolverMap tsShapeOf args)) ++ "
}
  " /\
  Flow.renderResolvers args =
  "
export interface Resolvers {
  " ++ join ("," ++ EOL) (map printEntry (resolverMap flowShapeOf args)) ++ "
}
  " /\
  length (resolverMap tsShapeOf args) =
    length (filter (fun t => isObject (type_type t)) (types args)) +
    length (interfaces args) + length (unions args) /\
  length (resolverMap flowShapeOf args) =
    length (filter (fun t => isObject (type_type t)) (types args)) +
    length (interfaces args) + length (unions args).
Proof.
  split; [unfold TypeScript.renderResolvers; now rewrite ts_entries |].
  split; [unfold Flow.renderResolvers; now rewrite flow_entries |].
  split; apply resolverMap_length.
Qed.

Example resolver_map_of_schema :
  map printEntry (resolverMap tsShapeOf (Examples.schema true)) =
  [ "Query: QueryResolvers.Type"; "Mutation: MutationResolvers.Type";
    "User: UserResolvers.Type"; "Post: PostResolvers.Type" ].
Proof. reflexivity. Qed.

End AggregateResolverMap.

(* ================================================================= *)
(** * Resolvers of an interface *)

Section InterfaceResolvers.
Context `{Common}.

Lemma interface_lookup (args : GenerateArgs) (i : GraphQLInterfaceObject) :
  NoDup (map int_name (interfaces args)) -> In i (interfaces args) ->
  get (interfacesMapOf args) (int_name i) = Some (int_types i).
Proof.
  intros ND HIn. unfold interfacesMapOf.
  now apply (build_get int_name int_types).
Qed.

Lemma signature_parent (parent : string) (field : GraphQLTypeField)
    (context : option ContextDefinition) :
  contains ("parent: " ++ parent ++ ",")
    (TypeScript.resolverDefinition parent field context).
Proof.
  unfold TypeScript.resolverDefinition.
  eexists "
  (
    ", _. string_eq.
Qed.

Lemma interface_function (parent : string) (field : GraphQLTypeField)
    (type : GraphQLTypeObject) (mm : ModelMap) (im : InterfacesMap)
    (um : UnionsMap) (context : option ContextDefinition) :
  TypeScript.parentType type mm im = Some parent ->
  exists decl,
    TypeScript.renderResolverTypeInterfaceFunction field type mm im um context
      = Some decl /\
    contains ("parent: " ++ parent ++ ",") decl.
Proof.
  intros E. unfold TypeScript.renderResolverTypeInterfaceFunction.
  rewrite E. cbn [bind].
  pose proof (signature_parent parent field context) as Hc.
  destruct (String.eqb (type_name type) "Subscription");
    (eexists; split; [reflexivity | find_part Hc]).
Qed.

(** C6 (amended).  In the TypeScript dialect, for an interface of a schema
    with unique interface names, the parent type of every resolver of the
    interface is the union of the model names of the types that implement
    it, each resolved with the fallback [undefined] (the model of the
    interface itself is not read), and the [__resolveType] binding of the
    interface ranges over the union of the model names of the same
    implementers, in the same order, each resolved with the default
    fallback; the two unions are the same text whenever the model name of
    no implementer depends on the fallback. *)
Theorem C6_interface_parent_union
    (args : GenerateArgs) (i : GraphQLInterfaceObject) :
  NoDup (map int_name (interfaces args)) ->
  In i (interfaces args) ->
  isInterface (int_type i) = true ->
  TypeScript.parentType (interfaceAsType i) (modelMap args) (interfacesMapOf args)
    = Some (unionOfModels (int_types i) (modelMap args) (Some "undefined")) /\
  (forall field,
     exists decl,
       TypeScript.renderResolverTypeInterfaceFunction field (interfaceAsType i)
         (modelMap args) (interfacesMapOf args) (unionsMapOf args) (context args)
         = Some decl /\
       contains
         ("parent: " ++
          unionOfModels (int_types i) (modelMap args) (Some "undefined") ++ ",")
         decl) /\
  (exists out,
     TypeScript.renderInterfaceNamespace i (interfacesMapOf args)
       (unionsMapOf args) args = Some out /\
     contains
       ("__resolveType: GraphQLTypeResolver<" ++
        unionOfModels (int_types i) (modelMap args) None ++ ", " ++
        getContextName (context args) ++ ">;")
       out) /\
  ((forall t, In t (int_types i) ->
              getModelName t (modelMap args) (Some "undefined") =
              getModelName t (modelMap args) None) ->
   unionOfModels (int_types i) (modelMap args) (Some "undefined") =
   unionOfModels (int_types i) (modelMap args) None).
Proof.
  intros ND HIn Hint.
  assert (P : TypeScript.parentType (interfaceAsType i) (modelMap args)
                (interfacesMapOf args)
              = Some (unionOfModels (int_types i) (modelMap args)
                        (Some "undefined"))).
  { unfold TypeScript.parentType. simpl. rewrite Hint.
    rewrite asObject_read, (interface_lookup args i ND HIn). reflexivity. }
  assert (F : forall field,
            exists decl,
              TypeScript.renderResolverTypeInterfaceFunction field
                (interfaceAsType i) (modelMap args) (interfacesMapOf args)
                (unionsMapOf args) (context args) = Some decl /\
              contains
                ("parent: " ++
                 unionOfModels (int_types i) (modelMap args) (Some "undefined")
                 ++ ",") decl).
  { intros field. now apply interface_function. }
  split; [exact P |]. split; [exact F |]. split.
  - destruct (mapM_total
                (fun field =>
                   TypeScript.renderResolverTypeInterfaceFunction field
                     (interfaceAsType i) (modelMap args) (interfacesMapOf args)
                     (unionsMapOf args) (context args))
                (int_fields i)) as (functions & Ef).
    { intros field _. destruct (F field) as (decl & E & _). now exists decl. }
    destruct (possible_types (interfaceAsType i) (interfacesMapOf args)
                (unionsMapOf args) (unionsMapOf_NoDup args))
      as (possible & Ep & _); [discriminate |].
    pose proof (render_isTypeOf (interfaceAsType i) (modelMap args)
                  (interfacesMapOf args) (unionsMapOf args) (context args)
                  possible Ep) as R.
    unfold TypeScript.renderInterfaceNamespace,
      TypeScript.renderResolverTypeInterface.
    simpl type_fields. simpl type_interfaces. rewrite Ef, R. cbn [bind].
    eexists. split; [reflexivity |].
    unfold TypeScript.resolveTypeUnion, unionOfModels.
    do 6 apply contains_append_r.
    exists "

      export interface Type {
        ", "
      }
    }
  ".
    string_eq.
  - intros Hsame. unfold unionOfModels. f_equal.
    now apply map_ext_in.
Qed.

End InterfaceResolvers.

Lemma C6_interface_parent_union_witness :
  TypeScript.parentType (H := Sample.common) (interfaceAsType Shapes.node)
    (modelMap Shapes.schema) (interfacesMapOf Shapes.schema)
  = Some "UserModel | PostModel".
Proof.
  destruct (C6_interface_parent_union (H := Sample.common) Shapes.schema
              Shapes.node) as (P & _).
  - vm_compute. distinct_names.
  - simpl. now left.
  - reflexivity.
  - exact P.
Defined.

Example unbound_parent :
  TypeScript.parentType (H := Sample.common) (interfaceAsType Unbound.node)
    (modelMap Unbound.schema) (interfacesMapOf Unbound.schema)
  = Some "UserModel | undefined".
Proof. reflexivity. Qed.

(** C6, as stated, fails for an interface with an implementer that is
    bound to no model: the parent type of the resolvers of [Node] is
    [UserModel | undefined], while its [__resolveType] binding is typed
    over [UserModel | {}]. *)
Lemma C6_parent_and_discriminator_differ :
  In Unbound.node (interfaces Unbound.schema) /\
  isInterface (int_type Unbound.node) = true /\
  TypeScript.parentType (H := Sample.common) (interfaceAsType Unbound.node)
    (modelMap Unbound.schema) (interfacesMapOf Unbound.schema)
  = Some (unionOfModels (H := Sample.common) (int_types Unbound.node)
            (modelMap Unbound.schema) (Some "undefined")) /\
  unionOfModels (H := Sample.common) (int_types Unbound.node)
    (modelMap Unbound.schema) (Some "undefined") = "UserModel | undefined" /\
  exists out,
    TypeScript.renderInterfaceNamespace (H := Sample.common) Unbound.node
      (interfacesMapOf Unbound.schema) (unionsMapOf Unbound.schema)
      Unbound.schema = Some out /\
    contains
      ("__resolveType: GraphQLTypeResolver<" ++
       unionOfModels (H := Sample.common) (int_types Unbound.node)
         (modelMap Unbound.schema) None ++ ", Context>;") out /\
    unionOfModels (H := Sample.common) (int_types Unbound.node)
      (modelMap Unbound.schema) None = "UserModel | {}" /\
    unionOfModels (H := Sample.common) (int_types Unbound.node)
      (modelMap Unbound.schema) None <>
    unionOfModels (H := Sample.common) (int_types Unbound.node)
      (modelMap Unbound.schema) (Some "undefined").
Proof.
  split; [simpl; now left |].
  split; [reflexivity |].
  split; [reflexivity |].
  split; [reflexivity |].
  eexists. split; [reflexivity |].
  split; [| split; [reflexivity | discriminate]].
  apply includesText_contains. vm_compute. reflexivity.
Qed.

(* ================================================================= *)
(** * The default-resolver bundle *)

Section DefaultResolvers.
Context `{Common}.

(** With synthesis enabled, a field without arguments whose name is a
    property of the bound model is part of the bundle of its type. *)
Lemma default_resolver_included (type : GraphQLTypeObject)
    (args : GenerateArgs) (model : Model) (field : GraphQLTypeField)
    (variableName : string) :
  get (modelMap args) (type_name type) = Some model ->
  In field (type_fields type) ->
  field_arguments field = [] ->
  In (field_name field) (def_properties (definition model)) ->
  In field (defaultResolverFields type args) /\
  contains (renderDefaultResolver field model)
    (renderDefaultResolvers type args variableName).
Proof.
  intros G Hf Hargs Hprop.
  assert (Hin : In field (defaultResolverFields type args)).
  { unfold defaultResolverFields. rewrite G. apply filter_In.
    split; [assumption |]. unfold shouldRenderDefaultResolver.
    rewrite Hargs. simpl. apply existsb_exists.
    exists (field_name field). split; [assumption | apply String.eqb_refl]. }
  split; [assumption |].
  unfold renderDefaultResolvers. rewrite G.
  assert (Hc : contains (renderDefaultResolver field model)
                 (join EOL (map (fun f => renderDefaultResolver f model)
                                (defaultResolverFields type args)))).
  { apply contains_join.
    apply (in_map (fun f => renderDefaultResolver f model)). exact Hin. }
  find_part Hc.
Qed.

(** A field with arguments is never part of the bundle. *)
Lemma default_resolver_excluded (type : GraphQLTypeObject)
    (args : GenerateArgs) (field : GraphQLTypeField) :
  In field (defaultResolverFields type args) -> field_arguments field = [].
Proof.
  unfold defaultResolverFields.
  destruct (get (modelMap args) (type_name type)) as [model |]; [| intros []].
  intros Hin. apply filter_In in Hin as [_ Hs].
  unfold shouldRenderDefaultResolver in Hs.
  apply andb_true_iff in Hs as [Hl _].
  destruct (field_arguments field); [reflexivity | discriminate].
Qed.

(** The Flow generator emits the bundle of a type when synthesis is
    enabled, and leaves its place empty when it is disabled. *)
Lemma flow_bundle_gated (type : GraphQLTypeObject) (im : InterfacesMap)
    (um : UnionsMap) (assoc : TypeToInputTypeAssociation)
    (registry : InputTypesMap) (args : GenerateArgs)
    (inputTypeInterfaces : string) :
  Flow.renderInputTypeInterfaces type (modelMap args) im um assoc registry
    = Some inputTypeInterfaces ->
  exists rest,
    Flow.renderNamespace type im um assoc registry args =
    Some ("    // Types for " ++ upperFirst (type_name type) ++ "
    " ++ (if defaultResolversEnabled args
          then renderDefaultResolvers type args
                 (upperFirst (type_name type) ++ "_defaultResolvers")
          else "") ++ rest) /\
    forall enabled,
      Flow.renderNamespace type im um assoc registry
        (withDefaultResolvers args enabled) =
      Some ("    // Types for " ++ upperFirst (type_name type) ++ "
    " ++ (if enabled
          then renderDefaultResolvers type args
                 (upperFirst (type_name type) ++ "_defaultResolvers")
          else "") ++ rest).
Proof.
  intros E. unfold Flow.renderNamespace. simpl modelMap. simpl context.
  rewrite E. cbn [bind]. eexists. split; [reflexivity |].
  intros enabled. reflexivity.
Qed.

(** The TypeScript generator does not read the flag: the namespace of a
    type is the same text whether synthesis is enabled or not. *)
Lemma ts_namespace_ignores_flag (type : GraphQLTypeObject)
    (im : InterfacesMap) (um : UnionsMap) (assoc : TypeToInputTypeAssociation)
    (registry : InputTypesMap) (args : GenerateArgs) (enabled : bool) :
  TypeScript.renderNamespace type im um assoc registry
    (withDefaultResolvers args enabled) =
  TypeScript.renderNamespace type im um assoc registry args.
Proof. reflexivity. Qed.

End DefaultResolvers.

(** C7 at a failing input.  For the object type [User] of the example
    schema, bound to a model with the properties [id] and [name], and with
    default-resolver synthesis disabled: the Flow generator leaves the place
    of the bundle empty, and the TypeScript generator emits the bundle
    [defaultResolvers] with both fields all the same. *)
Theorem C7_typescript_bundle_when_disabled :
  defaultResolversEnabled (Examples.schema false) = false /\
  (exists rest,
     Flow.renderNamespace (H := Sample.common) Examples.user [] []
       (typeToInputTypeAssociationOf (Examples.schema false))
       (inputTypesMapOf (Examples.schema false)) (Examples.schema false)
     = Some ("    // Types for User
    " ++ "" ++ "

    " ++ rest)) /\
  (exists before rest,
     TypeScript.renderNamespace (H := Sample.common) Examples.user [] []
       (typeToInputTypeAssociationOf (Examples.schema false))
       (inputTypesMapOf (Examples.schema false)) (Examples.schema false)
     = Some (before ++ "export const defaultResolvers = {
id: (parent: UserModel) => parent.id,
name: (parent: UserModel) => parent.name,
}" ++ rest)).
Proof.
  split; [reflexivity |]. split.
  - eexists. vm_compute. reflexivity.
  - exists "    export namespace UserResolvers {

    ". eexists. vm_compute. reflexivity.
Qed.

(* ================================================================= *)
(** * Failure of the external formatter *)

Section FormatFailure.
Context `{Common} `{Prettier}.

(** C8.  When the external formatter throws on the generated text, each
    of the two [format] functions returns that text unchanged and writes one
    diagnostic; the failure does not leave the function. *)
Theorem C8_format_failure_recovered
    (code : string) (options : Obj string) (e : PrettierError) :
  (prettier_format code (set options "parser" "typescript") = inr e ->
   TypeScript.format code options = (code, [formatDiagnostic e])) /\
  (prettier_format code (set options "parser" "flow") = inr e ->
   Flow.format code options = (code, [formatDiagnostic e])).
Proof.
  split; intros E.
  - unfold TypeScript.format. now rewrite E.
  - unfold Flow.format. now rewrite E.
Qed.

(** Otherwise the formatted text is returned and nothing is written. *)
Lemma format_success (code formatted : string) (options : Obj string) :
  prettier_format code (set options "parser" "typescript") = inl formatted ->
  TypeScript.format code options = (formatted, []).
Proof. intros E. unfold TypeScript.format. now rewrite E. Qed.

End FormatFailure.

Lemma C8_format_failure_recovered_witness :
  TypeScript.format (H0 := Sample.prettier) "{" [] =
    ("{", ["There is a syntax error in generated code, unformatted code printed, error: {}"]) /\
  Flow.format (H0 := Sample.prettier) "{" [] =
    ("{", ["There is a syntax error in generated code, unformatted code printed, error: {}"]).
Proof.
  destruct (C8_format_failure_recovered (H0 := Sample.prettier) "{" []
              "SyntaxError") as [T F].
  split; [apply T | apply F]; reflexivity.
Defined.

(* ================================================================= *)
(** * Imports of the TypeScript header *)

Section ObjectEntries.
Context {V : Type}.

Lemma mapM_get_incl (o l : Obj V) :
  NoDup (keys o) -> incl l o ->
  mapM (fun k => get o k) (keys l) = Some (map snd l).
Proof.
  intros ND. induction l as [| [k v] l IH]; intros Hincl; simpl; [reflexivity |].
  rewrite (In_get o k v ND) by (apply Hincl; now left). simpl.
  rewrite IH by (intros x Hx; apply Hincl; now right). reflexivity.
Qed.

Lemma filterM_get_incl (o l : Obj V) (p : V -> bool) :
  NoDup (keys o) -> incl l o ->
  filterM (fun k => v <- get o k ;; Some (p v)) (keys l) =
  Some (keys (filter (fun kv => p (snd kv)) l)).
Proof.
  intros ND. induction l as [| [k v] l IH]; intros Hincl; simpl; [reflexivity |].
  rewrite (In_get o k v ND) by (apply Hincl; now left). simpl.
  rewrite IH by (intros x Hx; apply Hincl; now right). simpl.
  now destruct (p v).
Qed.

Lemma map_snd_filter (l : Obj V) (p : V -> bool) :
  map snd (filter (fun kv => p (snd kv)) l) = filter p (map snd l).
Proof.
  induction l as [| [k v] l IH]; simpl; [reflexivity |].
  destruct (p v); simpl; now rewrite IH.
Qed.

End ObjectEntries.

Section HeaderImports.
Context `{Common}.

Lemma models_to_import (args : GenerateArgs) :
  NoDup (keys (modelMap args)) ->
  TypeScript.modelsToImport args =
  Some (filter (fun m => negb (TypeScript.isEnumAlias m))
               (map snd (modelMap args))).
Proof.
  intros ND. unfold TypeScript.modelsToImport.
  rewrite (filterM_get_incl (modelMap args) (modelMap args)
             (fun m => negb (TypeScript.isEnumAlias m)) ND (incl_refl _)).
  cbn [bind]. rewrite mapM_get_incl; [| assumption | apply incl_filter].
  f_equal. apply (map_snd_filter (modelMap args)
                     (fun m => negb (TypeScript.isEnumAlias m))).
Qed.

Lemma render_imports (groups : Obj (list string)) :
  NoDup (keys groups) ->
  mapM (TypeScript.renderImport groups) (keys groups) = Some (map tsImport groups).
Proof.
  intros ND.
  assert (G : forall l, incl l groups ->
              mapM (TypeScript.renderImport groups) (keys l) =
              Some (map tsImport l)).
  { induction l as [| [p names] l IH]; intros Hincl; simpl; [reflexivity |].
    unfold TypeScript.renderImport at 1.
    rewrite (In_get groups p names ND) by (apply Hincl; now left). simpl.
    rewrite IH by (intros x Hx; apply Hincl; now right). reflexivity. }
  apply G, incl_refl.
Qed.

(** C9.  In the TypeScript dialect, when [groupModelsNameByImportPath]
    meets its contract, the header imports the models of the model map that
    are not type aliases marked as enums, and no others: there is one
    import statement per import path of these models, and a name is listed
    under a path exactly when it is the name of one of these models with
    that path. *)
Theorem C9_header_imports (args : GenerateArgs) :
  groups_by_import_path groupModelsNameByImportPath ->
  NoDup (keys (modelMap args)) ->
  exists groups,
    groups =
      groupModelsNameByImportPath
        (filter (fun m => negb (TypeScript.isEnumAlias m))
                (map snd (modelMap args))) /\
    TypeScript.renderHeader args =
      Some ("
// Code generated by github.com/prisma/graphqlgen, DO NOT EDIT.

import { GraphQLResolveInfo, GraphQLTypeResolver, GraphQLIsTypeOfFn } from 'graphql'
" ++ join EOL (map tsImport groups) ++ "
" ++ TypeScript.renderContext (context args) ++ "
  ") /\
    NoDup (keys groups) /\
    forall p n,
      (exists names, In (p, names) groups /\ In n names) <->
      (exists k m,
         In (k, m) (modelMap args) /\ TypeScript.isEnumAlias m = false /\
         importPath m = p /\ def_name (definition m) = n).
Proof.
  intros Hgroup ND. eexists. split; [reflexivity |].
  destruct (Hgroup (filter (fun m => negb (TypeScript.isEnumAlias m))
                           (map snd (modelMap args)))) as [NDg Hnames].
  split; [| split; [exact NDg |]].
  - unfold TypeScript.renderHeader.
    rewrite (models_to_import args ND). cbn [bind].
    rewrite (render_imports _ NDg). reflexivity.
  - intros p n. rewrite Hnames. split.
    + intros (m & Hm & Ep & En). apply filter_In in Hm as [Hm Ha].
      apply in_map_iff in Hm as ([k m'] & E & Hin). simpl in E. subst m'.
      exists k, m. apply negb_true_iff in Ha. tauto.
    + intros (k & m & Hin & Ha & Ep & En). exists m.
      split; [| tauto]. apply filter_In. split.
      * apply in_map_iff. now exists (k, m).
      * now apply negb_true_iff.
Qed.

End HeaderImports.

(** The sample grouping meets the contract. *)
Section SampleGrouping.

Let invariant (acc : Obj (list string)) (seen : list Model) : Prop :=
  NoDup (keys acc) /\
  forall p n,
    (exists names, In (p, names) acc /\ In n names) <->
    (exists m, In m seen /\ importPath m = p /\ def_name (definition m) = n).

Lemma In_set {V} (o : Obj V) (k : string) (v : V) (k' : string) (v' : V) :
  NoDup (keys o) ->
  (In (k', v') (set o k v) <-> (k' = k /\ v' = v) \/ (k' <> k /\ In (k', v') o)).
Proof.
  intros ND. split.
  - intros HIn. pose proof (NoDup_keys_set o k v ND) as ND'.
    apply (In_get _ _ _ ND') in HIn.
    destruct (String.eqb_spec k' k) as [-> | N].
    + rewrite get_set_same in HIn. injection HIn as <-. now left.
    + rewrite get_set_other in HIn by assumption. right.
      split; [assumption | now apply get_In].
  - intros [[-> ->] | [N HIn]]; apply get_In.
    + apply get_set_same.
    + rewrite get_set_other by assumption. now apply In_get.
Qed.

Lemma groupStep_invariant (acc : Obj (list string)) (seen : list Model)
    (model : Model) :
  invariant acc seen -> invariant (Sample.groupStep acc model) (seen ++ [model]).
Proof.
  intros [ND Hacc]. unfold Sample.groupStep.
  set (fileModels := match get acc (importPath model) with
                     | Some names => names
                     | None => []
                     end).
  set (updated := if existsb (String.eqb (def_name (definition model))) fileModels
                  then fileModels
                  else (fileModels ++ [def_name (definition model)])%list).
  assert (Hupdated : forall n, In n updated <->
                               In n fileModels \/ n = def_name (definition model)).
  { intros n. unfold updated.
    destruct (existsb (String.eqb (def_name (definition model))) fileModels) eqn:E.
    - split; [tauto |]. intros [Hn | ->]; [assumption |].
      apply existsb_exists in E as (x & Hx & Ex).
      apply String.eqb_eq in Ex. now subst x.
    - rewrite in_app_iff. simpl. intuition. }
  assert (Hfile : forall n, In n fileModels <->
                            exists names, In (importPath model, names) acc /\
                                          In n names).
  { intros n. unfold fileModels.
    destruct (get acc (importPath model)) as [names |] eqn:G.
    - split.
      + intros Hn. exists names. split; [now apply get_In | assumption].
      + intros (names' & Hin & Hn). apply (In_get _ _ _ ND) in Hin. congruence.
    - split; [intros [] |]. intros (names' & Hin & _).
      apply (In_get _ _ _ ND) in Hin. congruence. }
  split; [now apply NoDup_keys_set |].
  intros p n. split.
  - intros (names & Hin & Hn). apply In_set in Hin; [| assumption].
    destruct Hin as [[-> ->] | [N Hin]].
    + apply Hupdated in Hn as [Hn | ->].
      * apply Hfile, Hacc in Hn as (m & Hm & Ep & En).
        exists m. split; [apply in_or_app; now left | tauto].
      * exists model. split; [apply in_or_app; right; now left | tauto].
    + destruct (proj1 (Hacc p n)) as (m & Hm & Ep & En); [now exists names |].
      exists m. split; [apply in_or_app; now left | tauto].
  - intros (m & Hm & Ep & En). apply in_app_or in Hm as [Hm | [-> | []]].
    + destruct (proj2 (Hacc p n)) as (names & Hin & Hn); [now exists m |].
      destruct (String.eqb_spec p (importPath model)) as [-> | N].
      * exists updated. split.
        -- apply In_set; [assumption |]. now left.
        -- apply Hupdated. left. apply Hfile. now exists names.
      * exists names. split; [| assumption].
        apply In_set; [assumption |]. now right.
    + subst p n. exists updated. split.
      * apply In_set; [assumption |]. now left.
      * apply Hupdated. now right.
Qed.

Lemma sample_grouping : groups_by_import_path Sample.groupModels.
Proof.
  intros models. unfold Sample.groupModels.
  assert (G : forall l acc seen,
              invariant acc seen -> invariant (fold_left Sample.groupStep l acc)
                                      (seen ++ l)).
  { induction l as [| m l IH]; intros acc seen Hinv; simpl.
    - now rewrite app_nil_r.
    - replace (seen ++ m :: l)%list with ((seen ++ [m]) ++ l)%list
        by (rewrite <- app_assoc; reflexivity).
      apply IH. now apply groupStep_invariant. }
  apply (G models [] []). split; [constructor |].
  intros p n. split; [intros (_ & [] & _) | intros (_ & [] & _)].
Qed.

End SampleGrouping.

Example imports_of_schema :
  Sample.groupModels
    (filter (fun m => negb (TypeScript.isEnumAlias m))
            (map snd Examples.models))
  = [ ("./models", ["UserModel"; "PostModel"]) ].
Proof. reflexivity. Qed.

Lemma C9_header_imports_witness :
  exists groups,
    groups = [ ("./models", ["UserModel"; "PostModel"]) ] /\
    TypeScript.renderHeader (H := Sample.common) (Examples.schema true) =
      Some ("
// Code generated by github.com/prisma/graphqlgen, DO NOT EDIT.

import { GraphQLResolveInfo, GraphQLTypeResolver, GraphQLIsTypeOfFn } from 'graphql'
" ++ join EOL (map tsImport groups) ++ "
" ++ TypeScript.renderContext (H := Sample.common) None ++ "
  ").
Proof.
  destruct (C9_header_imports (H := Sample.common) (Examples.schema true))
    as (groups & Eg & Eh & _).
  - exact sample_grouping.
  - vm_compute. distinct_names.
  - exists groups. split; [exact Eg | exact Eh].
Defined.

(* ================================================================= *)
(** * Whole runs *)

(** Both generators run to the end on the example schemas. *)
Example typescript_generate_runs :
  exists out, TypeScript.generate (H := Sample.common) Shapes.schema = Some out.
Proof. eexists. vm_compute. reflexivity. Qed.

Example flow_generate_runs :
  exists out,
    Flow.generate (H := Sample.common) (Examples.schema true) = Some out.
Proof. eexists. vm_compute. reflexivity. Qed.

(** A field argument of an input type that the schema does not define
    makes the TypeScript generator throw. *)
Example undefined_input_type_throws :
  TypeScript.generate (H := Sample.common)
    {| types := [ Examples.mutation ]; interfaces := []; unions := [];
       modelMap := []; context := None; defaultResolversEnabled := false |}
  = None.
Proof. reflexivity. Qed.

(* ================================================================= *)
(** * The registries as dictionaries *)

Section RegistryOrder.
Context {X V : Type} (key : X -> string) (val : X -> V).

Let build (l : list X) (init : Obj V) : Obj V :=
  fold_left (fun acc x => set acc (key x) (val x)) l init.

(** The value of a key is the one of the last element that carries it. *)
Lemma build_last (before after : list X) (x : X) (init : Obj V) :
  (forall y, In y after -> key y <> key x) ->
  get (build (before ++ x :: after) init) (key x) = Some (val x).
Proof.
  intros Hafter. unfold build. rewrite fold_left_app. simpl.
  rewrite (build_get_other key val after).
  - apply get_set_same.
  - intros HIn. apply in_map_iff in HIn as (y & Ey & Hy).
    now apply (Hafter y Hy).
Qed.

Lemma build_keys (l : list X) (init : Obj V) (k : string) :
  In k (keys (build l init)) <-> In k (map key l) \/ In k (keys init).
Proof.
  revert init. induction l as [| a l IH]; intros init; simpl.
  - tauto.
  - unfold build in *. simpl. rewrite IH, In_keys_set. intuition.
Qed.

Lemma set_fresh (o : Obj V) (k : string) (v : V) :
  ~ In k (keys o) -> set o k v = (o ++ [(k, v)])%list.
Proof.
  induction o as [| [k' v'] o IH]; simpl; intros NI; [reflexivity |].
  destruct (String.eqb_spec k' k) as [-> | N]; [tauto |].
  rewrite IH by tauto. reflexivity.
Qed.

(** Without repeated names the dictionary lists the elements in their
    order. *)
Lemma build_in_order (l : list X) (init : Obj V) :
  NoDup (map key l) ->
  (forall k, In k (map key l) -> ~ In k (keys init)) ->
  build l init = (init ++ map (fun x => (key x, val x)) l)%list.
Proof.
  revert init. induction l as [| a l IH]; intros init ND Hfresh; simpl.
  - now rewrite app_nil_r.
  - inversion ND as [| ? ? NI ND']; subst. unfold build in *. simpl.
    rewrite set_fresh by (apply Hfresh; now left).
    rewrite IH; [now rewrite <- app_assoc | assumption |].
    intros k Hk. unfold keys. rewrite map_app, in_app_iff. simpl.
    intros [Hin | [<- | []]]; [| contradiction].
    apply (Hfresh k); [now right | exact Hin].
Qed.

End RegistryOrder.

Section Registry.

(** X1.  A read of the input-type registry gives the input type filed
    under the name, and where several input types of the schema carry one
    name, the last of them; for a name that no input type of the schema
    carries, the read gives [undefined], unless the name is a member of
    [Object.prototype], which the registry inherits. *)
Theorem registry_holds_last_definition (args : GenerateArgs) :
  (forall before t after,
     types args = (before ++ t :: after)%list ->
     isInput (type_type t) = true ->
     (forall t', In t' after -> isInput (type_type t') = true ->
                 type_name t' <> type_name t) ->
     read (inputTypesMapOf args) (type_name t) = Own t) /\
  (forall n,
     (forall t, In t (types args) -> isInput (type_type t) = true ->
                type_name t <> n) ->
     ~ In n (keys (inputTypesMapOf args)) /\
     (In n prototypeKeys -> read (inputTypesMapOf args) n = Inherited) /\
     (~ In n prototypeKeys -> read (inputTypesMapOf args) n = Undefined)).
Proof.
  split.
  - intros before t after E Hin Hafter. apply read_own. unfold inputTypesMapOf.
    rewrite E, filter_app. simpl. rewrite Hin.
    apply (build_last type_name (fun x => x)).
    intros y Hy. apply filter_In in Hy as [Hy Hiy]. now apply Hafter.
  - intros n Hno.
    assert (G : get (inputTypesMapOf args) n = None).
    { unfold inputTypesMapOf.
      rewrite (build_get_other type_name (fun x => x)); [reflexivity |].
      intros HIn. apply in_map_iff in HIn as (t & Et & Ht).
      apply filter_In in Ht as [Ht Hit]. now apply (Hno t). }
    split; [now apply get_None |].
    rewrite (read_absent _ _ G). split; intros Hn.
    + apply In_prototypeKeys in Hn. now rewrite Hn.
    + now rewrite (In_prototypeKeys_false n Hn).
Qed.

(** X2.  Every entry of the association of object types with input types
    belongs to an object type of the schema that takes an input type as an
    argument, and holds its occurrences of input types: the list of an
    entry is never empty, and a type without such an argument has no
    entry. *)
Theorem association_entries (args : GenerateArgs) :
  (forall k names,
     In (k, names) (typeToInputTypeAssociationOf args) ->
     names <> [] /\
     exists type,
       In type (types args) /\ type_name type = k /\
       isObject (type_type type) = true /\
       names = associatedInputTypes type) /\
  (forall k,
     In k (keys (typeToInputTypeAssociationOf args)) <->
     exists type,
       In type (types args) /\ type_name type = k /\
       isObject (type_type type) = true /\
       exists n, reachableInputType type n).
Proof.
  assert (ND : NoDup (keys (typeToInputTypeAssociationOf args))).
  { unfold typeToInputTypeAssociationOf.
    apply (build_NoDup type_name associatedInputTypes). constructor. }
  split.
  - intros k names HIn. apply (In_get _ _ _ ND) in HIn.
    apply association_entry in HIn as (type & Ht & Ek & Hh & Ev).
    apply has_input_arguments in Hh as [Ho (n & Hn)].
    split.
    + intros ->. apply In_associatedInputTypes in Hn. rewrite <- Ev in Hn.
      destruct Hn.
    + exists type. repeat split; auto.
  - intros k. unfold typeToInputTypeAssociationOf.
    rewrite (build_keys type_name associatedInputTypes). simpl. split.
    + intros [HIn | []]. apply in_map_iff in HIn as (type & Ek & Ht).
      apply filter_In in Ht as [Ht Hh].
      apply has_input_arguments in Hh as [Ho Hn]. now exists type.
    + intros (type & Ht & Ek & Ho & Hn). left.
      apply in_map_iff. exists type. split; [assumption |].
      apply filter_In. split; [assumption |].
      apply has_input_arguments. now split.
Qed.

Lemma interfaces_in_order (args : GenerateArgs) :
  NoDup (map int_name (interfaces args)) ->
  interfacesMapOf args =
  map (fun i => (int_name i, int_types i)) (interfaces args).
Proof.
  intros ND. unfold interfacesMapOf.
  now rewrite (build_in_order int_name int_types _ [] ND).
Qed.

Lemma unions_in_order (args : GenerateArgs) :
  NoDup (map union_name (unions args)) ->
  unionsMapOf args =
  map (fun u => (union_name u, union_types u)) (unions args).
Proof.
  intros ND. unfold unionsMapOf.
  now rewrite (build_in_order union_name union_types _ [] ND).
Qed.

(** X3.  With unique names, the dictionaries of interfaces and of unions
    list the interfaces and the unions of the schema in their order, each
    with its types. *)
Theorem membership_maps_in_order (args : GenerateArgs) :
  (NoDup (map int_name (interfaces args)) ->
   interfacesMapOf args =
   map (fun i => (int_name i, int_types i)) (interfaces args)) /\
  (NoDup (map union_name (unions args)) ->
   unionsMapOf args =
   map (fun u => (union_name u, union_types u)) (unions args)).
Proof.
  split; [apply interfaces_in_order | apply unions_in_order].
Qed.

End Registry.

Example registry_of_duplicates :
  get (inputTypesMapOf Duplicates.schema) "Filter" = Some Duplicates.secondFilter
  /\ keys (inputTypesMapOf Duplicates.schema) = ["Filter"].
Proof. split; reflexivity. Qed.

Lemma registry_holds_last_definition_witness :
  read (inputTypesMapOf Duplicates.schema) "Filter" = Own Duplicates.secondFilter
  /\ read (inputTypesMapOf Duplicates.schema) "User" = Undefined
  /\ read (inputTypesMapOf Duplicates.schema) "toString" = Inherited.
Proof.
  destruct (registry_holds_last_definition Duplicates.schema) as [Hlast Hnone].
  assert (Hno : forall n, n = "User" \/ n = "toString" ->
                forall t, In t (types Duplicates.schema) ->
                          isInput (type_type t) = true -> type_name t <> n).
  { intros n Hn t Ht Hi. simpl in Ht.
    destruct Ht as [<- | [<- | [<- | []]]], Hn as [-> | ->];
      (discriminate Hi || discriminate). }
  split; [| split].
  - apply (Hlast [Duplicates.firstFilter; Examples.user]
                 Duplicates.secondFilter []);
      [reflexivity | reflexivity | intros t' []].
  - apply (Hnone "User"); [apply Hno; now left |].
    intros C. vm_compute in C. intuition discriminate.
  - apply (Hnone "toString"); [apply Hno; now right |].
    vm_compute. tauto.
Defined.

Lemma membership_maps_in_order_witness :
  unionsMapOf Shapes.schema =
  [ ("SearchResult", union_types Shapes.searchResult);
    ("Feed", union_types Shapes.feed) ].
Proof.
  destruct (membership_maps_in_order Shapes.schema) as [_ Hu].
  apply Hu. simpl. distinct_names.
Defined.

Lemma association_entries_witness :
  In "Mutation" (keys (typeToInputTypeAssociationOf (Examples.schema true))) /\
  ~ In "User" (keys (typeToInputTypeAssociationOf (Examples.schema true))).
Proof.
  destruct (association_entries (Examples.schema true)) as [_ Hkeys].
  split.
  - apply Hkeys. exists Examples.mutation.
    split; [simpl; tauto |]. split; [reflexivity |]. split; [reflexivity |].
    exists "UserFilter". apply In_associatedInputTypes. simpl. now left.
  - intros C. vm_compute in C. intuition discriminate.
Defined.

(* ================================================================= *)
(** * When the generators throw *)

Section Throwing.
Context `{Common}.

Lemma mapM_None {A B} (f : A -> option B) (l : list A) (a : A) :
  In a l -> f a = None -> mapM f l = None.
Proof.
  induction l as [| x l IH]; intros HIn E; [destruct HIn |]. simpl.
  destruct HIn as [-> | HIn].
  - now rewrite E.
  - destruct (f x); [| reflexivity]. simpl. now rewrite IH.
Qed.

(** Both dialects go through the distinct input types in the same way. *)
Lemma input_type_interfaces_throw
    (renderAll : option string) (render : string -> option string)
    (args : GenerateArgs) (type : GraphQLTypeObject) (n : string) :
  renderAll =
    match read (typeToInputTypeAssociationOf args) (type_name type) with
    | Undefined => Some ""
    | Own _ | Inherited =>
        distinct <- getDistinctInputTypes type (typeToInputTypeAssociationOf args)
                      (inputTypesMapOf args) ;;
        decls <- mapM render distinct ;;
        Some (join EOL decls)
    end ->
  NoDup (map type_name (types args)) ->
  In type (types args) ->
  isObject (type_type type) = true ->
  reachableInputType type n ->
  render n = None ->
  renderAll = None.
Proof.
  intros -> ND HIn Hobj Hn Hrender.
  assert (Hh : hasInputArguments type = true)
    by (apply has_input_arguments; split; [assumption | now exists n]).
  unfold getDistinctInputTypes.
  rewrite (association_read args type ND HIn), Hh. cbn [asObject bind].
  rewrite (mapM_None render _ n); [reflexivity | | assumption].
  now apply In_distinct.
Qed.

(** X4.  A field argument of an input type that the schema does not
    define makes both generators throw: for a schema with unique type
    names, if an object type reaches an input type that is not in the
    registry, neither [generate] returns a text. *)
Theorem undefined_input_type_throws_everywhere
    (args : GenerateArgs) (type : GraphQLTypeObject) (n : string) :
  NoDup (map type_name (types args)) ->
  In type (types args) ->
  isObject (type_type type) = true ->
  reachableInputType type n ->
  ~ In n (keys (inputTypesMapOf args)) ->
  TypeScript.generate args = None /\ Flow.generate args = None.
Proof.
  intros ND HIn Hobj Hn Hmissing. apply get_None in Hmissing.
  assert (Hobjects : In type (filter (fun t => isObject (type_type t))
                                     (types args)))
    by (apply filter_In; now split).
  split.
  - unfold TypeScript.generate.
    destruct (TypeScript.renderHeader args); [| reflexivity]. cbn [bind].
    unfold TypeScript.renderNamespaces, TypeScript.renderObjectNamespaces.
    rewrite (mapM_None _ _ type Hobjects); [reflexivity |].
    unfold TypeScript.renderNamespace.
    assert (E : TypeScript.renderInputTypeInterfaces type (modelMap args)
                  (interfacesMapOf args) (unionsMapOf args)
                  (typeToInputTypeAssociationOf args) (inputTypesMapOf args)
                = None).
    { apply (input_type_interfaces_throw _
               (TypeScript.renderInputTypeInterface (modelMap args)
                  (interfacesMapOf args) (unionsMapOf args)
                  (inputTypesMapOf args))
               args type n eq_refl ND HIn Hobj Hn).
      unfold TypeScript.renderInputTypeInterface.
      now rewrite asObject_read, Hmissing. }
    now rewrite E.
  - unfold Flow.generate.
    destruct (Flow.renderHeader args); [| reflexivity]. cbn [bind].
    unfold Flow.renderNamespaces.
    rewrite (mapM_None _ _ type Hobjects); [reflexivity |].
    unfold Flow.renderNamespace.
    assert (E : Flow.renderInputTypeInterfaces type (modelMap args)
                  (createInterfacesMap (interfaces args))
                  (createUnionsMap (unions args))
                  (typeToInputTypeAssociationOf args) (inputTypesMapOf args)
                = None).
    { apply (input_type_interfaces_throw _
               (Flow.renderInputTypeInterface type (modelMap args)
                  (createInterfacesMap (interfaces args))
                  (createUnionsMap (unions args)) (inputTypesMapOf args))
               args type n eq_refl ND HIn Hobj Hn).
      unfold Flow.renderInputTypeInterface.
      now rewrite asObject_read, Hmissing. }
    now rewrite E.
Qed.

(** The input-type block of a type renders whenever the input types of
    the object types of the schema are defined and no object type without
    an argument of an input type is named after a member of
    [Object.prototype]. *)
Lemma input_type_interfaces_render
    (renderAll : option string) (render : string -> option string)
    (args : GenerateArgs) (type : GraphQLTypeObject) :
  renderAll =
    match read (typeToInputTypeAssociationOf args) (type_name type) with
    | Undefined => Some ""
    | Own _ | Inherited =>
        distinct <- getDistinctInputTypes type (typeToInputTypeAssociationOf args)
                      (inputTypesMapOf args) ;;
        decls <- mapM render distinct ;;
        Some (join EOL decls)
    end ->
  (forall t n, In t (types args) -> isObject (type_type t) = true ->
               reachableInputType t n -> In n (keys (inputTypesMapOf args))) ->
  (forall n, In n (keys (inputTypesMapOf args)) -> exists d, render n = Some d) ->
  (forall t, In t (types args) -> isObject (type_type t) = true ->
             hasInputArguments t = false -> ~ In (type_name t) prototypeKeys) ->
  In type (types args) -> isObject (type_type type) = true ->
  exists block, renderAll = Some block.
Proof.
  intros -> Hreg Hrender Hguard Ht Ho. unfold getDistinctInputTypes, read.
  destruct (get (typeToInputTypeAssociationOf args) (type_name type))
    as [names |] eqn:G.
  - cbn [asObject bind].
    destruct (association_entry args _ _ G) as (t & Ht' & _ & Hh & ->).
    apply has_input_arguments in Hh as [Ho' _].
    destruct (mapM_total render (uniq (associatedInputTypes t))) as (decls & E).
    + intros n Hn. apply Hrender, (Hreg t n Ht' Ho'). now apply In_distinct.
    + rewrite E. cbn [bind]. now eexists.
  - assert (Hh : hasInputArguments type = false).
    { destruct (hasInputArguments type) eqn:Hh; [| reflexivity].
      apply get_None in G. exfalso. apply G. now apply association_key. }
    rewrite (In_prototypeKeys_false _ (Hguard type Ht Ho Hh)). now exists "".
Qed.

Lemma flow_imports_render (groups : Obj (list string)) :
  NoDup (keys groups) ->
  exists imports, mapM (Flow.renderImport groups) (keys groups) = Some imports.
Proof.
  intros ND. apply mapM_total. intros p Hp.
  apply in_map_iff in Hp as ([p' names] & <- & Hin).
  unfold Flow.renderImport. simpl.
  rewrite (In_get groups p' names ND Hin). cbn [bind]. now eexists.
Qed.

(** X5.  The Flow generator itself does not throw on a schema whose
    object types take only defined input types as arguments and, where
    they take none, are not named after a member of [Object.prototype]
    (the model map being a dictionary, the grouping of models meeting its
    contract, and the helpers of [common] returning). *)
Theorem flow_generate_returns (args : GenerateArgs) :
  groups_by_import_path groupModelsNameByImportPath ->
  NoDup (keys (modelMap args)) ->
  (forall t n, In t (types args) -> isObject (type_type t) = true ->
               reachableInputType t n -> In n (keys (inputTypesMapOf args))) ->
  (forall t, In t (types args) -> isObject (type_type t) = true ->
             hasInputArguments t = false -> ~ In (type_name t) prototypeKeys) ->
  exists out, Flow.generate args = Some out.
Proof.
  intros Hgroup NDm Hreg Hguard. unfold Flow.generate, Flow.renderHeader.
  rewrite (mapM_get_keys (modelMap args) NDm). cbn [bind].
  destruct (flow_imports_render _
              (proj1 (Hgroup (map snd (modelMap args))))) as (imports & ->).
  cbn [bind]. unfold Flow.renderNamespaces.
  destruct (mapM_total
              (fun type =>
                 Flow.renderNamespace type (createInterfacesMap (interfaces args))
                   (createUnionsMap (unions args))
                   (typeToInputTypeAssociationOf args) (inputTypesMapOf args) args)
              (filter (fun type => isObject (type_type type)) (types args)))
    as (namespaces & ->).
  - intros type Ht. apply filter_In in Ht as [Ht Ho].
    unfold Flow.renderNamespace.
    destruct (input_type_interfaces_render _
                (Flow.renderInputTypeInterface type (modelMap args)
                   (createInterfacesMap (interfaces args))
                   (createUnionsMap (unions args)) (inputTypesMapOf args))
                args type eq_refl Hreg) as (block & E); [| exact Hguard | | |].
    + intros n Hn. unfold Flow.renderInputTypeInterface.
      rewrite asObject_read.
      destruct (get (inputTypesMapOf args) n) eqn:G.
      * cbn [bind]. now eexists.
      * apply get_None in G. contradiction.
    + exact Ht.
    + exact Ho.
    + unfold Flow.renderInputTypeInterfaces in *. rewrite E. cbn [bind].
      now eexists.
  - cbn [bind]. now eexists.
Qed.

(** The discriminator binding renders once the interfaces of the type
    are registered. *)
Lemma possible_types_total (type : GraphQLTypeObject) (im : InterfacesMap)
    (um : UnionsMap) :
  NoDup (keys um) ->
  (forall interfaces i,
     type_interfaces type = Some interfaces -> In i interfaces ->
     In i (keys im)) ->
  exists possible, TypeScript.possibleTypes type im um = Some possible.
Proof.
  intros ND Hreg. unfold TypeScript.possibleTypes.
  assert (Hfrom : exists gathered,
            match type_interfaces type with
            | Some interfaces =>
                foldM (fun obj interfaceName =>
                         flatten obj (read im interfaceName))
                      interfaces []
            | None => Some []
            end = Some gathered).
  { destruct (type_interfaces type) as [interfaces |]; [| now exists []].
    pose proof (fun i => Hreg interfaces i eq_refl) as Hin. clear Hreg.
    assert (G : forall init,
              exists gathered,
                foldM (fun obj interfaceName =>
                         flatten obj (read im interfaceName))
                      interfaces init = Some gathered).
    { induction interfaces as [| i l IH]; intros init; simpl; [now eexists |].
      destruct (get im i) as [impls |] eqn:G.
      - rewrite (read_own _ _ _ G). cbn [flatten].
        apply IH. intros j Hj. apply Hin. now right.
      - apply get_None in G. exfalso. apply G, Hin. now left. }
    apply G. }
  destruct Hfrom as (gathered & ->). cbn [bind].
  change (fun possible unionName =>
            members <- get um unionName ;;
            Some (if existsb (fun unionType =>
                                String.eqb (td_name unionType) (type_name type))
                             members
                  then members else possible))
    with (fun possible unionName =>
            members <- get um unionName ;;
            Some (overrideWith type possible members)).
  rewrite (foldM_keys um (overrideWith type) gathered ND). now eexists.
Qed.

Lemma ts_shape_renders (type : GraphQLTypeObject) (args : GenerateArgs)
    (interfaceName : string) :
  (isInterface (type_type type) = true ->
   In (type_name type) (keys (interfacesMapOf args))) ->
  (forall interfaces i,
     type_interfaces type = Some interfaces -> In i interfaces ->
     In i (keys (interfacesMapOf args))) ->
  exists shape,
    TypeScript.renderResolverTypeInterface type (modelMap args)
      (interfacesMapOf args) (unionsMapOf args) (context args) interfaceName
    = Some shape.
Proof.
  intros Hparent Hreg. unfold TypeScript.renderResolverTypeInterface.
  assert (P : exists parent,
            TypeScript.parentType type (modelMap args) (interfacesMapOf args)
            = Some parent).
  { unfold TypeScript.parentType.
    destruct (isInterface (type_type type)); [| now eexists].
    rewrite asObject_read.
    destruct (get (interfacesMapOf args) (type_name type)) eqn:G.
    - cbn [bind]. now eexists.
    - apply get_None in G. exfalso. now apply G, Hparent. }
  destruct P as (parent & P).
  destruct (mapM_total
              (fun field =>
                 TypeScript.renderResolverTypeInterfaceFunction field type
                   (modelMap args) (interfacesMapOf args) (unionsMapOf args)
                   (context args))
              (type_fields type)) as (functions & ->).
  { intros field _.
    destruct (interface_function parent field type (modelMap args)
                (interfacesMapOf args) (unionsMapOf args) (context args) P)
      as (decl & E & _). now exists decl. }
  destruct (possible_types_total type (interfacesMapOf args) (unionsMapOf args)
              (unionsMapOf_NoDup args) Hreg) as (possible & Ep).
  rewrite (render_isTypeOf type (modelMap args) (interfacesMapOf args)
             (unionsMapOf args) (context args) possible Ep).
  cbn [bind]. now eexists.
Qed.

(** X6.  The TypeScript generator itself does not throw on a schema
    whose object types take only defined input types as arguments, are
    not named after a member of [Object.prototype] where they take none,
    name only interfaces of the schema as their interfaces and are not
    flagged as interfaces themselves (the model map being a dictionary,
    the grouping of models meeting its contract, and the helpers of
    [common] and [utils] returning). *)
Theorem typescript_generate_returns (args : GenerateArgs) :
  groups_by_import_path groupModelsNameByImportPath ->
  NoDup (keys (modelMap args)) ->
  (forall t n, In t (types args) -> isObject (type_type t) = true ->
               reachableInputType t n -> In n (keys (inputTypesMapOf args))) ->
  (forall t, In t (types args) -> isObject (type_type t) = true ->
             hasInputArguments t = false -> ~ In (type_name t) prototypeKeys) ->
  (forall t, In t (types args) -> isObject (type_type t) = true ->
             isInterface (type_type t) = false) ->
  (forall t implemented i,
     In t (types args) -> isObject (type_type t) = true ->
     type_interfaces t = Some implemented -> In i implemented ->
     In i (map int_name (interfaces args))) ->
  exists out, TypeScript.generate args = Some out.
Proof.
  intros Hgroup NDm Hreg Hguard Hflag Hifaces.
  assert (Hkeys : forall k, In k (map int_name (interfaces args)) ->
                            In k (keys (interfacesMapOf args))).
  { intros k Hk. unfold interfacesMapOf.
    apply (build_keys int_name int_types). now left. }
  unfold TypeScript.generate, TypeScript.renderHeader.
  rewrite (models_to_import args NDm). cbn [bind].
  rewrite (render_imports _ (proj1 (Hgroup _))). cbn [bind].
  unfold TypeScript.renderNamespaces, TypeScript.renderObjectNamespaces,
    TypeScript.renderInterfaceNamespaces.
  destruct (mapM_total
              (fun type =>
                 TypeScript.renderNamespace type (interfacesMapOf args)
                   (unionsMapOf args) (typeToInputTypeAssociationOf args)
                   (inputTypesMapOf args) args)
              (filter (fun type => isObject (type_type type)) (types args)))
    as (namespaces & ->).
  { intros type Ht. apply filter_In in Ht as [Ht Ho].
    unfold TypeScript.renderNamespace.
    destruct (input_type_interfaces_render _
                (TypeScript.renderInputTypeInterface (modelMap args)
                   (interfacesMapOf args) (unionsMapOf args)
                   (inputTypesMapOf args))
                args type eq_refl Hreg) as (block & E);
      [| exact Hguard | exact Ht | exact Ho |].
    - intros n Hn. unfold TypeScript.renderInputTypeInterface.
      rewrite asObject_read.
      destruct (get (inputTypesMapOf args) n) eqn:G.
      + cbn [bind]. now eexists.
      + apply get_None in G. contradiction.
    - unfold TypeScript.renderInputTypeInterfaces in *. rewrite E. cbn [bind].
      destruct (ts_shape_renders type args "Type") as (shape & ->).
      + rewrite (Hflag type Ht Ho). discriminate.
      + intros l i El Hi. apply Hkeys. now apply (Hifaces type l i).
      + cbn [bind]. now eexists. }
  cbn [bind].
  destruct (mapM_total
              (fun type =>
                 TypeScript.renderInterfaceNamespace type (interfacesMapOf args)
                   (unionsMapOf args) args)
              (interfaces args)) as (interfaceNamespaces & ->).
  { intros i Hi. unfold TypeScript.renderInterfaceNamespace.
    destruct (ts_shape_renders (interfaceAsType i) args "InterfaceType")
      as (shape & ->).
    - intros _. apply Hkeys. simpl. now apply in_map.
    - intros l j El. discriminate.
    - cbn [bind]. now eexists. }
  cbn [bind]. now eexists.
Qed.

End Throwing.

Lemma undefined_input_type_throws_everywhere_witness :
  TypeScript.generate (H := Sample.common)
    {| types := [ Examples.mutation ]; interfaces := []; unions := [];
       modelMap := []; context := None; defaultResolversEnabled := false |}
  = None /\
  Flow.generate (H := Sample.common)
    {| types := [ Examples.mutation ]; interfaces := []; unions := [];
       modelMap := []; context := None; defaultResolversEnabled := false |}
  = None.
Proof.
  apply (undefined_input_type_throws_everywhere (H := Sample.common) _
           Examples.mutation "UserFilter").
  - simpl. distinct_names.
  - simpl. now left.
  - reflexivity.
  - apply In_associatedInputTypes. simpl. now left.
  - simpl. intros [].
Defined.

Lemma flow_generate_returns_witness :
  exists out,
    Flow.generate (H := Sample.common) (Examples.schema false) = Some out.
Proof.
  apply (flow_generate_returns (H := Sample.common)).
  - exact sample_grouping.
  - vm_compute. distinct_names.
  - intros t n Ht _ Hn. apply In_associatedInputTypes in Hn.
    simpl in Ht.
    repeat (destruct Ht as [<- | Ht];
            [vm_compute in Hn; vm_compute; intuition |]).
    destruct Ht.
  - intros t Ht _ _ Hp. simpl in Ht.
    repeat (destruct Ht as [<- | Ht];
            [vm_compute in Hp; intuition discriminate |]).
    destruct Ht.
Defined.

Lemma typescript_generate_returns_witness :
  exists out, TypeScript.generate (H := Sample.common) Shapes.schema = Some out.
Proof.
  apply (typescript_generate_returns (H := Sample.common)).
  - exact sample_grouping.
  - vm_compute. distinct_names.
  - intros t n Ht _ Hn. apply In_associatedInputTypes in Hn.
    simpl in Ht.
    repeat (destruct Ht as [<- | Ht]; [vm_compute in Hn; destruct Hn |]).
    destruct Ht.
  - intros t Ht _ _ Hp. simpl in Ht.
    repeat (destruct Ht as [<- | Ht];
            [vm_compute in Hp; intuition discriminate |]).
    destruct Ht.
  - intros t Ht _. simpl in Ht.
    repeat (destruct Ht as [<- | Ht]; [reflexivity |]). destruct Ht.
  - intros t l i Ht _ El Hi. simpl in Ht.
    repeat (destruct Ht as [<- | Ht];
            [injection El as <-; simpl in Hi; simpl; tauto |]).
    destruct Ht.
Defined.

(* ================================================================= *)
(** * Interfaces, unions and the shapes that refer to them *)

Section Membership.
Context `{Common}.

Lemma gather_implementers (im : InterfacesMap) (implemented : list string)
    (lists : list (list GraphQLTypeDefinition))
    (init : list GraphQLTypeDefinition) :
  mapM (fun i => get im i) implemented = Some lists ->
  foldM (fun obj interfaceName =>
           flatten obj (read im interfaceName))
        implemented init = Some (init ++ concat lists)%list.
Proof.
  revert lists init. induction implemented as [| i l IH]; intros lists init E;
    simpl in E.
  - injection E as <-. simpl. now rewrite app_nil_r.
  - destruct (get im i) as [impls |] eqn:G; [| discriminate]. cbn [bind] in E.
    destruct (mapM (fun i => get im i) l) as [rest |] eqn:El; [| discriminate].
    cbn [bind] in E. injection E as <-.
    cbn [foldM]. rewrite (read_own _ _ _ G). cbn [flatten bind].
    rewrite (IH rest (init ++ impls)%list eq_refl).
    simpl. now rewrite <- app_assoc.
Qed.

Lemma possible_types_fold (type : GraphQLTypeObject) (im : InterfacesMap)
    (um : UnionsMap) (gathered : list GraphQLTypeDefinition) :
  NoDup (keys um) ->
  match type_interfaces type with
  | Some interfaces =>
      foldM (fun obj interfaceName =>
               flatten obj (read im interfaceName))
            interfaces []
  | None => Some []
  end = Some gathered ->
  TypeScript.possibleTypes type im um =
  Some (fold_left (fun acc kv => overrideWith type acc (snd kv)) um gathered).
Proof.
  intros ND E. unfold TypeScript.possibleTypes. rewrite E. cbn [bind].
  change (fun possible unionName =>
            members <- get um unionName ;;
            Some (if existsb (fun unionType =>
                                String.eqb (td_name unionType) (type_name type))
                             members
                  then members else possible))
    with (fun possible unionName =>
            members <- get um unionName ;;
            Some (overrideWith type possible members)).
  apply (foldM_keys um (overrideWith type) gathered ND).
Qed.

(** For an object type that no union lists, the [__isTypeOf] binding
    ranges over the implementers of the interfaces of the type, interface
    by interface in the order the type names them, and repetitions are
    kept: an implementer of two of the interfaces is listed twice. *)
Theorem isTypeOf_from_interfaces
    (type : GraphQLTypeObject) (mm : ModelMap) (im : InterfacesMap)
    (um : UnionsMap) (context : option ContextDefinition)
    (implemented : list string) (lists : list (list GraphQLTypeDefinition)) :
  NoDup (keys um) ->
  (forall u members, In (u, members) um -> memberOf type members = false) ->
  type_interfaces type = Some implemented ->
  mapM (fun i => get im i) implemented = Some lists ->
  TypeScript.possibleTypes type im um = Some (concat lists) /\
  TypeScript.renderIsTypeOfFunctionInterface type mm im um context =
  Some match concat lists with
       | [] => ""
       | _ :: _ => isTypeOfBinding (concat lists) mm context
       end.
Proof.
  intros ND Hno Ei El.
  assert (P : TypeScript.possibleTypes type im um = Some (concat lists)).
  { rewrite (possible_types_fold type im um (concat lists) ND).
    - now rewrite override_none.
    - rewrite Ei. apply (gather_implementers im implemented lists [] El). }
  split; [exact P | now apply render_isTypeOf].
Qed.

(** X7.  With unique union names, the binding of a type that unions
    list ranges over the members of the last union, in the order of the
    schema, that lists it; the interfaces of the type need only be
    registered. *)
Theorem isTypeOf_last_declared_union
    (args : GenerateArgs) (type : GraphQLTypeObject)
    (before after : list GraphQLUnionObject) (u : GraphQLUnionObject) :
  NoDup (map union_name (unions args)) ->
  unions args = (before ++ u :: after)%list ->
  memberOf type (union_types u) = true ->
  (forall u', In u' after -> memberOf type (union_types u') = false) ->
  (forall implemented i,
     type_interfaces type = Some implemented -> In i implemented ->
     In i (keys (interfacesMapOf args))) ->
  TypeScript.possibleTypes type (interfacesMapOf args) (unionsMapOf args)
  = Some (union_types u).
Proof.
  intros ND Eu Hm Hafter Hreg.
  assert (Hfrom : exists gathered,
            match type_interfaces type with
            | Some interfaces =>
                foldM (fun obj interfaceName =>
                         flatten obj (read (interfacesMapOf args) interfaceName))
                      interfaces []
            | None => Some []
            end = Some gathered).
  { destruct (type_interfaces type) as [implemented |]; [| now exists []].
    destruct (mapM_total (fun i => get (interfacesMapOf args) i) implemented)
      as (lists & El).
    - intros i Hi. destruct (get (interfacesMapOf args) i) eqn:G;
        [now eexists |].
      apply get_None in G. exfalso. now apply G, (Hreg implemented).
    - eexists. apply (gather_implementers _ implemented lists [] El). }
  destruct Hfrom as (gathered & Eg).
  rewrite (possible_types_fold type _ _ gathered (unionsMapOf_NoDup args) Eg).
  f_equal. apply override_last.
  rewrite (unions_in_order args ND), Eu, map_app. simpl.
  eexists _, _, _. split; [reflexivity |]. split; [assumption |].
  intros u' m' Hin. apply in_map_iff in Hin as (x & Ex & Hx).
  injection Ex as _ <-. now apply Hafter.
Qed.

Lemma shape_text (type : GraphQLTypeObject) (mm : ModelMap)
    (im : InterfacesMap) (um : UnionsMap) (context : option ContextDefinition)
    (interfaceName shape : string) :
  TypeScript.renderResolverTypeInterface type mm im um context interfaceName
    = Some shape ->
  exists functions isTypeOf,
    shape =
    "
  export interface " ++ interfaceName ++ " " ++
    match type_interfaces type with
    | Some ((_ :: _) as interfaces) =>
        "extends " ++
        join ","
          (map (fun typeInterface => typeInterface ++ "Resolvers.InterfaceType")
               interfaces)
    | _ => ""
    end ++ " {
    " ++ join EOL functions ++ "
      " ++ isTypeOf ++ "
  }
  ".
Proof.
  unfold TypeScript.renderResolverTypeInterface.
  destruct (mapM _ (type_fields type)) as [functions |]; [| discriminate].
  destruct (TypeScript.renderIsTypeOfFunctionInterface type mm im um context)
    as [isTypeOf |]; [| discriminate].
  intros E. exists functions, isTypeOf. symmetry.
  exact (f_equal (fun o => match o with Some x => x | None => "" end) E).
Qed.

Lemma interface_shape_declared (type : GraphQLTypeObject) (mm : ModelMap)
    (im : InterfacesMap) (um : UnionsMap) (context : option ContextDefinition)
    (interfaceName shape : string) :
  TypeScript.renderResolverTypeInterface type mm im um context interfaceName
    = Some shape ->
  contains ("export interface " ++ interfaceName ++ " ") shape /\
  forall implemented i,
    type_interfaces type = Some implemented -> In i implemented ->
    contains ("extends " ++
              join "," (map (fun t => t ++ "Resolvers.InterfaceType") implemented))
      shape /\
    contains (i ++ "Resolvers.InterfaceType") shape.
Proof.
  intros E. destruct (shape_text _ _ _ _ _ _ _ E) as (functions & isTypeOf & ->).
  split.
  - exists "
  ". eexists. string_eq.
  - intros implemented i -> Hi.
    destruct implemented as [| j l]; [destruct Hi |].
    assert (Hext : contains
              ("extends " ++
               join "," (map (fun t => t ++ "Resolvers.InterfaceType") (j :: l)))
              ("
  export interface " ++ interfaceName ++ " " ++
               ("extends " ++
                join ","
                  (map (fun typeInterface =>
                          typeInterface ++ "Resolvers.InterfaceType") (j :: l)))
               ++ " {
    " ++ join EOL functions ++ "
      " ++ isTypeOf ++ "
  }
  ")).
    { do 3 apply contains_append_r. apply contains_append_l, contains_refl. }
    split; [exact Hext |].
    eapply contains_trans; [| exact Hext].
    apply contains_append_r.
    apply contains_join, (in_map (fun t => t ++ "Resolvers.InterfaceType")), Hi.
Qed.

(** X8.  In the TypeScript dialect an object type that names interfaces
    extends, for each of them, [<Interface>Resolvers.InterfaceType]; and
    the namespace that the generator emits for an interface of the schema
    is [<Interface>Resolvers] and declares [InterfaceType], so that the
    reference of an implementing type is to a declaration of the text. *)
Theorem extends_refers_to_declared_interface
    (args : GenerateArgs) (type : GraphQLTypeObject)
    (implemented : list string) (i : GraphQLInterfaceObject) :
  type_interfaces type = Some implemented ->
  In (int_name i) implemented ->
  In i (interfaces args) ->
  isInterface (type_type type) = false ->
  (forall j, In j implemented -> In j (map int_name (interfaces args))) ->
  exists shape namespace rest,
    TypeScript.renderResolverTypeInterface type (modelMap args)
      (interfacesMapOf args) (unionsMapOf args) (context args) "Type"
      = Some shape /\
    contains ("extends " ++
              join "," (map (fun t => t ++ "Resolvers.InterfaceType") implemented))
      shape /\
    contains (int_name i ++ "Resolvers.InterfaceType") shape /\
    TypeScript.renderInterfaceNamespace i (interfacesMapOf args)
      (unionsMapOf args) args = Some namespace /\
    namespace = ("    export namespace " ++ int_name i ++ "Resolvers {") ++ rest /\
    contains "export interface InterfaceType " rest.
Proof.
  intros Ei Hi HI Hflag Hreg.
  assert (Hkeys : forall k, In k (map int_name (interfaces args)) ->
                            In k (keys (interfacesMapOf args))).
  { intros k Hk. unfold interfacesMapOf.
    apply (build_keys int_name int_types). now left. }
  destruct (ts_shape_renders type args "Type") as (shape & Es).
  { rewrite Hflag. discriminate. }
  { intros l j El Hj. rewrite Ei in El. injection El as <-. auto. }
  destruct (ts_shape_renders (interfaceAsType i) args "InterfaceType")
    as (ishape & Ei').
  { intros _. apply Hkeys. simpl. now apply in_map. }
  { intros l j El. discriminate. }
  destruct (interface_shape_declared _ _ _ _ _ _ _ Es) as [_ Hext].
  destruct (Hext implemented (int_name i) Ei Hi) as [Hall Hone].
  destruct (interface_shape_declared _ _ _ _ _ _ _ Ei') as [Hdecl _].
  unfold TypeScript.renderInterfaceNamespace. rewrite Ei'. cbn [bind].
  exists shape. eexists. eexists.
  split; [exact Es |]. split; [exact Hall |]. split; [exact Hone |].
  split; [reflexivity |]. split.
  - rewrite !append_assoc. reflexivity.
  - find_part Hdecl.
Qed.

End Membership.

Example possible_types_with_repetition :
  TypeScript.possibleTypes Implementers.user
    (interfacesMapOf Implementers.schema) (unionsMapOf Implementers.schema)
  = Some [ Sample.objectType "User"; Sample.objectType "Post";
           Sample.objectType "User" ].
Proof. reflexivity. Qed.

Lemma isTypeOf_from_interfaces_witness :
  TypeScript.renderIsTypeOfFunctionInterface (H := Sample.common)
    Implementers.user Examples.models (interfacesMapOf Implementers.schema)
    (unionsMapOf Implementers.schema) None
  = Some "    __isTypeOf?: GraphQLIsTypeOfFn<UserModel | PostModel | UserModel, Context>;".
Proof.
  destruct (isTypeOf_from_interfaces (H := Sample.common) Implementers.user
              Examples.models (interfacesMapOf Implementers.schema)
              (unionsMapOf Implementers.schema) None [ "Node"; "Entity" ]
              [ int_types Implementers.node; int_types Implementers.entity ])
    as [_ R].
  - constructor.
  - intros u members [].
  - reflexivity.
  - reflexivity.
  - exact R.
Defined.

Lemma isTypeOf_last_declared_union_witness :
  TypeScript.possibleTypes Shapes.post (interfacesMapOf Shapes.schema)
    (unionsMapOf Shapes.schema)
  = Some (union_types Shapes.feed).
Proof.
  apply (isTypeOf_last_declared_union Shapes.schema Shapes.post
           [ Shapes.searchResult ] [] Shapes.feed).
  - simpl. distinct_names.
  - reflexivity.
  - reflexivity.
  - intros u' [].
  - intros implemented i E Hi. injection E as <-.
    destruct Hi as [<- | []]. simpl. now left.
Defined.

Lemma extends_refers_to_declared_interface_witness :
  exists shape namespace,
    TypeScript.renderResolverTypeInterface (H := Sample.common) Shapes.user
      (modelMap Shapes.schema) (interfacesMapOf Shapes.schema)
      (unionsMapOf Shapes.schema) (context Shapes.schema) "Type" = Some shape /\
    contains "extends NodeResolvers.InterfaceType" shape /\
    TypeScript.renderInterfaceNamespace (H := Sample.common) Shapes.node
      (interfacesMapOf Shapes.schema) (unionsMapOf Shapes.schema) Shapes.schema
      = Some namespace /\
    contains "export interface InterfaceType " namespace.
Proof.
  destruct (extends_refers_to_declared_interface (H := Sample.common)
              Shapes.schema Shapes.user [ "Node" ] Shapes.node)
    as (shape & namespace & rest & Es & Hall & _ & En & -> & Hdecl).
  - reflexivity.
  - simpl. now left.
  - simpl. now left.
  - reflexivity.
  - intros j [<- | []]. simpl. now left.
  - exists shape. eexists. split; [exact Es |]. split; [exact Hall |].
    split; [exact En |]. now apply contains_append_r.
Defined.

Example extends_lists_every_interface :
  exists before rest,
    TypeScript.renderResolverTypeInterface (H := Sample.common) Implementers.user
      (modelMap Implementers.schema) (interfacesMapOf Implementers.schema)
      (unionsMapOf Implementers.schema) None "Type"
    = Some (before ++
            "export interface Type extends NodeResolvers.InterfaceType,EntityResolvers.InterfaceType {"
            ++ rest).
Proof. exists "
  ". eexists. vm_compute. reflexivity. Qed.

(* ================================================================= *)
(** * References and the declarations they name *)

Section References.
Context `{Common}.

Lemma join_empty (sep d : string) (l : list string) :
  join sep (d :: l) = "" -> d = "".
Proof.
  unfold join. simpl. destruct l as [| x l]; [tauto |].
  destruct d; [reflexivity | discriminate].
Qed.

(** X9.  In both dialects, for an object type of a schema with unique
    type names whose input types are defined, and whose name is not a
    member of [Object.prototype], the block of input-type declarations is
    the empty text exactly when no argument of a field of the type has an
    input type. *)
Theorem input_type_block_empty_iff
    (args : GenerateArgs) (type : GraphQLTypeObject)
    (mm : ModelMap) (im : InterfacesMap) (um : UnionsMap) :
  NoDup (map type_name (types args)) ->
  In type (types args) ->
  isObject (type_type type) = true ->
  (forall n, reachableInputType type n -> In n (keys (inputTypesMapOf args))) ->
  ~ In (type_name type) prototypeKeys ->
  (TypeScript.renderInputTypeInterfaces type mm im um
     (typeToInputTypeAssociationOf args) (inputTypesMapOf args) = Some "" <->
   forall n, ~ reachableInputType type n) /\
  (Flow.renderInputTypeInterfaces type mm im um
     (typeToInputTypeAssociationOf args) (inputTypesMapOf args) = Some "" <->
   forall n, ~ reachableInputType type n).
Proof.
  intros ND HIn Hobj Hreg Hname.
  assert (G : forall (decl : GraphQLTypeObject -> string) inputs out,
            (forall it, decl it <> "") ->
            out = Some (join EOL (map decl inputs)) ->
            Forall2 (fun n it => get (inputTypesMapOf args) n = Some it)
                    (uniq (associatedInputTypes type)) inputs ->
            (out = Some "" <-> forall n, ~ reachableInputType type n)).
  { intros decl inputs out Hdecl -> F. split.
    - intros E n Hn. apply In_distinct in Hn.
      destruct (Forall2_In_l _ _ _ _ F Hn) as (it & Hit & _).
      destruct inputs as [| it0 rest]; [destruct Hit |].
      assert (E' : join EOL (map decl (it0 :: rest)) = "") by congruence.
      change (map decl (it0 :: rest)) with (decl it0 :: map decl rest) in E'.
      apply join_empty in E'. now apply (Hdecl it0).
    - intros Hno. destruct inputs as [| it rest]; [reflexivity |]. exfalso.
      destruct (uniq (associatedInputTypes type)) as [| n names] eqn:Eu;
        [inversion F |].
      apply (Hno n), In_distinct. rewrite Eu. now left. }
  destruct (ts_input_type_block args type mm im um ND HIn Hobj Hreg
              (or_intror Hname)) as (tsInputs & Fts & Ets).
  destruct (flow_input_type_block args type mm im um ND HIn Hobj Hreg
              (or_intror Hname)) as (flowInputs & Ffl & Efl).
  split.
  - apply (G (tsInputTypeDeclaration mm im um) tsInputs _); [| exact Ets | exact Fts].
    intros it. discriminate.
  - apply (G (flowInputTypeDeclaration type mm im um) flowInputs _);
      [| exact Efl | exact Ffl].
    intros it. discriminate.
Qed.

(** X10.  In both dialects, the argument bag that the resolver signature
    of a field with arguments refers to is declared in the block of the
    type: the declarations of the argument bags of the type hold a
    declaration of that name, and the resolver declarations of the type hold
    the reference. *)
Theorem argument_bag_declared_where_referenced
    (type : GraphQLTypeObject) (field : GraphQLTypeField)
    (mm : ModelMap) (im : InterfacesMap) (um : UnionsMap)
    (context : option ContextDefinition) :
  In field (type_fields type) ->
  field_arguments field <> [] ->
  (contains ("export interface " ++ TypeScript.inputArgName field ++ " {")
     (TypeScript.renderInputArgInterfaces type mm im um) /\
   contains ("args: " ++ TypeScript.inputArgName field ++ ",")
     (TypeScript.renderResolverFunctionInterfaces type mm im um context)) /\
  (contains ("export interface " ++ Flow.getInputArgName type field ++ " {")
     (Flow.renderInputArgInterfaces type mm im um) /\
   contains ("args: " ++ Flow.getInputArgName type field ++ ",")
     (Flow.renderResolverFunctionInterfaces type mm im um context)).
Proof.
  intros Hf Hargs.
  assert (Hbag : forall bag, argsTypeOf field bag = bag).
  { intros bag. rewrite argsTypeOf_cases.
    destruct (field_arguments field); [contradiction | reflexivity]. }
  split; split.
  - eapply contains_trans;
      [| apply contains_join,
           (in_map (fun f => TypeScript.renderInputArgInterface f mm im um)), Hf].
    destruct (proj2 (ts_bag_emitted field mm im um) Hargs) as (body & ->).
    apply contains_append_l. simpl. do 3 apply contains_String.
    apply contains_refl.
  - eapply contains_trans;
      [| apply contains_join,
           (in_map (fun f => TypeScript.renderResolverFunctionInterface f type mm
                               im um context)), Hf].
    rewrite <- (Hbag (TypeScript.inputArgName field)) at 1.
    apply ts_resolver_args.
  - eapply contains_trans;
      [| apply contains_join,
           (in_map (fun f => Flow.renderInputArgInterface type f mm im um)), Hf].
    destruct (proj2 (flow_bag_emitted type field mm im um) Hargs) as (body & ->).
    apply contains_append_l. simpl. do 3 apply contains_String.
    apply contains_refl.
  - eapply contains_trans;
      [| apply contains_join,
           (in_map (fun f => Flow.renderResolverFunctionInterface f type mm
                               im um context)), Hf].
    rewrite <- (Hbag (Flow.getInputArgName type field)) at 1.
    apply flow_resolver_args.
Qed.

(** X11.  In the Flow dialect the aggregate resolver map refers to the
    resolver shape of an object type under the name it is declared with,
    [<UpperFirst(Name)>_Resolvers]; the shape of a union is declared as
    [<Name>_Resolvers] and referred to as [<UpperFirst(Name)>_Resolvers], so
    that the reference names the declaration exactly when capitalisation
    leaves the name of the union unchanged. *)
Theorem flow_shape_references
    (args : GenerateArgs) (mm : ModelMap) (im : InterfacesMap) (um : UnionsMap)
    (context : option ContextDefinition) :
  (forall type,
     In type (types args) -> isObject (type_type type) = true ->
     In (type_name type ++ ": " ++ upperFirst (type_name type) ++ "_Resolvers")
        (Flow.resolversEntries args) /\
     exists rest,
       Flow.renderResolverTypeInterface type mm im um context =
       ("
  export interface " ++ upperFirst (type_name type) ++ "_Resolvers {") ++ rest) /\
  (forall u,
     In u (unions args) ->
     In (union_name u ++ "?: " ++ upperFirst (union_name u) ++ "_Resolvers")
        (Flow.resolversEntries args) /\
     (exists rest,
        Flow.renderUnionNamespace u args =
        ("    export interface " ++ union_name u ++ "_Resolvers {") ++ rest) /\
     (upperFirst (union_name u) ++ "_Resolvers" = union_name u ++ "_Resolvers" <->
      upperFirst (union_name u) = union_name u)).
Proof.
  split.
  - intros type Ht Ho. split.
    + unfold Flow.resolversEntries. apply in_or_app. left.
      apply (in_map (fun t => type_name t ++ ": " ++ upperFirst (type_name t) ++
                              "_Resolvers")).
      apply filter_In. now split.
    + unfold Flow.renderResolverTypeInterface. eexists. string_eq.
  - intros u Hu. split; [| split].
    + unfold Flow.resolversEntries. apply in_or_app. right.
      apply in_or_app. right.
      apply (in_map (fun t => union_name t ++ "?: " ++ upperFirst (union_name t) ++
                              "_Resolvers")), Hu.
    + unfold Flow.renderUnionNamespace. eexists. string_eq.
    + split; [apply append_inv_tail | now intros ->].
Qed.

Lemma flow_imports (groups : Obj (list string)) :
  NoDup (keys groups) ->
  mapM (Flow.renderImport groups) (keys groups) = Some (map flowImport groups).
Proof.
  intros ND.
  assert (G : forall l, incl l groups ->
              mapM (Flow.renderImport groups) (keys l) = Some (map flowImport l)).
  { induction l as [| [p names] l IH]; intros Hincl; simpl; [reflexivity |].
    unfold Flow.renderImport at 1.
    rewrite (In_get groups p names ND) by (apply Hincl; now left). simpl.
    rewrite IH by (intros x Hx; apply Hincl; now right). reflexivity. }
  apply G, incl_refl.
Qed.

(** X12.  The header of the Flow dialect imports every model of the model
    map, type aliases marked as enums included: one [import type]
    statement per import path, and a name is listed under a path exactly
    when it is the name of a model of the map with that path. *)
Theorem flow_header_imports_every_model (args : GenerateArgs) :
  groups_by_import_path groupModelsNameByImportPath ->
  NoDup (keys (modelMap args)) ->
  exists groups,
    groups = groupModelsNameByImportPath (map snd (modelMap args)) /\
    Flow.renderHeader args =
      Some ("/* @flow */
// Code generated by github.com/prisma/graphqlgen, DO NOT EDIT.

import type { GraphQLResolveInfo } from 'graphql'
" ++ join EOL (map flowImport groups) ++ "
" ++ Flow.renderContext (context args) ++ "
  ") /\
    NoDup (keys groups) /\
    forall p n,
      (exists names, In (p, names) groups /\ In n names) <->
      (exists k m,
         In (k, m) (modelMap args) /\ importPath m = p /\
         def_name (definition m) = n).
Proof.
  intros Hgroup ND. eexists. split; [reflexivity |].
  destruct (Hgroup (map snd (modelMap args))) as [NDg Hnames].
  split; [| split; [exact NDg |]].
  - unfold Flow.renderHeader.
    rewrite (mapM_get_keys (modelMap args) ND). cbn [bind].
    rewrite (flow_imports _ NDg). reflexivity.
  - intros p n. rewrite Hnames. split.
    + intros (m & Hm & Ep & En).
      apply in_map_iff in Hm as ([k m'] & E & Hin). simpl in E. subst m'.
      now exists k, m.
    + intros (k & m & Hin & Ep & En). exists m. split; [| tauto].
      apply in_map_iff. now exists (k, m).
Qed.

End References.

Lemma input_type_block_empty_iff_witness :
  TypeScript.renderInputTypeInterfaces (H := Sample.common) Examples.user
    [] [] [] (typeToInputTypeAssociationOf (Examples.schema true))
    (inputTypesMapOf (Examples.schema true)) = Some "".
Proof.
  destruct (input_type_block_empty_iff (H := Sample.common)
              (Examples.schema true) Examples.user [] [] []) as [[_ Hts] _].
  - vm_compute. distinct_names.
  - simpl. tauto.
  - reflexivity.
  - intros n Hn. apply In_associatedInputTypes in Hn. destruct Hn.
  - vm_compute. intuition discriminate.
  - apply Hts. intros n Hn. apply In_associatedInputTypes in Hn. destruct Hn.
Defined.

Lemma argument_bag_declared_where_referenced_witness :
  contains "export interface Mutation_Args_CreateUser {"
    (Flow.renderInputArgInterfaces (H := Sample.common) Examples.mutation
       [] [] []) /\
  contains "args: Mutation_Args_CreateUser,"
    (Flow.renderResolverFunctionInterfaces (H := Sample.common)
       Examples.mutation [] [] [] None).
Proof.
  destruct (argument_bag_declared_where_referenced (H := Sample.common)
              Examples.mutation Examples.createUser [] [] [] None)
    as [_ Hflow].
  - simpl. now left.
  - discriminate.
  - exact Hflow.
Defined.

Lemma flow_shape_references_witness :
  In "SearchResult?: SearchResult_Resolvers"
    (Flow.resolversEntries Shapes.schema) /\
  exists rest,
    Flow.renderUnionNamespace (H := Sample.common) Shapes.searchResult
      Shapes.schema =
    ("    export interface " ++ "SearchResult" ++ "_Resolvers {") ++ rest.
Proof.
  destruct (flow_shape_references (H := Sample.common) Shapes.schema
              [] [] [] None) as [_ Hu].
  destruct (Hu Shapes.searchResult) as (Hentry & Hdecl & _).
  - simpl. now left.
  - split; [exact Hentry | exact Hdecl].
Defined.

Example flow_header_of_schema :
  Sample.groupModels (map snd Examples.models)
  = [ ("./models", ["UserModel"; "PostModel"]); ("./enums", ["Role"]) ].
Proof. reflexivity. Qed.

Lemma flow_header_imports_every_model_witness :
  exists groups,
    groups = [ ("./models", ["UserModel"; "PostModel"]); ("./enums", ["Role"]) ] /\
    Flow.renderHeader (H := Sample.common) (Examples.schema true) =
      Some ("/* @flow */
// Code generated by github.com/prisma/graphqlgen, DO NOT EDIT.

import type { GraphQLResolveInfo } from 'graphql'
" ++ join EOL (map flowImport groups) ++ "
" ++ Flow.renderContext (H := Sample.common) None ++ "
  ").
Proof.
  destruct (flow_header_imports_every_model (H := Sample.common)
              (Examples.schema true)) as (groups & Eg & Eh & _).
  - exact sample_grouping.
  - vm_compute. distinct_names.
  - exists groups. split; [exact Eg | exact Eh].
Defined.

(* ================================================================= *)
(** * Argument types of the Flow dialect *)

Section Replace.

Lemma replace_here (p r rest : string) :
  replace p r (p ++ rest) = r ++ rest.
Proof.
  assert (Hp : String.prefix p (p ++ rest) = true).
  { induction p as [| a p IH]; simpl; [now destruct rest |].
    destruct (ascii_dec a a); [assumption | contradiction]. }
  assert (E : replace p r (p ++ rest) =
              r ++ String.substring (String.length p)
                     (String.length (p ++ rest) - String.length p) (p ++ rest)).
  { destruct (p ++ rest); cbn [replace]; now rewrite Hp. }
  rewrite E. f_equal.
  apply (append_inv_head p). symmetry. now apply prefix_split.
Qed.

(** Replacing a pattern by itself changes nothing. *)
Lemma replace_same (p s : string) : replace p p s = s.
Proof.
  induction s as [| c s IH].
  - destruct p; reflexivity.
  - cbn [replace]. destruct (String.prefix p (String c s)) eqn:Hp.
    + symmetry. exact (prefix_split p (String c s) Hp).
    + now rewrite IH.
Qed.

(** A text that does not hold the pattern is left as it is. *)
Lemma replace_absent (p r s : string) :
  (forall a b, s <> a ++ p ++ b) -> replace p r s = s.
Proof.
  induction s as [| c s IH]; intros Hno.
  - destruct p; [| reflexivity]. exfalso. now apply (Hno "" "").
  - cbn [replace]. destruct (String.prefix p (String c s)) eqn:Hp.
    + exfalso. apply (Hno "" (String.substring (String.length p)
                                (String.length (String c s) - String.length p)
                                (String c s))).
      exact (prefix_split p (String c s) Hp).
    + f_equal. apply IH. intros a b E. apply (Hno (String c a) b).
      simpl. now rewrite E.
Qed.

(** The first colon of a text: what precedes it is kept, and the
    separator that follows it is replaced. *)
Lemma replace_after_name (r a b : string) :
  occurs ":" a = false ->
  replace ": " r (a ++ ": " ++ b) = a ++ r ++ b.
Proof.
  induction a as [| c a IH]; intros Ha.
  - apply (replace_here ": " r b).
  - simpl in Ha. apply orb_false_iff in Ha as [Hc Ha].
    change (String c a ++ ": " ++ b) with (String c (a ++ ": " ++ b)).
    cbn [replace String.prefix].
    destruct (ascii_dec ":" c) as [<- | _]; [discriminate |].
    simpl. f_equal. now apply IH.
Qed.

End Replace.

Section FlowArguments.
Context `{Common}.

(** X13.  In the Flow dialect the lines of an argument bag are the printed
    arguments, with the name of the owning type put before the type of an
    argument that is neither a scalar, an object type nor an enum: a line
    printed as [name: Type], with no colon in [name], becomes
    [name: <UpperFirst(Owner)>_Type].  The line of a scalar, object or enum
    argument is the printed text unchanged, and so is a printed text that
    holds no [": "]. *)
Theorem flow_argument_lines
    (type : GraphQLTypeObject) (field : GraphQLTypeField)
    (mm : ModelMap) (im : InterfacesMap) (um : UnionsMap) :
  field_arguments field <> [] ->
  exists lines,
    Flow.renderInputArgInterface type field mm im um =
    "
  export interface " ++ Flow.getInputArgName type field ++ " {
    " ++ join ("," ++ EOL) lines ++ "
  }
  " /\
    Forall2
      (fun arg line =>
         (isScalar (arg_type arg) || isObject (arg_type arg)
          || isEnum (arg_type arg) = true ->
          line = printFieldLikeType (argLike arg) mm im um None) /\
         (isScalar (arg_type arg) || isObject (arg_type arg)
          || isEnum (arg_type arg) = false ->
          (forall a b,
             printFieldLikeType (argLike arg) mm im um None = a ++ ": " ++ b ->
             occurs ":" a = false ->
             line = a ++ ": " ++ upperFirst (type_name type) ++ "_" ++ b) /\
          ((forall a b,
              printFieldLikeType (argLike arg) mm im um None <> a ++ ": " ++ b) ->
           line = printFieldLikeType (argLike arg) mm im um None)))
      (field_arguments field) lines.
Proof.
  intros Hargs.
  exists (map (fun arg =>
                 replace ": " (": " ++ Flow.getArgTypePrefix type arg)
                   (printFieldLikeType (argLike arg) mm im um None))
              (field_arguments field)).
  split.
  - unfold Flow.renderInputArgInterface.
    destruct (field_arguments field) as [| a l]; [contradiction | reflexivity].
  - apply Forall2_map_r. intros arg _. unfold Flow.getArgTypePrefix.
    destruct (isScalar (arg_type arg) || isObject (arg_type arg)
              || isEnum (arg_type arg)).
    + split; [| intros; discriminate]. intros _. apply replace_same.
    + split; [intros; discriminate |]. intros _. split.
      * intros a b E Ha. rewrite E.
        rewrite (replace_after_name _ a b Ha). string_eq.
      * intros Hno. now apply replace_absent.
Qed.

End FlowArguments.

Example flow_input_argument_line :
  replace ": " (": " ++ Flow.getArgTypePrefix Examples.mutation
                           (Sample.argument "data" (Sample.inputType "UserFilter")))
    "data: UserFilter | null"
  = "data: Mutation_UserFilter | null".
Proof. reflexivity. Qed.

Lemma flow_argument_lines_witness :
  exists lines,
    Flow.renderInputArgInterface (H := Sample.common) Examples.mutation
      Examples.deleteUser [] [] [] =
    "
  export interface " ++ "Mutation_Args_DeleteUser" ++ " {
    " ++ join ("," ++ EOL) lines ++ "
  }
  " /\
    lines = [ "ID | null" ].
Proof.
  destruct (flow_argument_lines (H := Sample.common) Examples.mutation
              Examples.deleteUser [] [] []) as (lines & E & F).
  - discriminate.
  - exists lines. split; [exact E |].
    inversion F as [| arg line args rest [Hscalar _] Frest]; subst.
    inversion Frest; subst. now rewrite (Hscalar eq_refl).
Defined.

(* ================================================================= *)
(** * The benchmark collector *)

Section Collector.
Context `{BenchmarkHost}.
Import Benchmarks.

Lemma includes_In (x : string) (l : list string) :
  existsb (String.eqb x) l = true <-> In x l.
Proof.
  rewrite existsb_exists. split.
  - intros (y & Hy & E). apply String.eqb_eq in E. now subst.
  - intros Hx. exists x. split; [assumption | apply String.eqb_refl].
Qed.

Lemma validateFixtures_cases (folder : string) :
  validateFixtures folder =
  match existsb (String.eqb "schema.graphql") (scenarioFiles folder),
        existsb (String.eqb "models.ts") (scenarioFiles folder) with
  | true, true => None
  | false, true => Some [ missingFile folder "schema.graphql" ]
  | true, false => Some [ missingFile folder "models.ts" ]
  | false, false => Some [ missingFile folder "schema.graphql";
                           missingFile folder "models.ts" ]
  end.
Proof.
  unfold validateFixtures, scenarioFiles, missingFile.
  destruct (existsb (String.eqb "schema.graphql") _),
           (existsb (String.eqb "models.ts") _); simpl;
    rewrite ?append_assoc; reflexivity.
Qed.

(** X14.  [validateFixtures] returns [null] exactly when the scenario
    folder holds both [schema.graphql] and [models.ts]; otherwise it
    returns between one and two errors, the one about [schema.graphql]
    first, each naming the scenario and the file that is missing. *)
Theorem validateFixtures_null_iff_complete (folder : string) :
  (validateFixtures folder = None <->
   In "schema.graphql" (scenarioFiles folder) /\
   In "models.ts" (scenarioFiles folder)) /\
  (forall errors,
     validateFixtures folder = Some errors ->
     (1 <= length errors <= 2) /\
     (forall e, In e errors <->
        (~ In "schema.graphql" (scenarioFiles folder) /\
         e = missingFile folder "schema.graphql") \/
        (~ In "models.ts" (scenarioFiles folder) /\
         e = missingFile folder "models.ts")) /\
     (~ In "schema.graphql" (scenarioFiles folder) ->
      hd_error errors = Some (missingFile folder "schema.graphql"))).
Proof.
  rewrite validateFixtures_cases.
  pose proof (includes_In "schema.graphql" (scenarioFiles folder)) as Hs.
  pose proof (includes_In "models.ts" (scenarioFiles folder)) as Hm.
  destruct (existsb (String.eqb "schema.graphql") (scenarioFiles folder)),
           (existsb (String.eqb "models.ts") (scenarioFiles folder)).
  - split; [| discriminate]. split; [intros _ | reflexivity].
    split; [now apply Hs | now apply Hm].
  - assert (Nm : ~ In "models.ts" (scenarioFiles folder))
      by (intros C; apply Hm in C; discriminate).
    assert (Is : In "schema.graphql" (scenarioFiles folder)) by now apply Hs.
    split; [split; [discriminate | tauto] |].
    intros errors E. injection E as <-. simpl. split; [lia |].
    split; [| tauto].
    intros e. split; [intros [<- | []]; tauto | intros [[? _] | [_ ->]]; tauto].
  - assert (Ns : ~ In "schema.graphql" (scenarioFiles folder))
      by (intros C; apply Hs in C; discriminate).
    assert (Im : In "models.ts" (scenarioFiles folder)) by now apply Hm.
    split; [split; [discriminate | tauto] |].
    intros errors E. injection E as <-. simpl. split; [lia |].
    split; [| reflexivity].
    intros e. split; [intros [<- | []]; tauto | intros [[_ ->] | [? _]]; tauto].
  - assert (Ns : ~ In "schema.graphql" (scenarioFiles folder))
      by (intros C; apply Hs in C; discriminate).
    assert (Nm : ~ In "models.ts" (scenarioFiles folder))
      by (intros C; apply Hm in C; discriminate).
    split; [split; [discriminate | tauto] |].
    intros errors E. injection E as <-. simpl. split; [lia |].
    split; [| reflexivity].
    intros e. split;
      [intros [<- | [<- | []]]; tauto | intros [[_ ->] | [_ ->]]; tauto].
Qed.

(** What a configuration holds, once the helpers have returned. *)
Lemma createCodeGenConfig_config (run : Options) (state state' : ParseState)
    (config : GenerateCodeArgs) :
  createCodeGenConfig run state = Some (config, state') ->
  code_language config = language run /\
  code_config config =
    {| config_language := language run;
       config_schema := Path_join (rootPath run) "schema.graphql";
       config_output := Path_join (rootPath run) "./";
       config_models := [ Path_join (rootPath run) "./models.ts" ] |}.
Proof.
  unfold createCodeGenConfig.
  destruct (Parse_parseSchema _ state) as [[schema s1] |]; [| discriminate].
  destruct (Validation_validateConfig _ schema s1) as [[valid s2] |];
    [| discriminate].
  destruct (Parse_parseModels _ schema _ _ s2) as [[models s3] |];
    [| discriminate].
  intros E. injection E as <- _. split; reflexivity.
Qed.

Lemma createBenchmark_run (run : Options) (state : ParseState) :
  configurable run ->
  exists b state',
    createBenchmark run state = Some (b, state') /\ benchmarkOf run b.
Proof.
  intros Hrun. destruct run as [lang root]. unfold createBenchmark. simpl.
  destruct (createCodeGenConfig {| language := lang; rootPath := root |} state)
    as [[config state'] |] eqn:E; [| now apply Hrun in E].
  apply createCodeGenConfig_config in E as [El Ec].
  eexists _, _. split; [reflexivity |].
  unfold benchmarkOf. simpl. auto.
Qed.

(** A helper that throws on a run makes the benchmark throw. *)
Lemma createBenchmark_throws (run : Options) (state : ParseState) :
  createCodeGenConfig run state = None -> createBenchmark run state = None.
Proof.
  destruct run as [lang root]. unfold createBenchmark. simpl. now intros ->.
Qed.

Lemma collectModels_runs (path : string) (modelPaths : list string)
    (benchmarks : list Bench) (state : ParseState) :
  (forall run,
     In run (map (fun modelPath =>
                    {| language := Util_getLangFromExt (Util_getExt modelPath);
                       rootPath := path |})
                 (filter (fun modelPath =>
                            existsb (String.eqb (Util_getExt modelPath))
                              Util_languageExtensions)
                         modelPaths)) ->
     configurable run) ->
  exists added state',
    collectModels path modelPaths benchmarks state =
      Some ((benchmarks ++ added)%list, state') /\
    Forall2 benchmarkOf
      (map (fun modelPath =>
              {| language := Util_getLangFromExt (Util_getExt modelPath);
                 rootPath := path |})
           (filter (fun modelPath =>
                      existsb (String.eqb (Util_getExt modelPath))
                        Util_languageExtensions)
                   modelPaths))
      added.
Proof.
  revert benchmarks state.
  induction modelPaths as [| m l IH]; intros benchmarks state Hruns; simpl.
  - exists [], state. rewrite app_nil_r. split; [reflexivity | constructor].
  - simpl in Hruns.
    destruct (existsb (String.eqb (Util_getExt m)) Util_languageExtensions);
      simpl in *.
    + destruct (createBenchmark_run
                  {| language := Util_getLangFromExt (Util_getExt m);
                     rootPath := path |} state) as (b & s1 & -> & Hb);
        [apply Hruns; now left |].
      destruct (IH (benchmarks ++ [b])%list s1) as (added & s2 & -> & F);
        [intros run Hr; apply Hruns; now right |].
      exists (b :: added), s2. split; [| now constructor].
      now rewrite <- app_assoc.
    + now apply IH.
Qed.

Lemma collectPaths_passing (paths : list string) (benchmarks : list Bench)
    (rest : list string) (state : ParseState) :
  (forall p, In p paths -> passes p) ->
  (forall run, In run (runsOfPaths paths) -> configurable run) ->
  exists added state',
    collectPaths (paths ++ rest) benchmarks state =
      collectPaths rest (benchmarks ++ added)%list state' /\
    Forall2 benchmarkOf (runsOfPaths paths) added.
Proof.
  revert benchmarks state.
  induction paths as [| p l IH]; intros benchmarks state Hpass Hruns.
  - exists [], state. rewrite app_nil_r. split; [reflexivity | constructor].
  - cbn [app collectPaths]. unfold runsOfPaths in *. cbn [flat_map] in *.
    destruct (Util_isFile p) eqn:Ef.
    + apply IH; [intros; apply Hpass; now right | exact Hruns].
    + destruct (Hpass p) as [C | Ev]; [now left | congruence |].
      rewrite Ev.
      destruct (collectModels_runs p (Glob_sync (Path_join p "./models.*"))
                  benchmarks state) as (added & s1 & -> & F).
      { intros run Hr. apply Hruns, in_or_app. now left. }
      destruct (IH (benchmarks ++ added)%list s1) as (more & s2 & -> & F').
      { intros; apply Hpass; now right. }
      { intros run Hr. apply Hruns, in_or_app. now right. }
      exists (added ++ more)%list, s2. split; [now rewrite <- app_assoc |].
      now apply Forall2_app.
Qed.

Lemma complete_passes (p : string) :
  Util_isFile p = true \/
  (In "schema.graphql" (scenarioFiles p) /\ In "models.ts" (scenarioFiles p)) ->
  passes p.
Proof.
  intros [Hf | Hc]; [now left | right].
  rewrite validateFixtures_cases.
  destruct Hc as [Hs Hm].
  apply includes_In in Hs. apply includes_In in Hm. now rewrite Hs, Hm.
Qed.

(** X15.  When every path of the benchmark directory is a file or a
    complete scenario, and the helpers of [parse] and [validation] return
    on every run of the scenarios, [collect] returns, without writing to
    the console, one benchmark per run, in the order of the paths and of
    the model files: none for a file, and for a scenario one benchmark per
    model file whose extension is the one of a supported language, named
    after the scenario and the language. *)
Theorem collect_returns_benchmarks (state : ParseState) :
  (forall p, In p (Glob_sync (Path_join dirname "./*")) ->
             Util_isFile p = true \/
             (In "schema.graphql" (scenarioFiles p) /\
              In "models.ts" (scenarioFiles p))) ->
  (forall run,
     In run (runsOfPaths (Glob_sync (Path_join dirname "./*"))) ->
     configurable run) ->
  exists benchmarks,
    collect state = (Returned benchmarks, []) /\
    Forall2 benchmarkOf
      (runsOfPaths (Glob_sync (Path_join dirname "./*"))) benchmarks.
Proof.
  intros Hok Hruns. unfold collect. cbv zeta.
  destruct (collectPaths_passing (Glob_sync (Path_join dirname "./*")) [] []
              state) as (added & s' & E & F).
  - intros p Hp. apply complete_passes, Hok, Hp.
  - exact Hruns.
  - rewrite app_nil_r in E. exists added. split; [now rewrite E | exact F].
Qed.

(** X16.  [collect] stops at the first folder of the benchmark directory
    that misses [schema.graphql] or [models.ts], provided the helpers of
    [parse] and [validation] return on the runs of the scenarios before
    it: it exits the process with code 1 after writing one message, the
    one about [schema.graphql] when that file is missing and the one about
    [models.ts] otherwise, whatever the paths after it hold. *)
Theorem collect_exits_at_first_incomplete_scenario
    (before after : list string) (bad : string) (state : ParseState) :
  Glob_sync (Path_join dirname "./*") = (before ++ bad :: after)%list ->
  (forall p, In p before ->
             Util_isFile p = true \/
             (In "schema.graphql" (scenarioFiles p) /\
              In "models.ts" (scenarioFiles p))) ->
  (forall run, In run (runsOfPaths before) -> configurable run) ->
  Util_isFile bad = false ->
  ~ (In "schema.graphql" (scenarioFiles bad) /\
     In "models.ts" (scenarioFiles bad)) ->
  collect state =
  (Exited 1,
   [ if existsb (String.eqb "schema.graphql") (scenarioFiles bad)
     then missingFile bad "models.ts"
     else missingFile bad "schema.graphql" ]).
Proof.
  intros Epaths Hok Hruns Hdir Hbad. unfold collect. cbv zeta. rewrite Epaths.
  destruct (collectPaths_passing before [] (bad :: after) state)
    as (added & s' & -> & _).
  - intros p Hp. apply complete_passes, Hok, Hp.
  - exact Hruns.
  - cbn [collectPaths]. rewrite Hdir, validateFixtures_cases.
    pose proof (includes_In "schema.graphql" (scenarioFiles bad)) as Hs.
    pose proof (includes_In "models.ts" (scenarioFiles bad)) as Hm.
    destruct (existsb (String.eqb "schema.graphql") (scenarioFiles bad)),
             (existsb (String.eqb "models.ts") (scenarioFiles bad));
      try reflexivity.
    exfalso. apply Hbad. split; [now apply Hs | now apply Hm].
Qed.

Lemma collectModels_skips (path : string) (skipped rest : list string)
    (benchmarks : list Bench) (state : ParseState) :
  (forall m, In m skipped ->
             existsb (String.eqb (Util_getExt m)) Util_languageExtensions = false) ->
  collectModels path (skipped ++ rest) benchmarks state =
  collectModels path rest benchmarks state.
Proof.
  induction skipped as [| m l IH]; intros Hskip; [reflexivity |].
  cbn [app collectModels]. rewrite (Hskip m) by now left. simpl.
  apply IH. intros; apply Hskip. now right.
Qed.

Lemma collectPaths_files (files rest : list string) (benchmarks : list Bench)
    (state : ParseState) :
  (forall p, In p files -> Util_isFile p = true) ->
  collectPaths (files ++ rest) benchmarks state =
  collectPaths rest benchmarks state.
Proof.
  induction files as [| p l IH]; intros Hfiles; [reflexivity |].
  cbn [app collectPaths]. rewrite (Hfiles p) by now left.
  apply IH. intros; apply Hfiles. now right.
Qed.

(** X18.  The collector creates the benchmarks of a scenario as it goes:
    when a helper of [parse] or [validation] throws on the first run of
    the first scenario, which is complete, [collect] ends with that
    exception and writes nothing, whatever the paths after it hold: an
    incomplete folder further on is not reported. *)
Theorem collect_throws_with_helper
    (files after skipped rest : list string) (scenario modelPath : string)
    (state : ParseState) :
  Glob_sync (Path_join dirname "./*") = (files ++ scenario :: after)%list ->
  (forall p, In p files -> Util_isFile p = true) ->
  Util_isFile scenario = false ->
  In "schema.graphql" (scenarioFiles scenario) ->
  In "models.ts" (scenarioFiles scenario) ->
  Glob_sync (Path_join scenario "./models.*") =
    (skipped ++ modelPath :: rest)%list ->
  (forall m, In m skipped ->
             existsb (String.eqb (Util_getExt m)) Util_languageExtensions = false) ->
  existsb (String.eqb (Util_getExt modelPath)) Util_languageExtensions = true ->
  createCodeGenConfig
    {| language := Util_getLangFromExt (Util_getExt modelPath);
       rootPath := scenario |} state = None ->
  collect state = (Thrown, []).
Proof.
  intros Epaths Hfiles Hdir Hs Hm Emodels Hskip Hext Hthrow.
  unfold collect. cbv zeta. rewrite Epaths, collectPaths_files by assumption.
  cbn [collectPaths]. rewrite Hdir.
  assert (Ev : validateFixtures scenario = None).
  { rewrite validateFixtures_cases.
    apply includes_In in Hs. apply includes_In in Hm. now rewrite Hs, Hm. }
  rewrite Ev. cbv zeta. rewrite Emodels, collectModels_skips by assumption.
  cbn [collectModels]. rewrite Hext. simpl negb. cbv iota.
  now rewrite (createBenchmark_throws _ _ Hthrow).
Qed.

End Collector.

Example sample_collect :
  fst (Benchmarks.collect (H := SampleBenchmarks.host) 0) = Benchmarks.Exited 1 /\
  snd (Benchmarks.collect (H := SampleBenchmarks.host) 0) =
  [ "benchmark " ++ Benchmarks.quote ++ "empty" ++ Benchmarks.quote ++
    " missing file schema.graphql" ].
Proof. split; reflexivity. Qed.

(** A scenario whose schema does not parse ends the collector with the
    exception, before the folder after it is looked at. *)
Example sample_collect_throws :
  Benchmarks.collect (H := SampleBenchmarks.brokenHost) 0
  = (Benchmarks.Thrown, []).
Proof. reflexivity. Qed.

Lemma validateFixtures_null_iff_complete_witness :
  Benchmarks.validateFixtures (H := SampleBenchmarks.host) "/bench/blog" = None.
Proof.
  apply (validateFixtures_null_iff_complete (H := SampleBenchmarks.host)
           "/bench/blog").
  split; vm_compute; tauto.
Defined.

Lemma collect_exits_at_first_incomplete_scenario_witness :
  Benchmarks.collect (H := SampleBenchmarks.host) 0 =
  (Benchmarks.Exited 1,
   [ Benchmarks.missingFile (H := SampleBenchmarks.host) "/bench/empty"
       "schema.graphql" ]).
Proof.
  apply (collect_exits_at_first_incomplete_scenario
           (H := SampleBenchmarks.host)
           [ "/bench/index.ts"; "/bench/blog" ] [] "/bench/empty" 0).
  - reflexivity.
  - intros p [<- | [<- | []]]; [left; reflexivity | right].
    split; vm_compute; tauto.
  - intros run Hrun state. vm_compute in Hrun.
    destruct Hrun as [<- | [<- | []]]; vm_compute; discriminate.
  - reflexivity.
  - intros [C _]. vm_compute in C. exact C.
Defined.

Lemma collect_returns_benchmarks_witness :
  exists typescript flow,
    Benchmarks.collect (H := SampleBenchmarks.completeHost) 0 =
    (Benchmarks.Returned [ typescript; flow ], []) /\
    Benchmarks.bench_name typescript = "generateCode (blog schema, typescript)" /\
    Benchmarks.bench_name flow = "generateCode (blog schema, flow)".
Proof.
  destruct (collect_returns_benchmarks (H := SampleBenchmarks.completeHost) 0)
    as (benchmarks & E & F).
  - intros p [<- | [<- | []]]; [left; reflexivity | right].
    split; vm_compute; tauto.
  - intros run Hrun state. vm_compute in Hrun.
    destruct Hrun as [<- | [<- | []]]; vm_compute; discriminate.
  - vm_compute in E. injection E as <-.
    eexists _, _. split; [reflexivity | split; reflexivity].
Defined.

Lemma collect_throws_with_helper_witness :
  Benchmarks.collect (H := SampleBenchmarks.brokenHost) 0 =
  (Benchmarks.Thrown, []).
Proof.
  apply (collect_throws_with_helper (H := SampleBenchmarks.brokenHost)
           [ "/bench/index.ts" ] [ "/bench/empty" ] []
           [ "/bench/blog/models.txt"; "/bench/blog/models.flow.js" ]
           "/bench/blog" "/bench/blog/models.ts" 0).
  - reflexivity.
  - intros p [<- | []]. reflexivity.
  - reflexivity.
  - vm_compute. tauto.
  - vm_compute. tauto.
  - reflexivity.
  - intros m [].
  - reflexivity.
  - reflexivity.
Defined.

(* ================================================================= *)
(** * The namespaces that the TypeScript resolver map refers to *)

Section TypeScriptReferences.
Context `{Common}.

(** X17.  In the TypeScript dialect every entry of the aggregate resolver
    map refers to [<Name>Resolvers.Type], and the namespace emitted for the
    object type, interface or union of that name is [<Name>Resolvers] and
    declares the interface [Type]: the name of the type is used as it is on
    both sides. *)
Theorem typescript_shape_references
    (args : GenerateArgs) (im : InterfacesMap) (um : UnionsMap)
    (assoc : TypeToInputTypeAssociation) (registry : InputTypesMap) :
  (forall type,
     In type (types args) -> isObject (type_type type) = true ->
     In (type_name type ++ ": " ++ type_name type ++ "Resolvers.Type")
        (TypeScript.resolversEntries args) /\
     forall out,
       TypeScript.renderNamespace type im um assoc registry args = Some out ->
       exists rest,
         out = ("    export namespace " ++ type_name type ++ "Resolvers {") ++ rest /\
         contains "export interface Type " rest) /\
  (forall i,
     In i (interfaces args) ->
     In (int_name i ++ "?: " ++ int_name i ++ "Resolvers.Type")
        (TypeScript.resolversEntries args) /\
     forall out,
       TypeScript.renderInterfaceNamespace i im um args = Some out ->
       exists rest,
         out = ("    export namespace " ++ int_name i ++ "Resolvers {") ++ rest /\
         contains "export interface Type {" rest) /\
  (forall u,
     In u (unions args) ->
     In (union_name u ++ "?: " ++ union_name u ++ "Resolvers.Type")
        (TypeScript.resolversEntries args) /\
     exists rest,
       TypeScript.renderUnionNamespace u args =
       ("    export namespace " ++ union_name u ++ "Resolvers {") ++ rest /\
       contains "export interface Type {" rest).
Proof.
  split; [| split].
  - intros type Ht Ho. split.
    + unfold TypeScript.resolversEntries. apply in_or_app. left.
      apply (in_map (fun t => type_name t ++ ": " ++ type_name t ++
                              "Resolvers.Type")).
      apply filter_In. now split.
    + intros out. unfold TypeScript.renderNamespace.
      destruct (TypeScript.renderInputTypeInterfaces type (modelMap args) im um
                  assoc registry) as [inputs |]; [| discriminate].
      destruct (TypeScript.renderResolverTypeInterface type (modelMap args) im
                  um (context args) "Type") as [shape |] eqn:Es;
        [| discriminate].
      cbn [bind]. intros E.
      pose proof (f_equal (fun o => match o with Some x => x | None => "" end) E)
        as E'. cbv beta iota in E'. subst out.
      destruct (interface_shape_declared _ _ _ _ _ _ _ Es) as [Hdecl _].
      eexists. split; [rewrite !append_assoc; reflexivity |].
      find_part Hdecl.
  - intros i Hi. split.
    + unfold TypeScript.resolversEntries. apply in_or_app. right.
      apply in_or_app. left.
      apply (in_map (fun t => int_name t ++ "?: " ++ int_name t ++
                              "Resolvers.Type")), Hi.
    + intros out. unfold TypeScript.renderInterfaceNamespace.
      destruct (TypeScript.renderResolverTypeInterface (interfaceAsType i)
                  (modelMap args) im um (context args) "InterfaceType")
        as [shape |]; [| discriminate].
      cbn [bind]. intros E.
      pose proof (f_equal (fun o => match o with Some x => x | None => "" end) E)
        as E'. cbv beta iota in E'. subst out.
      assert (Hc : contains "export interface Type {"
                     ("

      export interface Type {
        __resolveType: GraphQLTypeResolver<" ++
                      TypeScript.resolveTypeUnion (int_types i) (modelMap args) ++
                      ", " ++ getContextName (context args) ++ ">;
      }
    }
  ")).
      { exists "

      ". eexists. string_eq. }
      eexists. split; [rewrite !append_assoc; reflexivity |].
      find_part Hc.
  - intros u Hu. split.
    + unfold TypeScript.resolversEntries. apply in_or_app. right.
      apply in_or_app. right.
      apply (in_map (fun t => union_name t ++ "?: " ++ union_name t ++
                              "Resolvers.Type")), Hu.
    + unfold TypeScript.renderUnionNamespace.
      exists ("
      export interface Type {
        __resolveType?: GraphQLTypeResolver<" ++
              TypeScript.resolveTypeUnion (union_types u) (modelMap args) ++
              ", " ++ getContextName (context args) ++ ">;
      }
    }
  ").
      split; [string_eq |].
      exists "
      ". eexists. string_eq.
Qed.

End TypeScriptReferences.

Lemma typescript_shape_references_witness :
  In "SearchResult?: SearchResultResolvers.Type"
    (TypeScript.resolversEntries Shapes.schema) /\
  exists rest,
    TypeScript.renderUnionNamespace (H := Sample.common) Shapes.searchResult
      Shapes.schema =
    ("    export namespace " ++ "SearchResult" ++ "Resolvers {") ++ rest /\
    contains "export interface Type {" rest.
Proof.
  destruct (typescript_shape_references (H := Sample.common) Shapes.schema
              [] [] [] []) as (_ & _ & Hu).
  apply (Hu Shapes.searchResult). simpl. now left.
Defined.
